(** * Ledger core of the daily-payout backend (src/eu.js)

    A shallow embedding of the balance-mutating request handlers of
    [src/eu.js] together with the Prisma store they run against, and the
    properties of the ledger specification checked against them.

    Modelling conventions.
    - Money is a whole number of kwanza ([Z]).  The handlers compute with
      JavaScript numbers; on integers of ordinary size the only non-integer
      constants they use (0.25, 0.02, 0.01) give, after [Math.floor], the
      exact floor of the rational product, which is what the model computes.
    - A [Date] is its millisecond timestamp ([Z]); a handler runs within one
      clock reading [now], so every [new Date()] it evaluates is [now], and
      [setHours(getHours() + 24)] adds [DAY_MS].
    - A table is the list of its rows in insertion order and the primary key
      of a row is its position; rows are never removed by the handlers
      modelled here.  A relation read with [include] is the row the foreign
      key points to, absent when there is none.
    - Every call to the store may fail.  The failures of a run are fixed in
      advance by a list of booleans consumed one per store call ([true]:
      that call throws); past the end of the list no call fails.
    - Free-text columns (descriptions, names, bank details) and the console
      output carry no behaviour and are left out. *)

From Stdlib Require Import ZArith Lia Bool String.
From stdpp Require Import base tactics option list sorting.

Local Open Scope Z_scope.

(** ** Time *)

(** [1000 * 60 * 60 * 24] *)
Definition DAY_MS : Z := 1000 * 60 * 60 * 24.

(** ** JavaScript truthiness on an optional number *)

(** [!x] for a request or column value that is a number or absent. *)
Definition falsy (x : option Z) : bool :=
  match x with
  | None => true
  | Some v => v =? 0
  end.

(** [x || d] *)
Definition or_default (x : option Z) (d : Z) : Z :=
  match x with
  | None => d
  | Some v => if v =? 0 then d else v
  end.

(** ** Rows *)

Module User.
Record t := mk { saldo : Z; inviter_id : option nat }.
Definition credit (delta : Z) (u : t) : t :=
  mk (saldo u + delta) (inviter_id u).
Definition set_saldo (v : Z) (u : t) : t := mk v (inviter_id u).
End User.

Inductive PurchaseStatus := active | completed | cancelled.

Module Purchase.
Record t := mk {
  user_id : nat;
  amount : Z;
  quantity : Z;
  daily_return : option Z;
  cycle_days : option Z;
  purchase_date : Z;
  next_payout : Z;
  expiry_date : Z;
  status : PurchaseStatus;
  total_earned : Z;
  payout_count : Z;
  last_payout : option Z;
  completed_at : option Z
}.
End Purchase.

Module TxType.
Inductive t :=
  | daily_payout_auto | payout | purchase | referral_bonus | deposit
  | withdrawal | admin_addition | admin_deduction | purchase_refund
  | withdrawal_refund.
End TxType.

Module Transaction.
Record t := mk {
  user_id : nat;
  type : TxType.t;
  amount : Z;
  balance_after : Z;
  created_at : Z
}.
End Transaction.

Inductive LogAction :=
  | AUTO_DAILY_PAYOUT | AUTO_PAYOUTS_COMPLETED | AUTO_PAYOUTS_ERROR
  | DAILY_PAYOUT
  | PURCHASE_COMPLETED | DEPOSIT_APPROVED | WITHDRAWAL_REQUEST
  | WITHDRAWAL_REJECTED | ADMIN_BALANCE_ADD | ADMIN_BALANCE_DEDUCT
  | ADMIN_SET_BALANCE | BULK_BALANCE_ADJUSTMENT
  | DEPOSIT_REQUEST | DEPOSIT_REJECTED | DEPOSIT_APPROVED_ADMIN2
  | WITHDRAWAL_APPROVED | PURCHASE_CANCELLED_ADMIN2 | PRODUCT_ADDED_ADMIN2.

Module SystemLog.
Record t := mk { action : LogAction; user_id : option nat; created_at : Z }.
End SystemLog.

Module ReferralLevel.
Record t := mk { referrer_id : nat; user_id : nat; level : Z }.
End ReferralLevel.

Module ReferralBonus.
Record t := mk {
  referrer_id : nat;
  referred_user_id : nat;
  level : Z;
  purchase_amount : Z;
  bonus_amount : Z;
  bonus_percentage : Z
}.
End ReferralBonus.

(** The status column of deposits and withdrawals. *)
Module Request.
Inductive status_t := pending | completed | failed.
End Request.

Module Deposit.
Record t := mk {
  user_id : nat;
  amount : Z;
  status : Request.status_t;
  processed_at : option Z
}.
End Deposit.

Module Withdrawal.
Record t := mk {
  user_id : nat;
  amount : Z;
  status : Request.status_t;
  processed_at : option Z
}.
End Withdrawal.

Module DailyCheckin.
Record t := mk {
  user_id : nat;
  checkin_date : Z;
  amount_received : Z;
  next_checkin : Z
}.
End DailyCheckin.

(** ** The store *)

Record Db := mkDb {
  users : list User.t;
  purchases : list Purchase.t;
  transactions : list Transaction.t;
  systemLogs : list SystemLog.t;
  referralLevels : list ReferralLevel.t;
  referralBonuses : list ReferralBonus.t;
  deposits : list Deposit.t;
  withdrawals : list Withdrawal.t;
  dailyCheckins : list DailyCheckin.t
}.

Definition set_users (v : list User.t) (d : Db) : Db :=
  mkDb v (purchases d) (transactions d) (systemLogs d) (referralLevels d)
       (referralBonuses d) (deposits d) (withdrawals d)
       (dailyCheckins d).
Definition set_purchases (v : list Purchase.t) (d : Db) : Db :=
  mkDb (users d) v (transactions d) (systemLogs d) (referralLevels d)
       (referralBonuses d) (deposits d) (withdrawals d)
       (dailyCheckins d).
Definition set_transactions (v : list Transaction.t) (d : Db) : Db :=
  mkDb (users d) (purchases d) v (systemLogs d) (referralLevels d)
       (referralBonuses d) (deposits d) (withdrawals d)
       (dailyCheckins d).
Definition set_systemLogs (v : list SystemLog.t) (d : Db) : Db :=
  mkDb (users d) (purchases d) (transactions d) v (referralLevels d)
       (referralBonuses d) (deposits d) (withdrawals d)
       (dailyCheckins d).
Definition set_referralLevels (v : list ReferralLevel.t) (d : Db) : Db :=
  mkDb (users d) (purchases d) (transactions d) (systemLogs d) v
       (referralBonuses d) (deposits d) (withdrawals d)
       (dailyCheckins d).
Definition set_referralBonuses (v : list ReferralBonus.t) (d : Db) : Db :=
  mkDb (users d) (purchases d) (transactions d) (systemLogs d)
       (referralLevels d) v (deposits d) (withdrawals d)
       (dailyCheckins d).
Definition set_deposits (v : list Deposit.t) (d : Db) : Db :=
  mkDb (users d) (purchases d) (transactions d) (systemLogs d)
       (referralLevels d) (referralBonuses d) v (withdrawals d)
       (dailyCheckins d).
Definition set_withdrawals (v : list Withdrawal.t) (d : Db) : Db :=
  mkDb (users d) (purchases d) (transactions d) (systemLogs d)
       (referralLevels d) (referralBonuses d) (deposits d) v
       (dailyCheckins d).
Definition set_dailyCheckins (v : list DailyCheckin.t) (d : Db) : Db :=
  mkDb (users d) (purchases d) (transactions d) (systemLogs d)
       (referralLevels d) (referralBonuses d) (deposits d) (withdrawals d) v.

(** ** Handlers as computations over the store *)

Inductive Error :=
  | StoreFailure      (* the store call failed (timeout, conflict, outage) *)
  | RecordNotFound    (* update of a row that does not exist *)
  | ReferenceError    (* use of a variable that is not declared *)
  | TypeError.        (* property read on null *)

Inductive Outcome (A : Type) :=
  | Ok (a : A)
  | Throw (e : Error).
Arguments Ok {A} a.
Arguments Throw {A} e.

Record World := mkWorld { db : Db; faults : list bool }.

Definition M (A : Type) : Type := World -> Outcome A * World.

Definition ret {A} (a : A) : M A := fun w => (Ok a, w).

Definition bind {A B} (m : M A) (k : A -> M B) : M B :=
  fun w =>
    match m w with
    | (Ok a, w') => k a w'
    | (Throw e, w') => (Throw e, w')
    end.

Definition throw {A} (e : Error) : M A := fun w => (Throw e, w).

(** [try { m } catch (e) { h e }] *)
Definition try_catch {A} (m : M A) (h : Error -> M A) : M A :=
  fun w =>
    match m w with
    | (Ok a, w') => (Ok a, w')
    | (Throw e, w') => h e w'
    end.

Notation "'let*' x ':=' m 'in' k" := (bind m (fun x => k))
  (at level 10, x pattern, m at level 100, k at level 200).

(** One round trip to the store: consumes the next planned failure. *)
Definition store_call : M unit :=
  fun w =>
    match faults w with
    | [] => (Ok tt, w)
    | false :: fs => (Ok tt, mkWorld (db w) fs)
    | true :: fs => (Throw StoreFailure, mkWorld (db w) fs)
    end.

Definition query {A} (g : Db -> A) : M A :=
  let* _ := store_call in fun w => (Ok (g (db w)), w).

(** [prisma.$transaction(async (tx) => body)]: when the body throws, every
    write it made is undone and the error is thrown on. *)
Definition transaction {A} (body : M A) : M A :=
  fun w =>
    match body w with
    | (Ok a, w') => (Ok a, w')
    | (Throw e, w') => (Throw e, mkWorld (db w) (faults w'))
    end.

(** [for (const x of l) { acc = body x acc }] *)
Fixpoint for_of {A S} (l : list A) (body : A -> S -> M S) (acc : S) : M S :=
  match l with
  | [] => ret acc
  | x :: l' => let* acc' := body x acc in for_of l' body acc'
  end.

(** [findMany({ where })]: the rows that satisfy the filter, with their keys,
    numbered from [k]. *)
Fixpoint select_from {A} (P : A -> bool) (k : nat) (l : list A)
  : list (nat * A) :=
  match l with
  | [] => []
  | x :: l' =>
      if P x then (k, x) :: select_from P (S k) l' else select_from P (S k) l'
  end.

(** [update({ where: { id }, data })] on a table: the changed row is
    returned; a missing row is an error. *)
Definition update_row {A} (table : Db -> list A)
    (set_table : list A -> Db -> Db) (id : nat) (g : A -> A) : M A :=
  let* _ := store_call in
  fun w =>
    match table (db w) !! id with
    | None => (Throw RecordNotFound, w)
    | Some r =>
        (Ok (g r), mkWorld (set_table (<[id := g r]> (table (db w))) (db w))
                           (faults w))
    end.

(** [create({ data })] on a table: the key of the new row is returned. *)
Definition create_row {A} (table : Db -> list A)
    (set_table : list A -> Db -> Db) (r : A) : M nat :=
  let* _ := store_call in
  fun w =>
    (Ok (length (table (db w))),
     mkWorld (set_table (table (db w) ++ [r]) (db w)) (faults w)).

(** [findUnique({ where: { id } })] *)
Definition find_row {A} (table : Db -> list A) (id : nat) : M (option A) :=
  query (fun d => table d !! id).

(** Running a handler against a store with a failure plan. *)
Definition run {A} (m : M A) (fs : list bool) (d : Db) : Outcome A * World :=
  m (mkWorld d fs).

Definition db_after {A} (m : M A) (fs : list bool) (d : Db) : Db :=
  db (snd (run m fs d)).

Definition outcome_of {A} (m : M A) (fs : list bool) (d : Db) : Outcome A :=
  fst (run m fs d).

(** ** Payout Engine: [POST /api/process-daily-payouts] *)

Module PayoutEngine.

(** [where: { status: 'active', next_payout: { lte: now },
             expiry_date: { gt: now } }] *)
Definition due (now : Z) (p : Purchase.t) : bool :=
  match Purchase.status p with
  | active => (Purchase.next_payout p <=? now) && (now <? Purchase.expiry_date p)
  | _ => false
  end.

(** An entry of [results]. *)
Inductive Result :=
  | Completed (purchase_id user_id : nat)
  | Success (purchase_id user_id : nat) (amount next_payout : Z).

(** An entry of [errors]. *)
Record Failure := mkFailure {
  purchase_id : nat; user_id : nat; error : Error
}.

Record Acc := mkAcc {
  processedCount : Z;
  totalAmount : Z;
  results : list Result;
  errors : list Failure
}.

(** [data: { status: 'completed', completed_at: new Date() }] *)
Definition complete (now : Z) (q : Purchase.t) : Purchase.t :=
  Purchase.mk (Purchase.user_id q) (Purchase.amount q) (Purchase.quantity q)
    (Purchase.daily_return q) (Purchase.cycle_days q)
    (Purchase.purchase_date q) (Purchase.next_payout q)
    (Purchase.expiry_date q) completed (Purchase.total_earned q)
    (Purchase.payout_count q) (Purchase.last_payout q) (Some now).

(** [data: { next_payout: nextPayout, total_earned: { increment: dailyReturn },
             payout_count: { increment: 1 }, last_payout: new Date() }] *)
Definition advance (nextPayout dailyReturn now : Z) (q : Purchase.t)
  : Purchase.t :=
  Purchase.mk (Purchase.user_id q) (Purchase.amount q) (Purchase.quantity q)
    (Purchase.daily_return q) (Purchase.cycle_days q)
    (Purchase.purchase_date q) nextPayout
    (Purchase.expiry_date q) (Purchase.status q)
    (Purchase.total_earned q + dailyReturn)
    (Purchase.payout_count q + 1) (Some now) (Purchase.completed_at q).

Definition daysPassed (now : Z) (p : Purchase.t) : Z :=
  (now - Purchase.purchase_date p) / DAY_MS.

Definition remainingDays (now : Z) (p : Purchase.t) : Z :=
  or_default (Purchase.cycle_days p) 30 - daysPassed now p.

Definition dailyReturn (p : Purchase.t) : Z :=
  or_default (Purchase.daily_return p) 13.

(** The four writes inside [prisma.$transaction] for one purchase. *)
Definition credit_unit (now : Z) (id : nat) (p : Purchase.t) : M unit :=
  transaction (
    let* updatedUser :=
      update_row users set_users (Purchase.user_id p)
                 (User.credit (dailyReturn p)) in
    let* _ :=
      update_row purchases set_purchases id
                 (advance (Purchase.next_payout p + DAY_MS) (dailyReturn p) now) in
    let* _ :=
      create_row transactions set_transactions
        (Transaction.mk (Purchase.user_id p) TxType.daily_payout_auto
                        (dailyReturn p) (User.saldo updatedUser) now) in
    let* _ :=
      create_row systemLogs set_systemLogs
        (SystemLog.mk AUTO_DAILY_PAYOUT (Some (Purchase.user_id p)) now) in
    ret tt).

(** A row of [duePurchases]: key, purchase and the included [user],
    absent when no such user exists. *)
Definition DueRow : Type := nat * Purchase.t * option User.t.

(** The body of [for (const purchase of duePurchases)].  Its first
    statement reads [purchase.user.mobile]. *)
Definition payout_one (now : Z) (row : DueRow) (acc : Acc) : M Acc :=
  let '(id, p, user) := row in
  try_catch
    (match user with
     | None => throw TypeError
     | Some _ =>
         if remainingDays now p <=? 0 then
           let* _ := update_row purchases set_purchases id (complete now) in
           ret (mkAcc (processedCount acc) (totalAmount acc)
                      (results acc ++ [Completed id (Purchase.user_id p)])
                      (errors acc))
         else
           let* _ := credit_unit now id p in
           ret (mkAcc (processedCount acc + 1)
                      (totalAmount acc + dailyReturn p)
                      (results acc ++
                         [Success id (Purchase.user_id p) (dailyReturn p)
                                  (Purchase.next_payout p + DAY_MS)])
                      (errors acc))
     end)
    (fun purchaseError =>
       ret (mkAcc (processedCount acc) (totalAmount acc) (results acc)
                  (errors acc ++
                     [mkFailure id (Purchase.user_id p) purchaseError]))).

(** What the handler answers. *)
Inductive Reply :=
  | NothingToProcess        (* 200, processed: 0 *)
  | Processed (acc : Acc)   (* 200 with counts, results and errors *)
  | Failed (e : Error).     (* 500 *)

Definition duePurchases (now : Z) (d : Db) : list DueRow :=
  map (fun row => (row, users d !! Purchase.user_id (snd row)))
      (select_from (due now) 0 (purchases d)).

Definition findDue (now : Z) : M (list DueRow) := query (duePurchases now).

Definition process_daily_payouts (now : Z) : M Reply :=
  try_catch
    (let* duePurchases := findDue now in
     if (length duePurchases =? 0)%nat then ret NothingToProcess
     else
       let* acc := for_of duePurchases (payout_one now) (mkAcc 0 0 [] []) in
       let* _ :=
         create_row systemLogs set_systemLogs
           (SystemLog.mk AUTO_PAYOUTS_COMPLETED None now) in
       ret (Processed acc))
    (fun error =>
       let* _ :=
         create_row systemLogs set_systemLogs
           (SystemLog.mk AUTO_PAYOUTS_ERROR None now) in
       ret (Failed error)).

End PayoutEngine.

(** ** The older route [POST /api/process-payouts]

    The scheduler does not call it; it differs from the Payout Engine in
    where the next payout is counted from and in the ledger type. *)

Module LegacyPayouts.

(** An entry of [results]; caught errors go to the same list. *)
Inductive Result :=
  | Completed (purchase_id user_id : nat)
  | Success (purchase_id user_id : nat) (amount next_payout : Z)
  | Failure (purchase_id user_id : nat) (error : Error).

Record Acc := mkAcc {
  processedCount : Z;
  totalAmount : Z;
  results : list Result
}.

Definition credit_unit (now : Z) (id : nat) (p : Purchase.t) : M unit :=
  transaction (
    let* currentUser := find_row users (Purchase.user_id p) in
    let* updatedUser :=
      update_row users set_users (Purchase.user_id p)
                 (User.credit (PayoutEngine.dailyReturn p)) in
    let* _ := match currentUser with
              | Some _ => ret tt
              | None => throw TypeError
              end in
    let* _ :=
      update_row purchases set_purchases id
                 (PayoutEngine.advance (now + DAY_MS)
                                       (PayoutEngine.dailyReturn p) now) in
    let* _ :=
      create_row transactions set_transactions
        (Transaction.mk (Purchase.user_id p) TxType.payout
                        (PayoutEngine.dailyReturn p)
                        (User.saldo updatedUser) now) in
    let* _ :=
      create_row systemLogs set_systemLogs
        (SystemLog.mk DAILY_PAYOUT (Some (Purchase.user_id p)) now) in
    ret tt).

Definition payout_one (now : Z) (row : PayoutEngine.DueRow) (acc : Acc)
  : M Acc :=
  let '(id, p, user) := row in
  try_catch
    (if PayoutEngine.remainingDays now p <=? 0 then
       let* _ :=
         update_row purchases set_purchases id (PayoutEngine.complete now) in
       ret (mkAcc (processedCount acc) (totalAmount acc)
                  (results acc ++ [Completed id (Purchase.user_id p)]))
     else
       match user with
       | None => throw TypeError
       | Some _ =>
           let* _ := credit_unit now id p in
           ret (mkAcc (processedCount acc + 1)
                      (totalAmount acc + PayoutEngine.dailyReturn p)
                      (results acc ++
                         [Success id (Purchase.user_id p)
                                  (PayoutEngine.dailyReturn p) (now + DAY_MS)]))
       end)
    (fun purchaseError =>
       ret (mkAcc (processedCount acc) (totalAmount acc)
                  (results acc ++
                     [Failure id (Purchase.user_id p) purchaseError]))).

Inductive Reply :=
  | Processed (acc : Acc)   (* 200 *)
  | Failed.                 (* 500 *)

Definition process_payouts (now : Z) : M Reply :=
  try_catch
    (let* duePurchases := PayoutEngine.findDue now in
     let* acc := for_of duePurchases (payout_one now) (mkAcc 0 0 []) in
     ret (Processed acc))
    (fun _ => ret Failed).

End LegacyPayouts.

(** ** Referral network *)

Module Referrals.

(** [createReferralNetwork(inviterId, newUserId)].  User keys are never
    falsy in the source, so [x && x.inviter_id] is the presence test. *)
Definition createReferralNetwork (inviterId newUserId : nat) : M unit :=
  try_catch
    (let* _ :=
       create_row referralLevels set_referralLevels
                  (ReferralLevel.mk inviterId newUserId 1) in
     let* level2Inviter := find_row users inviterId in
     match level2Inviter ≫= User.inviter_id with
     | None => ret tt
     | Some inviter2 =>
         let* _ :=
           create_row referralLevels set_referralLevels
                      (ReferralLevel.mk inviter2 newUserId 2) in
         let* level3Inviter := find_row users inviter2 in
         match level3Inviter ≫= User.inviter_id with
         | None => ret tt
         | Some inviter3 =>
             let* _ :=
               create_row referralLevels set_referralLevels
                          (ReferralLevel.mk inviter3 newUserId 3) in
             ret tt
         end
     end)
    (fun _ => ret tt).

(** [bonusPercentages[level]], in hundredths: 0.25, 0.02, 0.01. *)
Definition bonusPercentages (level : Z) : option Z :=
  if level =? 1 then Some 25
  else if level =? 2 then Some 2
  else if level =? 3 then Some 1
  else None.

(** [Math.floor(purchaseAmount * bonusPercentage)] *)
Definition bonusAmount (purchaseAmount percent : Z) : Z :=
  purchaseAmount * percent / 100.

(** An entry of [bonusResults.details]. *)
Record Detail := mkDetail {
  d_level : Z; sponsor_id : nat; d_amount : Z; percentage : Z
}.

Record BonusResults := mkBonusResults {
  level1 : Z; level2 : Z; level3 : Z; total : Z; details : list Detail
}.

(** [bonusResults[`level${level}`] += bonusAmount; bonusResults.total +=
    bonusAmount; bonusResults.details.push(...)], for a level in 1..3. *)
Definition record_bonus (level : Z) (sponsor : nat) (b pct : Z)
    (r : BonusResults) : BonusResults :=
  mkBonusResults
    (if level =? 1 then level1 r + b else level1 r)
    (if level =? 2 then level2 r + b else level2 r)
    (if level =? 3 then level3 r + b else level3 r)
    (total r + b)
    (details r ++ [mkDetail level sponsor b pct]).

(** The store calls for one sponsor, in the order of the source; they are
    issued on the client the function was given, one by one. *)
Definition credit_sponsor (now : Z) (purchaserId : nat) (purchaseAmount : Z)
    (level : Z) (sponsor : nat) (b pct : Z) : M unit :=
  let* currentSponsor := find_row users sponsor in
  let* _ := match currentSponsor with
            | Some _ => ret tt
            | None => throw TypeError
            end in
  let* updatedSponsor :=
    update_row users set_users sponsor (User.credit b) in
  let* _ :=
    create_row transactions set_transactions
      (Transaction.mk sponsor TxType.referral_bonus b
                      (User.saldo updatedSponsor) now) in
  let* _ :=
    create_row referralBonuses set_referralBonuses
      (ReferralBonus.mk sponsor purchaserId level purchaseAmount b pct) in
  ret tt.

(** The body of [for (const referral of purchaserReferrers)]: the row
    comes with the included [referrer], absent when no such user exists. *)
Definition bonus_level (now : Z) (purchaserId : nat) (purchaseAmount : Z)
    (referral : ReferralLevel.t * option User.t) (r : BonusResults)
  : M BonusResults :=
  let level := ReferralLevel.level (fst referral) in
  let sponsor := ReferralLevel.referrer_id (fst referral) in
  match bonusPercentages level, snd referral with
  | Some pct, Some _ =>
      let b := bonusAmount purchaseAmount pct in
      if 0 <? b then
        try_catch
          (let* _ :=
             credit_sponsor now purchaserId purchaseAmount level sponsor b pct in
           ret (record_bonus level sponsor b pct r))
          (fun _ => ret r)
      else ret r
  | _, _ => ret r
  end.

Definition level_le (a b : ReferralLevel.t * option User.t) : Prop :=
  ReferralLevel.level (fst a) <= ReferralLevel.level (fst b).

#[global] Instance level_le_dec a b : Decision (level_le a b).
Proof. unfold level_le. apply _. Defined.

(** [referralLevel.findMany({ where: { user_id: purchaserId },
      include: { referrer }, orderBy: { level: 'asc' } })] *)
Definition purchaserReferrers (purchaserId : nat) (d : Db)
  : list (ReferralLevel.t * option User.t) :=
  merge_sort level_le
    (map (fun r => (r, users d !! ReferralLevel.referrer_id r))
         (List.filter
            (fun r => Nat.eqb (ReferralLevel.user_id r) purchaserId)
            (referralLevels d))).

Definition no_bonus : BonusResults := mkBonusResults 0 0 0 0 [].

Definition distributeReferralBonuses (now : Z) (purchaserId : nat)
    (purchaseAmount : Z) : M BonusResults :=
  try_catch
    (let* referrers := query (purchaserReferrers purchaserId) in
     if (length referrers =? 0)%nat then ret no_bonus
     else for_of referrers (bonus_level now purchaserId purchaseAmount)
                 no_bonus)
    (fun _ => ret no_bonus).

End Referrals.

(** ** Purchase Workflow: [POST /api/purchase] *)

Module PurchaseWorkflow.

Record Request := mkRequest {
  product_id : option string;
  product_name : option string;
  amount : option Z;
  quantity : option Z;
  daily_return : option Z;
  cycle_days : option Z
}.

(** [!s] for a request value that is a string or absent. *)
Definition falsy_str (s : option string) : bool :=
  match s with
  | None => true
  | Some s => String.eqb s EmptyString
  end.

Inductive Reply :=
  | Incomplete                        (* 400 'Dados da compra incompletos' *)
  | UserNotFound                      (* 404 *)
  | InsufficientBalance (saldo amount : Z)   (* 400 'Saldo insuficiente...' *)
  | Done (purchase_id : nat) (new_balance confirmed_balance : Z)
         (bonuses_distributed : Referrals.BonusResults)      (* 200 *)
  | ServerError (e : Error).          (* 500, or 400 by the error text *)

(** The row written by [tx.purchase.create]. *)
Definition new_purchase (now : Z) (userId : nat) (amount : Z) (req : Request)
  : Purchase.t :=
  Purchase.mk userId amount (or_default (quantity req) 1)
    (Some (or_default (daily_return req) 13))
    (Some (or_default (cycle_days req) 30))
    now (now + DAY_MS)
    (now + or_default (cycle_days req) 30 * DAY_MS)
    active 0 0 None None.

Definition purchase_unit (now : Z) (userId : nat) (amount : Z) (req : Request)
  : M (nat * Z) :=
  transaction (
    let* updatedUser :=
      update_row users set_users userId (User.credit (- amount)) in
    let* purchase :=
      create_row purchases set_purchases (new_purchase now userId amount req) in
    let* _ :=
      create_row transactions set_transactions
        (Transaction.mk userId TxType.purchase (- amount)
                        (User.saldo updatedUser) now) in
    ret (purchase, User.saldo updatedUser)).

Definition purchase (now : Z) (userId : nat) (req : Request) : M Reply :=
  try_catch
    (if falsy_str (product_id req) || falsy_str (product_name req)
        || falsy (amount req)
     then ret Incomplete
     else
       let amount := or_default (amount req) 0 in
       let* user := find_row users userId in
       match user with
       | None => ret UserNotFound
       | Some user =>
           if User.saldo user <? amount
           then ret (InsufficientBalance (User.saldo user) amount)
           else
             let* committed := purchase_unit now userId amount req in
             let* bonusResults :=
               try_catch
                 (Referrals.distributeReferralBonuses now userId amount)
                 (fun _ => ret Referrals.no_bonus) in
             let* _ :=
               create_row systemLogs set_systemLogs
                 (SystemLog.mk PURCHASE_COMPLETED (Some userId) now) in
             let* finalUser := find_row users userId in
             match finalUser with
             | None => throw TypeError
             | Some finalUser =>
                 ret (Done (fst committed) (snd committed)
                           (User.saldo finalUser) bonusResults)
             end
       end)
    (fun error => ret (ServerError error)).

End PurchaseWorkflow.

(** ** Withdrawal request: [POST /api/withdraw] *)

Module WithdrawalRequest.

Record Request := mkRequest {
  amount : option Z;
  account_name : option string;
  iban : option string;
  bank_name : option string
}.

Inductive Reply :=
  | InvalidAmount                   (* 400 'Valor de saque inválido' *)
  | BankDetailsIncomplete           (* 400 *)
  | UserNotFound                    (* 404 *)
  | InsufficientBalance             (* 400 'Saldo insuficiente' *)
  | Requested (withdrawal_id : nat) (new_balance : Z)    (* 200 *)
  | ServerError.                    (* 500 *)

Definition invalid_amount (amount : option Z) : bool :=
  falsy amount || (or_default amount 0 <=? 0).

Definition withdraw (now : Z) (userId : nat) (req : Request) : M Reply :=
  try_catch
    (if invalid_amount (amount req) then ret InvalidAmount
     else if PurchaseWorkflow.falsy_str (account_name req)
             || PurchaseWorkflow.falsy_str (iban req)
             || PurchaseWorkflow.falsy_str (bank_name req)
     then ret BankDetailsIncomplete
     else
       let amount := or_default (amount req) 0 in
       let* user := find_row users userId in
       match user with
       | None => ret UserNotFound
       | Some user =>
           if User.saldo user <? amount then ret InsufficientBalance
           else
             let* result :=
               transaction (
                 let* updatedUser :=
                   update_row users set_users userId (User.credit (- amount)) in
                 let* withdrawal :=
                   create_row withdrawals set_withdrawals
                     (Withdrawal.mk userId amount Request.pending None) in
                 let* _ :=
                   create_row transactions set_transactions
                     (Transaction.mk userId TxType.withdrawal (- amount)
                                     (User.saldo updatedUser) now) in
                 let* _ :=
                   create_row systemLogs set_systemLogs
                     (SystemLog.mk WITHDRAWAL_REQUEST (Some userId) now) in
                 ret (withdrawal, User.saldo updatedUser)) in
             ret (Requested (fst result) (snd result))
       end)
    (fun _ => ret ServerError).

End WithdrawalRequest.

(** ** Daily check-in: [POST /api/checkin] *)

Module CheckIn.

Inductive Reply :=
  | AlreadyCheckedIn              (* 400 *)
  | CheckedIn (new_balance : Z)   (* 200 *)
  | ServerError.                  (* 500 *)

(** [today.setHours(0, 0, 0, 0)], with the day taken to start at a multiple
    of [DAY_MS]. *)
Definition today (now : Z) : Z := now - now mod DAY_MS.

(** [where: { user_id, checkin_date: { gte: today, lt: today + 24h } }] *)
Definition checked_in_today (now : Z) (userId : nat) (c : DailyCheckin.t)
  : bool :=
  Nat.eqb (DailyCheckin.user_id c) userId
  && (today now <=? DailyCheckin.checkin_date c)
  && (DailyCheckin.checkin_date c <? today now + DAY_MS).

(** The balance is incremented on the client directly and no ledger row is
    written. *)
Definition checkin (now : Z) (userId : nat) : M Reply :=
  try_catch
    (let* existingCheckin :=
       query (fun d => head (List.filter (checked_in_today now userId)
                                         (dailyCheckins d))) in
     match existingCheckin with
     | Some _ => ret AlreadyCheckedIn
     | None =>
         let* _ :=
           create_row dailyCheckins set_dailyCheckins
             (DailyCheckin.mk userId now 10 (today now + DAY_MS)) in
         let* updatedUser :=
           update_row users set_users userId (User.credit 10) in
         ret (CheckedIn (User.saldo updatedUser))
     end)
    (fun _ => ret ServerError).

End CheckIn.

(** ** Admin adjustment operations *)

Module Admin.

(** Answers of the single-account balance routes. *)
Inductive Reply :=
  | MustBePositive            (* 400 'Valor deve ser maior que zero' *)
  | MustBeNonNegative         (* 400 'Novo saldo deve ser um número não negativo' *)
  | UserNotFound              (* 404 *)
  | InsufficientBalance (saldo amount : Z)         (* 400 *)
  | Adjusted (old_balance new_balance : Z)         (* 200 *)
  | ServerError.              (* 500 *)

Definition invalid_amount (amount : option Z) : bool :=
  falsy amount || (or_default amount 0 <=? 0).

(** [POST /api/admin2/users/:id/add-balance] *)
Definition add_balance (now : Z) (id : nat) (amount : option Z) : M Reply :=
  try_catch
    (if invalid_amount amount then ret MustBePositive
     else
       let amount := or_default amount 0 in
       let* user := find_row users id in
       match user with
       | None => ret UserNotFound
       | Some user =>
           let* _ :=
             transaction (
               let* updatedUser :=
                 update_row users set_users id (User.credit amount) in
               let* _ :=
                 create_row transactions set_transactions
                   (Transaction.mk id TxType.admin_addition amount
                                   (User.saldo updatedUser) now) in
               let* _ :=
                 create_row systemLogs set_systemLogs
                   (SystemLog.mk ADMIN_BALANCE_ADD (Some id) now) in
               ret tt) in
           let* updatedUser := find_row users id in
           match updatedUser with
           | None => throw TypeError
           | Some updatedUser =>
               ret (Adjusted (User.saldo user) (User.saldo updatedUser))
           end
       end)
    (fun _ => ret ServerError).

(** [POST /api/admin2/users/:id/deduct-balance] *)
Definition deduct_balance (now : Z) (id : nat) (amount : option Z) : M Reply :=
  try_catch
    (if invalid_amount amount then ret MustBePositive
     else
       let amount := or_default amount 0 in
       let* user := find_row users id in
       match user with
       | None => ret UserNotFound
       | Some user =>
           if User.saldo user <? amount
           then ret (InsufficientBalance (User.saldo user) amount)
           else
             let* _ :=
               transaction (
                 let* updatedUser :=
                   update_row users set_users id (User.credit (- amount)) in
                 let* _ :=
                   create_row transactions set_transactions
                     (Transaction.mk id TxType.admin_deduction (- amount)
                                     (User.saldo updatedUser) now) in
                 let* _ :=
                   create_row systemLogs set_systemLogs
                     (SystemLog.mk ADMIN_BALANCE_DEDUCT (Some id) now) in
                 ret tt) in
             let* updatedUser := find_row users id in
             match updatedUser with
             | None => throw TypeError
             | Some updatedUser =>
                 ret (Adjusted (User.saldo user) (User.saldo updatedUser))
             end
       end)
    (fun _ => ret ServerError).

(** [difference >= 0 ? 'admin_addition' : 'admin_deduction'] *)
Definition transactionType (difference : Z) : TxType.t :=
  if 0 <=? difference then TxType.admin_addition else TxType.admin_deduction.

(** [POST /api/admin2/users/:id/set-balance] *)
Definition set_balance (now : Z) (id : nat) (new_balance : option Z)
  : M Reply :=
  try_catch
    (match new_balance with
     | None => ret MustBeNonNegative
     | Some new_balance =>
         if new_balance <? 0 then ret MustBeNonNegative
         else
           let* user := find_row users id in
           match user with
           | None => ret UserNotFound
           | Some user =>
               let difference := new_balance - User.saldo user in
               let* _ :=
                 transaction (
                   let* updatedUser :=
                     update_row users set_users id (User.set_saldo new_balance) in
                   let* _ :=
                     create_row transactions set_transactions
                       (Transaction.mk id (transactionType difference)
                                       difference new_balance now) in
                   let* _ :=
                     create_row systemLogs set_systemLogs
                       (SystemLog.mk ADMIN_SET_BALANCE (Some id) now) in
                   ret tt) in
               ret (Adjusted (User.saldo user) new_balance)
           end
     end)
    (fun _ => ret ServerError).

(** *** [POST /api/admin2/users/bulk-balance] *)

Inductive Action := add | deduct | set | other.

Record Operation := mkOperation {
  user_id : option nat;
  action : option Action;
  amount : option Z
}.

Inductive ItemError :=
  | InvalidData               (* 'Dados inválidos' *)
  | NoSuchUser                (* 'Usuário não encontrado' *)
  | Insufficient (saldo : Z)  (* 'Saldo insuficiente: ... KZ' *)
  | InvalidAction             (* 'Ação inválida ...' *)
  | Thrown (e : Error).       (* error.message *)

Record ItemResult := mkItemResult {
  r_user_id : nat;
  r_action : Action;
  r_amount : Z;
  old_balance : Z;
  new_balance : Z
}.

Record BulkAcc := mkBulkAcc {
  results : list ItemResult;
  errors : list (option nat * ItemError)
}.

Definition push_error (acc : BulkAcc) (u : option nat) (e : ItemError)
  : BulkAcc :=
  mkBulkAcc (results acc) (errors acc ++ [(u, e)]).

Definition push_result (acc : BulkAcc) (r : ItemResult) : BulkAcc :=
  mkBulkAcc (results acc ++ [r]) (errors acc).

(** The body of [for (const op of operations)].  The writes go to the
    client directly, outside of any [$transaction]. *)
Definition bulk_item (now : Z) (op : Operation) (acc : BulkAcc) : M BulkAcc :=
  try_catch
    (match user_id op, action op with
     | Some uid, Some act =>
         if invalid_amount (amount op)
         then ret (push_error acc (user_id op) InvalidData)
         else
           let amount := or_default (amount op) 0 in
           let* user := find_row users uid in
           match user with
           | None => ret (push_error acc (user_id op) NoSuchUser)
           | Some user =>
               match act with
               | add =>
                   let* updatedUser :=
                     update_row users set_users uid (User.credit amount) in
                   let* _ :=
                     create_row transactions set_transactions
                       (Transaction.mk uid TxType.admin_addition amount
                                       (User.saldo updatedUser) now) in
                   ret (push_result acc
                          (mkItemResult uid add amount (User.saldo user)
                                        (User.saldo updatedUser)))
               | deduct =>
                   if User.saldo user <? amount
                   then ret (push_error acc (user_id op)
                                        (Insufficient (User.saldo user)))
                   else
                     let* updatedUser :=
                       update_row users set_users uid (User.credit (- amount)) in
                     let* _ :=
                       create_row transactions set_transactions
                         (Transaction.mk uid TxType.admin_deduction (- amount)
                                         (User.saldo updatedUser) now) in
                     ret (push_result acc
                            (mkItemResult uid deduct amount (User.saldo user)
                                          (User.saldo updatedUser)))
               | set =>
                   let* updatedUser :=
                     update_row users set_users uid (User.set_saldo amount) in
                   let difference := amount - User.saldo user in
                   let* _ :=
                     create_row transactions set_transactions
                       (Transaction.mk uid (transactionType difference)
                                       difference amount now) in
                   ret (push_result acc
                          (mkItemResult uid set amount (User.saldo user)
                                        (User.saldo updatedUser)))
               | other => ret (push_error acc (user_id op) InvalidAction)
               end
           end
     | _, _ => ret (push_error acc (user_id op) InvalidData)
     end)
    (fun error => ret (push_error acc (user_id op) (Thrown error))).

Inductive BulkReply :=
  | OperationsRequired        (* 400 'Lista de operações é obrigatória' *)
  | BulkDone (acc : BulkAcc)  (* 200 with results and errors *)
  | BulkServerError.          (* 500 *)

Definition bulk_balance (now : Z) (operations : list Operation) : M BulkReply :=
  try_catch
    (if (length operations =? 0)%nat then ret OperationsRequired
     else
       let* acc := for_of operations (bulk_item now) (mkBulkAcc [] []) in
       let* _ :=
         create_row systemLogs set_systemLogs
           (SystemLog.mk BULK_BALANCE_ADJUSTMENT None now) in
       ret (BulkDone acc))
    (fun _ => ret BulkServerError).

(** *** Deposits and withdrawals *)

Inductive RequestReply :=
  | NotFound                  (* 404 *)
  | AlreadyProcessed          (* 400 'Depósito já foi processado' *)
  | Approved (new_balance : Z)   (* 200 'Depósito aprovado com sucesso' *)
  | Rejected                  (* 200 'Saque rejeitado com sucesso...' *)
  | InternalError (e : Error). (* 500 *)

Definition is_completed (s : Request.status_t) : bool :=
  match s with
  | Request.completed => true
  | _ => false
  end.

Definition set_deposit_status (s : Request.status_t) (now : Z) (x : Deposit.t)
  : Deposit.t :=
  Deposit.mk (Deposit.user_id x) (Deposit.amount x) s (Some now).

Definition set_withdrawal_status (s : Request.status_t) (now : Z)
    (x : Withdrawal.t) : Withdrawal.t :=
  Withdrawal.mk (Withdrawal.user_id x) (Withdrawal.amount x) s (Some now).

(** [PUT /api/admin/deposit/:id/approve].  The value of the
    [$transaction] is bound to [transaction]; the answer then reads
    [result], a name declared nowhere in scope. *)
Definition approve_deposit (now : Z) (id : nat) : M RequestReply :=
  try_catch
    (let* deposit := find_row deposits id in
     match deposit with
     | None => ret NotFound
     | Some deposit =>
         if is_completed (Deposit.status deposit) then ret AlreadyProcessed
         else
           let* transaction_ :=
             transaction (
               let* updatedUser :=
                 update_row users set_users (Deposit.user_id deposit)
                            (User.credit (Deposit.amount deposit)) in
               let* updatedDeposit :=
                 update_row deposits set_deposits id
                            (set_deposit_status Request.completed now) in
               let* _ :=
                 create_row transactions set_transactions
                   (Transaction.mk (Deposit.user_id deposit) TxType.deposit
                                   (Deposit.amount deposit)
                                   (User.saldo updatedUser) now) in
               let* _ :=
                 create_row systemLogs set_systemLogs
                   (SystemLog.mk DEPOSIT_APPROVED
                                 (Some (Deposit.user_id deposit)) now) in
               ret (User.saldo updatedUser)) in
           let* result := throw ReferenceError in
           ret (Approved result)
     end)
    (fun error => ret (InternalError error)).

(** [PUT /api/admin/withdrawal/:id/reject] *)
Definition reject_withdrawal (now : Z) (id : nat) : M RequestReply :=
  try_catch
    (let* withdrawal := find_row withdrawals id in
     match withdrawal with
     | None => ret NotFound
     | Some withdrawal =>
         let* _ :=
           transaction (
             let* updatedUser :=
               update_row users set_users (Withdrawal.user_id withdrawal)
                          (User.credit (Withdrawal.amount withdrawal)) in
             let* _ :=
               update_row withdrawals set_withdrawals id
                          (set_withdrawal_status Request.failed now) in
             let* _ :=
               create_row transactions set_transactions
                 (Transaction.mk (Withdrawal.user_id withdrawal)
                                 TxType.withdrawal_refund
                                 (Withdrawal.amount withdrawal)
                                 (User.saldo updatedUser) now) in
             let* _ :=
               create_row systemLogs set_systemLogs
                 (SystemLog.mk WITHDRAWAL_REJECTED
                               (Some (Withdrawal.user_id withdrawal)) now) in
             ret tt) in
         ret Rejected
     end)
    (fun error => ret (InternalError error)).

End Admin.

(** ** Effects the properties refer to *)

(** The store after the four writes of one payout credit: [u] is the owner's
    row before the credit. *)
Definition credited (now : Z) (id : nat) (p : Purchase.t) (u : User.t) (d : Db)
  : Db :=
  mkDb (<[Purchase.user_id p :=
            User.mk (User.saldo u + PayoutEngine.dailyReturn p)
                    (User.inviter_id u)]> (users d))
       (<[id := Purchase.mk (Purchase.user_id p) (Purchase.amount p)
                  (Purchase.quantity p) (Purchase.daily_return p)
                  (Purchase.cycle_days p) (Purchase.purchase_date p)
                  (Purchase.next_payout p + DAY_MS)
                  (Purchase.expiry_date p) (Purchase.status p)
                  (Purchase.total_earned p + PayoutEngine.dailyReturn p)
                  (Purchase.payout_count p + 1) (Some now)
                  (Purchase.completed_at p)]> (purchases d))
       (transactions d ++
          [Transaction.mk (Purchase.user_id p) TxType.daily_payout_auto
             (PayoutEngine.dailyReturn p)
             (User.saldo u + PayoutEngine.dailyReturn p) now])
       (systemLogs d ++
          [SystemLog.mk AUTO_DAILY_PAYOUT (Some (Purchase.user_id p)) now])
       (referralLevels d) (referralBonuses d) (deposits d) (withdrawals d)
       (dailyCheckins d).

(** The store after a purchase was marked completed. *)
Definition completed_db (now : Z) (id : nat) (p : Purchase.t) (d : Db) : Db :=
  set_purchases (<[id := PayoutEngine.complete now p]> (purchases d)) d.

(** The store after one due purchase went through the loop body without a
    store failure. *)
Definition paid (now : Z) (id : nat) (p : Purchase.t) (u : User.t) (d : Db)
  : Db :=
  if PayoutEngine.remainingDays now p <=? 0 then completed_db now id p d
  else credited now id p u d.

(** A purchase row after the loop body went through for it: completed when
    its cycle is over, advanced by one payout otherwise. *)
Definition settled (now : Z) (p : Purchase.t) : Purchase.t :=
  if PayoutEngine.remainingDays now p <=? 0 then PayoutEngine.complete now p
  else PayoutEngine.advance (Purchase.next_payout p + DAY_MS)
                            (PayoutEngine.dailyReturn p) now p.

Definition row_id (r : PayoutEngine.DueRow) : nat := fst (fst r).

(** The accumulator after a credit, and after a caught error. *)
Definition acc_success (id : nat) (p : Purchase.t) (acc : PayoutEngine.Acc)
  : PayoutEngine.Acc :=
  PayoutEngine.mkAcc (PayoutEngine.processedCount acc + 1)
    (PayoutEngine.totalAmount acc + PayoutEngine.dailyReturn p)
    (PayoutEngine.results acc ++
       [PayoutEngine.Success id (Purchase.user_id p) (PayoutEngine.dailyReturn p)
          (Purchase.next_payout p + DAY_MS)])
    (PayoutEngine.errors acc).

Definition acc_completed (id : nat) (p : Purchase.t) (acc : PayoutEngine.Acc)
  : PayoutEngine.Acc :=
  PayoutEngine.mkAcc (PayoutEngine.processedCount acc)
    (PayoutEngine.totalAmount acc)
    (PayoutEngine.results acc ++
       [PayoutEngine.Completed id (Purchase.user_id p)])
    (PayoutEngine.errors acc).

Definition acc_error (id : nat) (p : Purchase.t) (e : Error)
    (acc : PayoutEngine.Acc) : PayoutEngine.Acc :=
  PayoutEngine.mkAcc (PayoutEngine.processedCount acc)
    (PayoutEngine.totalAmount acc) (PayoutEngine.results acc)
    (PayoutEngine.errors acc ++
       [PayoutEngine.mkFailure id (Purchase.user_id p) e]).

(** Sum of the ledger amounts of one account. *)
Definition ledger_sum (uid : nat) (txs : list Transaction.t) : Z :=
  foldr (fun t s => if Nat.eqb (Transaction.user_id t) uid
                    then Transaction.amount t + s else s) 0 txs.

Definition balance_of (uid : nat) (d : Db) : option Z :=
  User.saldo <$> users d !! uid.

(** What the ledger does not account for: the balance of an account less the
    sum of its ledger amounts.  It is the initial balance as long as every
    balance change comes with its ledger row. *)
Definition unexplained (uid : nat) (d : Db) : option Z :=
  (fun b => b - ledger_sum uid (transactions d)) <$> balance_of uid d.

(** ** Sample stores *)

Module Sample.

(** One account holding 1000, one active purchase bought at time 0. *)
Definition purchase0 (daily_return : option Z) (next_payout : Z)
    (payout_count : Z) : Purchase.t :=
  Purchase.mk 0%nat 500 1 daily_return (Some 30) 0 next_payout
              (40 * DAY_MS) active 0 payout_count None None.

Definition db_with (p : Purchase.t) : Db :=
  mkDb [User.mk 1000 None] [p] [] [] [] [] [] [] [].

(** A purchase whose stored daily return is zero, due at [DAY_MS]. *)
Definition zero_return : Purchase.t := purchase0 (Some 0) DAY_MS 0.

(** A purchase paying 13 a day, due at [DAY_MS]. *)
Definition regular : Purchase.t := purchase0 (Some 13) DAY_MS 0.

(** The same purchase seen by a batch that runs three days late. *)
Definition late_now : Z := 4 * DAY_MS.

(** A purchase bought five days ago whose [payout_count] already equals
    its [cycle_days]. *)
Definition counted_out : Purchase.t := purchase0 (Some 13) (5 * DAY_MS) 30.

(** Seven accounts, each invited by the one before it; account 6 is the
    purchaser, with an up-line of depth 5 above it (5, 4, 3, 2, 1). *)
Definition chain : Db :=
  mkDb [User.mk 100 None; User.mk 100 (Some 0%nat); User.mk 100 (Some 1%nat);
        User.mk 100 (Some 2%nat); User.mk 100 (Some 3%nat);
        User.mk 100 (Some 4%nat); User.mk 1000 (Some 5%nat)]
       [] [] [] [] [] [] [] [].

(** A purchase request that names the product and the amount only. *)
Definition bare_request : PurchaseWorkflow.Request :=
  PurchaseWorkflow.mkRequest (Some "7"%string) (Some "Plano"%string)
                             (Some 500) None None None.

(** One account holding 150. *)
Definition account150 : Db := mkDb [User.mk 150 None] [] [] [] [] [] [] [] [].

(** One account holding 150 with a withdrawal of 100 that was already
    approved, and a pending deposit of 70. *)
Definition requests : Db :=
  mkDb [User.mk 150 None] [] [] [] [] []
       [Deposit.mk 0 70 Request.pending None]
       [Withdrawal.mk 0 100 Request.completed (Some 5)] [].

End Sample.

(** The store after one sponsor was paid a bonus: [u] is the sponsor's row
    before the credit. *)
Definition bonus_paid (now : Z) (purchaserId : nat) (purchaseAmount : Z)
    (level : Z) (sponsor : nat) (b pct : Z) (u : User.t) (d : Db) : Db :=
  mkDb (<[sponsor := User.mk (User.saldo u + b) (User.inviter_id u)]> (users d))
       (purchases d)
       (transactions d ++
          [Transaction.mk sponsor TxType.referral_bonus b (User.saldo u + b) now])
       (systemLogs d) (referralLevels d)
       (referralBonuses d ++
          [ReferralBonus.mk sponsor purchaserId level purchaseAmount b pct])
       (deposits d) (withdrawals d) (dailyCheckins d).

(** The inviter, the inviter's inviter and the latter's inviter, as far as
    they exist. *)
Definition upline (d : Db) (inviterId : nat) : list nat :=
  inviterId ::
    match users d !! inviterId ≫= User.inviter_id with
    | None => []
    | Some inviter2 =>
        inviter2 ::
          match users d !! inviter2 ≫= User.inviter_id with
          | None => []
          | Some inviter3 => [inviter3]
          end
    end.

(** Between [d] and [d'] only accounts of [S] changed, and every ledger row
    and bonus row added belongs to an account of [S]. *)
Definition touches_only (S : list nat) (d d' : Db) : Prop :=
  (forall x, x ∉ S -> users d' !! x = users d !! x) /\
  length (users d') = length (users d) /\
  (exists txs, transactions d' = transactions d ++ txs /\
               Forall (fun t => Transaction.user_id t ∈ S) txs) /\
  (exists bs, referralBonuses d' = referralBonuses d ++ bs /\
              Forall (fun b => ReferralBonus.referrer_id b ∈ S) bs) /\
  referralLevels d' = referralLevels d /\
  purchases d' = purchases d /\
  systemLogs d' = systemLogs d.

(** The rows a complete run of [createReferralNetwork] adds for a new
    user. *)
Definition network_rows (d : Db) (inviterId newUserId : nat)
  : list ReferralLevel.t :=
  imap (fun i a => ReferralLevel.mk a newUserId (Z.of_nat (S i)))
       (upline d inviterId).

(** The store after a withdrawal was rejected: [u] is the owner's row and
    [wd] the withdrawal before the call. *)
Definition refunded (now : Z) (id : nat) (wd : Withdrawal.t) (u : User.t)
    (d : Db) : Db :=
  mkDb (<[Withdrawal.user_id wd :=
            User.mk (User.saldo u + Withdrawal.amount wd) (User.inviter_id u)]>
          (users d))
       (purchases d)
       (transactions d ++
          [Transaction.mk (Withdrawal.user_id wd) TxType.withdrawal_refund
             (Withdrawal.amount wd) (User.saldo u + Withdrawal.amount wd) now])
       (systemLogs d ++
          [SystemLog.mk WITHDRAWAL_REJECTED (Some (Withdrawal.user_id wd)) now])
       (referralLevels d) (referralBonuses d) (deposits d)
       (<[id := Withdrawal.mk (Withdrawal.user_id wd) (Withdrawal.amount wd)
                  Request.failed (Some now)]> (withdrawals d))
       (dailyCheckins d).

(** The store after a deposit was approved: [u] is the owner's row and
    [dep] the deposit before the call. *)
Definition deposited (now : Z) (id : nat) (dep : Deposit.t) (u : User.t)
    (d : Db) : Db :=
  mkDb (<[Deposit.user_id dep :=
            User.mk (User.saldo u + Deposit.amount dep) (User.inviter_id u)]>
          (users d))
       (purchases d)
       (transactions d ++
          [Transaction.mk (Deposit.user_id dep) TxType.deposit
             (Deposit.amount dep) (User.saldo u + Deposit.amount dep) now])
       (systemLogs d ++
          [SystemLog.mk DEPOSIT_APPROVED (Some (Deposit.user_id dep)) now])
       (referralLevels d) (referralBonuses d)
       (<[id := Deposit.mk (Deposit.user_id dep) (Deposit.amount dep)
                  Request.completed (Some now)]> (deposits d))
       (withdrawals d) (dailyCheckins d).

(** The store after the purchase unit committed: [u] is the buyer's row
    before the debit. *)
Definition bought (now : Z) (userId : nat) (amount : Z)
    (req : PurchaseWorkflow.Request) (u : User.t) (d : Db) : Db :=
  mkDb (<[userId := User.mk (User.saldo u + - amount) (User.inviter_id u)]>
          (users d))
       (purchases d ++ [PurchaseWorkflow.new_purchase now userId amount req])
       (transactions d ++
          [Transaction.mk userId TxType.purchase (- amount)
                          (User.saldo u + - amount) now])
       (systemLogs d) (referralLevels d) (referralBonuses d) (deposits d)
       (withdrawals d) (dailyCheckins d).


(** * Further routes of [src/eu.js] *)

(** [findUnique({ where: { id }, include: { user } })]: the row with the
    user its [user_id] points to. *)
Definition find_with_user {A} (table : Db -> list A) (owner : A -> nat)
    (id : nat) : M (option (A * option User.t)) :=
  query (fun d => (fun r => (r, users d !! owner r)) <$> table d !! id).

(** ** Deposit request: [POST /api/deposit] *)

Module DepositRequest.

Record Request := mkRequest {
  amount : option Z;
  account_name : option string;
  iban : option string;
  bank_name : option string
}.

Inductive Reply :=
  | InvalidAmount             (* 400 'Valor de depósito inválido' *)
  | BankDetailsIncomplete     (* 400 *)
  | BelowMinimum              (* 400 'Valor mínimo de depósito é 1.000 KZ' *)
  | Created (deposit_id : nat) (amount : Z)     (* 200 *)
  | ServerError.              (* 500 *)

Definition deposit (now : Z) (userId : nat) (req : Request) : M Reply :=
  try_catch
    (if WithdrawalRequest.invalid_amount (amount req) then ret InvalidAmount
     else if PurchaseWorkflow.falsy_str (account_name req)
             || PurchaseWorkflow.falsy_str (iban req)
             || PurchaseWorkflow.falsy_str (bank_name req)
     then ret BankDetailsIncomplete
     else
       let amount := or_default (amount req) 0 in
       if amount <? 1000 then ret BelowMinimum
       else
         let* deposit :=
           create_row deposits set_deposits
             (Deposit.mk userId amount Request.pending None) in
         let* _ :=
           create_row systemLogs set_systemLogs
             (SystemLog.mk DEPOSIT_REQUEST (Some userId) now) in
         ret (Created deposit amount))
    (fun _ => ret ServerError).

End DepositRequest.

(** ** Deposits and withdrawals, the other admin routes *)

Module AdminRequests.

Inductive Reply :=
  | NotFound                  (* 404 *)
  | AlreadyProcessed          (* 400 'Depósito já foi processado' *)
  | DepositRejected           (* 200 'Depósito rejeitado com sucesso' *)
  | WithdrawalApproved        (* 200 'Saque aprovado com sucesso' *)
  | DepositApproved           (* 200 'Depósito aprovado com sucesso' *)
  | ServerError.              (* 500 *)

(** [PUT /api/admin/deposit/:id/reject].  The log text reads
    [deposit.user.mobile] after the status was written. *)
Definition reject_deposit (now : Z) (id : nat) : M Reply :=
  try_catch
    (let* deposit := find_with_user deposits Deposit.user_id id in
     match deposit with
     | None => ret NotFound
     | Some (deposit, user) =>
         let* updatedDeposit :=
           update_row deposits set_deposits id
                      (Admin.set_deposit_status Request.failed now) in
         let* _ := match user with
                   | Some _ => ret tt
                   | None => throw TypeError
                   end in
         let* _ :=
           create_row systemLogs set_systemLogs
             (SystemLog.mk DEPOSIT_REJECTED (Some (Deposit.user_id deposit)) now) in
         ret DepositRejected
     end)
    (fun _ => ret ServerError).

(** [PUT /api/admin/withdrawal/:id/approve] *)
Definition approve_withdrawal (now : Z) (id : nat) : M Reply :=
  try_catch
    (let* withdrawal := find_with_user withdrawals Withdrawal.user_id id in
     match withdrawal with
     | None => ret NotFound
     | Some (withdrawal, user) =>
         let* updatedWithdrawal :=
           update_row withdrawals set_withdrawals id
                      (Admin.set_withdrawal_status Request.completed now) in
         let* _ := match user with
                   | Some _ => ret tt
                   | None => throw TypeError
                   end in
         let* _ :=
           create_row systemLogs set_systemLogs
             (SystemLog.mk WITHDRAWAL_APPROVED
                           (Some (Withdrawal.user_id withdrawal)) now) in
         ret WithdrawalApproved
     end)
    (fun _ => ret ServerError).

(** [PUT /api/admin2/deposit/:id/approve]: the same unit as the admin
    route, with an answer that names no variable. *)
Definition approve_deposit2 (now : Z) (id : nat) : M Reply :=
  try_catch
    (let* deposit := find_row deposits id in
     match deposit with
     | None => ret NotFound
     | Some deposit =>
         if Admin.is_completed (Deposit.status deposit) then ret AlreadyProcessed
         else
           let* _ :=
             transaction (
               let* updatedUser :=
                 update_row users set_users (Deposit.user_id deposit)
                            (User.credit (Deposit.amount deposit)) in
               let* _ :=
                 update_row deposits set_deposits id
                            (Admin.set_deposit_status Request.completed now) in
               let* _ :=
                 create_row transactions set_transactions
                   (Transaction.mk (Deposit.user_id deposit) TxType.deposit
                                   (Deposit.amount deposit)
                                   (User.saldo updatedUser) now) in
               let* _ :=
                 create_row systemLogs set_systemLogs
                   (SystemLog.mk DEPOSIT_APPROVED_ADMIN2
                                 (Some (Deposit.user_id deposit)) now) in
               ret tt) in
           ret DepositApproved
     end)
    (fun _ => ret ServerError).

End AdminRequests.

(** ** Purchases, the admin routes *)

Module AdminPurchases.

Inductive Reply :=
  | NotFound                  (* 404 'Compra não encontrada' *)
  | AlreadyCancelled          (* 400 'Compra já está cancelada' *)
  | Cancelled                 (* 200 *)
  | Incomplete                (* 400 'Nome do produto e valor são obrigatórios' *)
  | UserNotFound              (* 404 *)
  | Added (purchase_id : nat) (* 200 *)
  | ServerError.              (* 500 *)

Definition is_cancelled (s : PurchaseStatus) : bool :=
  match s with
  | cancelled => true
  | _ => false
  end.

Definition is_active (s : PurchaseStatus) : bool :=
  match s with
  | active => true
  | _ => false
  end.

(** [data: { status: 'cancelled', expiry_date: new Date() }] *)
Definition cancel (now : Z) (q : Purchase.t) : Purchase.t :=
  Purchase.mk (Purchase.user_id q) (Purchase.amount q) (Purchase.quantity q)
    (Purchase.daily_return q) (Purchase.cycle_days q)
    (Purchase.purchase_date q) (Purchase.next_payout q)
    now cancelled (Purchase.total_earned q)
    (Purchase.payout_count q) (Purchase.last_payout q)
    (Purchase.completed_at q).

(** [DELETE /api/admin2/purchases/:id/cancel] *)
Definition cancel_purchase (now : Z) (id : nat) : M Reply :=
  try_catch
    (let* purchase := find_row purchases id in
     match purchase with
     | None => ret NotFound
     | Some purchase =>
         if is_cancelled (Purchase.status purchase) then ret AlreadyCancelled
         else
           let* _ :=
             transaction (
               let* _ :=
                 if is_active (Purchase.status purchase) then
                   let* updatedUser :=
                     update_row users set_users (Purchase.user_id purchase)
                                (User.credit (Purchase.amount purchase)) in
                   let* _ :=
                     create_row transactions set_transactions
                       (Transaction.mk (Purchase.user_id purchase)
                                       TxType.purchase_refund
                                       (Purchase.amount purchase)
                                       (User.saldo updatedUser) now) in
                   ret tt
                 else ret tt in
               let* _ :=
                 update_row purchases set_purchases id (cancel now) in
               let* _ :=
                 create_row systemLogs set_systemLogs
                   (SystemLog.mk PURCHASE_CANCELLED_ADMIN2
                                 (Some (Purchase.user_id purchase)) now) in
               ret tt) in
           ret Cancelled
     end)
    (fun _ => ret ServerError).

Record ProductRequest := mkProductRequest {
  product_name : option string;
  amount : option Z;
  daily_return : option Z;
  cycle_days : option Z;
  quantity : option Z
}.

(** The fields of the request as [tx.purchase.create] of the purchase route
    reads them; the product id is generated. *)
Definition as_purchase (req : ProductRequest) : PurchaseWorkflow.Request :=
  PurchaseWorkflow.mkRequest None (product_name req) (amount req)
    (quantity req) (daily_return req) (cycle_days req).

(** [POST /api/admin2/users/:id/add-product]: the purchase row is created
    on the client directly; no balance is read or written. *)
Definition add_product (now : Z) (id : nat) (req : ProductRequest) : M Reply :=
  try_catch
    (if PurchaseWorkflow.falsy_str (product_name req) || falsy (amount req)
     then ret Incomplete
     else
       let amount := or_default (amount req) 0 in
       let* user := find_row users id in
       match user with
       | None => ret UserNotFound
       | Some user =>
           let* purchase :=
             create_row purchases set_purchases
               (PurchaseWorkflow.new_purchase now id amount (as_purchase req)) in
           let* _ :=
             create_row systemLogs set_systemLogs
               (SystemLog.mk PRODUCT_ADDED_ADMIN2 (Some id) now) in
           ret (Added purchase)
       end)
    (fun _ => ret ServerError).

End AdminPurchases.

(** ** Read-only views *)

Module Views.

(** [users.reduce((sum, user) => sum + (user.saldo || 0), 0)] of
    [GET /api/admin/users]. *)
Definition total_balance (d : Db) : Z :=
  foldr (fun u s => User.saldo u + s) 0 (users d).

Definition is_auto_payout (t : Transaction.t) : bool :=
  match Transaction.type t with
  | TxType.daily_payout_auto => true
  | _ => false
  end.

(** The aggregates of [GET /api/system/payouts-status]:
    [purchase.count] over the due purchases, and [transaction.count] and
    [transaction.aggregate({ _sum: { amount } })] over the
    [daily_payout_auto] rows. *)
Definition pending_today (now : Z) (d : Db) : nat :=
  length (select_from (PayoutEngine.due now) 0 (purchases d)).

Definition total_payouts (d : Db) : nat :=
  length (List.filter is_auto_payout (transactions d)).

Definition total_amount (d : Db) : Z :=
  foldr (fun t s => Transaction.amount t + s) 0
        (List.filter is_auto_payout (transactions d)).

(** *** [GET /api/user/purchases] *)

Inductive DisplayStatus :=
  | as_stored (s : PurchaseStatus)
  | expired.

Inductive StatusMessage :=
  | no_message
  | product_expired          (* 'Produto expirado' *)
  | payout_pending           (* 'Rendimento pendente (sistema automático)' *)
  | next_payout_at (t : Z).  (* 'Próximo rendimento: hh:mm' *)

(** [Math.max(0, Math.ceil((expiryDate - today) / (1000 * 60 * 60 * 24)))] *)
Definition daysRemaining (now : Z) (p : Purchase.t) : Z :=
  Z.max 0 (- ((- (Purchase.expiry_date p - now)) / DAY_MS)).

Definition display (now : Z) (p : Purchase.t) : DisplayStatus * StatusMessage :=
  match Purchase.status p with
  | active =>
      if daysRemaining now p <=? 0 then (expired, product_expired)
      else if Purchase.next_payout p <=? now then (as_stored active, payout_pending)
      else (as_stored active, next_payout_at (Purchase.next_payout p))
  | s => (as_stored s, no_message)
  end.

(** *** [GET /api/user/packages-stats] *)

Definition activeNow (now : Z) (p : Purchase.t) : bool :=
  AdminPurchases.is_active (Purchase.status p) && (now <? Purchase.expiry_date p).

Definition is_completed (p : Purchase.t) : bool :=
  match Purchase.status p with
  | completed => true
  | _ => false
  end.

(** [activePurchases.reduce((earliest, p) => new Date(p.next_payout) <
    new Date(earliest.next_payout) ? p : earliest)], [null] on no rows. *)
Definition earliest (l : list Purchase.t) : option Purchase.t :=
  match l with
  | [] => None
  | x :: l' =>
      Some (fold_left (fun earliest p =>
                         if Purchase.next_payout p <? Purchase.next_payout earliest
                         then p else earliest) l' x)
  end.

Record Stats := mkStats {
  total_packages : nat;
  active_packages : nat;
  completed_packages : nat;
  daily_income : Z;
  total_earned : Z;
  total_invested : Z;
  net_profit : Z;
  next_auto_payout : option Purchase.t
}.

Definition packages_stats (now : Z) (userId : nat) (d : Db) : Stats :=
  let purchases :=
    List.filter (fun p => Nat.eqb (Purchase.user_id p) userId) (purchases d) in
  let activePurchases := List.filter (activeNow now) purchases in
  let totalEarned := foldr (fun p s => Purchase.total_earned p + s) 0 purchases in
  let totalInvested := foldr (fun p s => Purchase.amount p + s) 0 purchases in
  mkStats (length purchases) (length activePurchases)
    (length (List.filter is_completed purchases))
    (foldr (fun p s => or_default (Purchase.daily_return p) 0 + s) 0
           activePurchases)
    totalEarned totalInvested (totalEarned - totalInvested)
    (earliest activePurchases).

End Views.

(** ** Successive runs of the Payout Engine *)

(** The store after the engine ran once for every entry of [runs], each
    with its own clock reading and failure plan. *)
Definition after_runs (d : Db) (runs : list (Z * list bool)) : Db :=
  fold_left (fun d r =>
               db_after (PayoutEngine.process_daily_payouts (fst r)) (snd r) d)
            runs d.

(** ** Effects the further properties refer to *)

(** The store after the admin2 route approved a deposit: as after the admin
    route, with the other log tag. *)
Definition deposited2 (now : Z) (id : nat) (dep : Deposit.t) (u : User.t)
    (d : Db) : Db :=
  set_systemLogs
    (systemLogs d ++
       [SystemLog.mk DEPOSIT_APPROVED_ADMIN2 (Some (Deposit.user_id dep)) now])
    (deposited now id dep u d).

(** The store after an accepted deposit request. *)
Definition deposit_requested (now : Z) (uid : nat) (a : Z) (d : Db) : Db :=
  set_systemLogs
    (systemLogs d ++ [SystemLog.mk DEPOSIT_REQUEST (Some uid) now])
    (set_deposits (deposits d ++ [Deposit.mk uid a Request.pending None]) d).

(** Sample requests. *)
Module Sample2.

Definition deposit_request : DepositRequest.Request :=
  DepositRequest.mkRequest (Some 5000) (Some "Ana"%string)
    (Some "AO06"%string) (Some "BAI"%string).

Definition withdraw_request : WithdrawalRequest.Request :=
  WithdrawalRequest.mkRequest (Some 100) (Some "Ana"%string)
    (Some "AO06"%string) (Some "BAI"%string).

End Sample2.

(** The store after a deposit was rejected, and after a withdrawal was
    approved: only the request row and the log change. *)
Definition deposit_rejected (now : Z) (id : nat) (dep : Deposit.t) (d : Db)
  : Db :=
  set_systemLogs
    (systemLogs d ++
       [SystemLog.mk DEPOSIT_REJECTED (Some (Deposit.user_id dep)) now])
    (set_deposits
       (<[id := Deposit.mk (Deposit.user_id dep) (Deposit.amount dep)
                  Request.failed (Some now)]> (deposits d)) d).

Definition withdrawal_approved (now : Z) (id : nat) (wd : Withdrawal.t)
    (d : Db) : Db :=
  set_systemLogs
    (systemLogs d ++
       [SystemLog.mk WITHDRAWAL_APPROVED (Some (Withdrawal.user_id wd)) now])
    (set_withdrawals
       (<[id := Withdrawal.mk (Withdrawal.user_id wd) (Withdrawal.amount wd)
                  Request.completed (Some now)]> (withdrawals d)) d).

(** The store after a withdrawal request was accepted: [u] is the owner's
    row before the debit. *)
Definition withdrawn (now : Z) (uid : nat) (a : Z) (u : User.t) (d : Db) : Db :=
  mkDb (<[uid := User.mk (User.saldo u + - a) (User.inviter_id u)]> (users d))
       (purchases d)
       (transactions d ++
          [Transaction.mk uid TxType.withdrawal (- a) (User.saldo u + - a) now])
       (systemLogs d ++ [SystemLog.mk WITHDRAWAL_REQUEST (Some uid) now])
       (referralLevels d) (referralBonuses d) (deposits d)
       (withdrawals d ++ [Withdrawal.mk uid a Request.pending None])
       (dailyCheckins d).

(** The store after a purchase was cancelled: an active purchase is
    refunded in full to its owner [u], with a [purchase_refund] ledger row;
    any other only changes status. *)
Definition purchase_cancelled (now : Z) (id : nat) (q : Purchase.t)
    (u : User.t) (d : Db) : Db :=
  let owner := Purchase.user_id q in
  let log := SystemLog.mk PURCHASE_CANCELLED_ADMIN2 (Some owner) now in
  if AdminPurchases.is_active (Purchase.status q) then
    mkDb (<[owner := User.mk (User.saldo u + Purchase.amount q)
                       (User.inviter_id u)]> (users d))
         (<[id := AdminPurchases.cancel now q]> (purchases d))
         (transactions d ++
            [Transaction.mk owner TxType.purchase_refund (Purchase.amount q)
                            (User.saldo u + Purchase.amount q) now])
         (systemLogs d ++ [log])
         (referralLevels d) (referralBonuses d) (deposits d) (withdrawals d)
         (dailyCheckins d)
  else
    mkDb (users d) (<[id := AdminPurchases.cancel now q]> (purchases d))
         (transactions d) (systemLogs d ++ [log])
         (referralLevels d) (referralBonuses d) (deposits d) (withdrawals d)
         (dailyCheckins d).

(** The store after the admin added a product to account [id]. *)
Definition product_added (now : Z) (id : nat) (a : Z)
    (req : AdminPurchases.ProductRequest) (d : Db) : Db :=
  set_systemLogs
    (systemLogs d ++ [SystemLog.mk PRODUCT_ADDED_ADMIN2 (Some id) now])
    (set_purchases
       (purchases d ++
          [PurchaseWorkflow.new_purchase now id a
             (AdminPurchases.as_purchase req)]) d).

(** The store after the admin set the balance of [id] to [v]: [u] is the
    row before. *)
Definition balance_set (now : Z) (id : nat) (v : Z) (u : User.t) (d : Db)
  : Db :=
  mkDb (<[id := User.mk v (User.inviter_id u)]> (users d))
       (purchases d)
       (transactions d ++
          [Transaction.mk id (Admin.transactionType (v - User.saldo u))
                          (v - User.saldo u) v now])
       (systemLogs d ++ [SystemLog.mk ADMIN_SET_BALANCE (Some id) now])
       (referralLevels d) (referralBonuses d) (deposits d) (withdrawals d)
       (dailyCheckins d).

(** The store after the admin added [delta] to the balance of [id], or
    deducted [- delta] from it: [u] is the row before. *)
Definition balance_adjusted (now : Z) (id : nat) (delta : Z) (ty : TxType.t)
    (log : LogAction) (u : User.t) (d : Db) : Db :=
  mkDb (<[id := User.mk (User.saldo u + delta) (User.inviter_id u)]> (users d))
       (purchases d)
       (transactions d ++
          [Transaction.mk id ty delta (User.saldo u + delta) now])
       (systemLogs d ++ [SystemLog.mk log (Some id) now])
       (referralLevels d) (referralBonuses d) (deposits d) (withdrawals d)
       (dailyCheckins d).

(** The row of a purchase that the purchase route, or the admin's
    add-product route, created at [now0], after the engine credited it [k]
    times, the last time at [last]: still active, with the next payout one
    day after the [k]-th. *)
Definition paid_times (now0 : Z) (userId : nat) (amount : Z)
    (req : PurchaseWorkflow.Request) (k : Z) (last : option Z) : Purchase.t :=
  let cycle := or_default (PurchaseWorkflow.cycle_days req) 30 in
  let daily := or_default (PurchaseWorkflow.daily_return req) 13 in
  Purchase.mk userId amount (or_default (PurchaseWorkflow.quantity req) 1)
    (Some daily) (Some cycle)
    now0 (now0 + (k + 1) * DAY_MS) (now0 + cycle * DAY_MS)
    active (k * daily) k last None.


(** * Properties *)

(** ** Store primitives *)

(** Unfolds a handler down to matches on the failure plan and the tables. *)
Ltac unfold_m :=
  unfold db_after, outcome_of, run, transaction, try_catch, update_row,
    create_row, find_row, query, bind, ret, throw, store_call in *.

Lemma for_of_cons {A S} (x : A) l (body : A -> S -> M S) acc w :
  for_of (x :: l) body acc w =
    match body x acc w with
    | (Ok a, w') => for_of l body a w'
    | (Throw e, w') => (Throw e, w')
    end.
Proof. reflexivity. Qed.

Lemma bind_ok {A B} (m : M A) (k : A -> M B) w a w' :
  m w = (Ok a, w') -> bind m k w = k a w'.
Proof. intros H. unfold bind. by rewrite H. Qed.

Lemma try_catch_ok {A} (m : M A) h w a w' :
  m w = (Ok a, w') -> try_catch m h w = (Ok a, w').
Proof. intros H. unfold try_catch. by rewrite H. Qed.

Lemma find_row_ok {A} (table : Db -> list A) id d :
  find_row table id (mkWorld d []) = (Ok (table d !! id), mkWorld d []).
Proof. reflexivity. Qed.

Lemma create_row_ok {A} (table : Db -> list A) set_table (r : A) d :
  create_row table set_table r (mkWorld d []) =
    (Ok (length (table d)), mkWorld (set_table (table d ++ [r]) d) []).
Proof. reflexivity. Qed.

(** [$transaction] is all or nothing: a body that throws leaves the store as
    it was. *)
Lemma transaction_atomic {A} (body : M A) w :
  let '(o, w') := transaction body w in
  (exists a, o = Ok a) \/ db w' = db w.
Proof.
  unfold transaction. destruct (body w) as [[a|e] w']; cbn; eauto.
Qed.

(** [select_from] returns exactly the rows that pass the filter, each once,
    under its own key. *)
Lemma elem_of_select_from {A} (P : A -> bool) k (l : list A) i x :
  (i, x) ∈ select_from P k l <-> (k <= i)%nat /\ l !! (i - k)%nat = Some x /\ P x = true.
Proof.
  revert k. induction l as [|y l IH]; intros k; cbn.
  - rewrite elem_of_nil. split; [tauto|]. intros (_ & H & _). discriminate.
  - assert (Hrec : (i, x) ∈ select_from P (S k) l <->
               (k < i)%nat /\ (y :: l) !! (i - k)%nat = Some x /\ P x = true).
    { rewrite IH. split.
      - intros (Hle & Hl & HP). split; [lia|]. split; [|done].
        replace (i - k)%nat with (S (i - S k)) by lia. done.
      - intros (Hlt & Hl & HP). split; [lia|]. split; [|done].
        replace (i - k)%nat with (S (i - S k)) in Hl by lia. done. }
    destruct (P y) eqn:HPy.
    + rewrite elem_of_cons, Hrec. split.
      * intros [Heq | (Hlt & Hl & HP)].
        -- inversion Heq; subst. rewrite Nat.sub_diag. cbn. auto.
        -- split; [lia|]. auto.
      * intros (Hle & Hl & HP).
        destruct (decide (i = k)) as [->|Hne].
        -- rewrite Nat.sub_diag in Hl. cbn in Hl. left. congruence.
        -- right. split; [lia|]. auto.
    + rewrite Hrec. split.
      * intros (Hlt & Hl & HP). split; [lia|]. auto.
      * intros (Hle & Hl & HP).
        destruct (decide (i = k)) as [->|Hne].
        -- rewrite Nat.sub_diag in Hl. cbn in Hl. congruence.
        -- split; [lia|]. auto.
Qed.

Lemma select_from_keys_ge {A} (P : A -> bool) k (l : list A) i :
  i ∈ (select_from P k l).*1 -> (k <= i)%nat.
Proof.
  intros Hi. apply list_elem_of_fmap in Hi as ([j x] & -> & Hin).
  apply elem_of_select_from in Hin. cbn. lia.
Qed.

Lemma select_from_NoDup {A} (P : A -> bool) k (l : list A) :
  NoDup (select_from P k l).*1.
Proof.
  revert k. induction l as [|y l IH]; intros k; cbn; [constructor|].
  destruct (P y); [|apply IH].
  cbn. constructor; [|apply IH].
  intros Hin. apply select_from_keys_ge in Hin. lia.
Qed.

Lemma select_from_nil {A} (P : A -> bool) k (l : list A) :
  (forall x, x ∈ l -> P x = false) -> select_from P k l = [].
Proof.
  revert k. induction l as [|y l IH]; intros k H; cbn; [done|].
  rewrite (H y) by apply list_elem_of_here.
  apply IH. intros x Hx. apply H. by apply list_elem_of_further.
Qed.

Lemma or_default_some amount : amount <> 0 -> or_default (Some amount) 0 = amount.
Proof.
  intros H. unfold or_default. destruct (amount =? 0) eqn:E; [|done].
  by apply Z.eqb_eq in E.
Qed.

Lemma or_default_zero amount : or_default (Some amount) 0 = amount.
Proof.
  unfold or_default. destruct (amount =? 0) eqn:E; [|done].
  apply Z.eqb_eq in E. by subst.
Qed.


(** ** The credit of one due purchase *)

(** Whatever store calls fail, the four writes of a credit land together or
    not at all. *)
Lemma credit_unit_atomic now id p u d fs :
  purchases d !! id = Some p ->
  users d !! Purchase.user_id p = Some u ->
  let '(o, w) := PayoutEngine.credit_unit now id p (mkWorld d fs) in
  (o = Throw StoreFailure /\ db w = d) \/
  (o = Ok tt /\ db w = credited now id p u d).
Proof.
  intros Hp Hu.
  unfold PayoutEngine.credit_unit, credited. unfold_m.
  do 4 (try (destruct fs as [|[|] fs]); cbn; rewrite ?Hu, ?Hp; cbn; auto).
Qed.

Lemma credit_unit_ok now id p u d :
  purchases d !! id = Some p ->
  users d !! Purchase.user_id p = Some u ->
  PayoutEngine.credit_unit now id p (mkWorld d []) =
    (Ok tt, mkWorld (credited now id p u d) []).
Proof.
  intros Hp Hu.
  unfold PayoutEngine.credit_unit, credited. unfold_m.
  cbn; rewrite ?Hu; cbn; rewrite ?Hp; cbn. reflexivity.
Qed.

(** The loop body on a working store. *)
Lemma payout_one_ok now id p u0 u acc d :
  purchases d !! id = Some p ->
  users d !! Purchase.user_id p = Some u ->
  PayoutEngine.payout_one now (id, p, Some u0) acc (mkWorld d []) =
    (Ok (if PayoutEngine.remainingDays now p <=? 0
         then acc_completed id p acc else acc_success id p acc),
     mkWorld (paid now id p u d) []).
Proof.
  intros Hp Hu. unfold PayoutEngine.payout_one, paid.
  destruct (PayoutEngine.remainingDays now p <=? 0) eqn:Hrem.
  - unfold_m. cbn. rewrite Hp. reflexivity.
  - unfold try_catch, bind. rewrite (credit_unit_ok now id p u d Hp Hu).
    reflexivity.
Qed.

Lemma dailyReturn_stored p r :
  Purchase.daily_return p = Some r -> r <> 0 -> PayoutEngine.dailyReturn p = r.
Proof.
  intros H Hr. unfold PayoutEngine.dailyReturn, or_default. rewrite H.
  destruct (r =? 0) eqn:E; [|done]. apply Z.eqb_eq in E. done.
Qed.

Lemma dailyReturn_default p :
  falsy (Purchase.daily_return p) = true -> PayoutEngine.dailyReturn p = 13.
Proof.
  unfold PayoutEngine.dailyReturn, or_default, falsy.
  destruct (Purchase.daily_return p) as [r|]; [|done]. by intros ->.
Qed.

Lemma payout_one_credit now id p u u0 acc d fs :
  purchases d !! id = Some p ->
  users d !! Purchase.user_id p = Some u ->
  0 < PayoutEngine.remainingDays now p ->
  let '(o, w) := PayoutEngine.payout_one now (id, p, Some u0) acc (mkWorld d fs) in
  (o = Ok (acc_success id p acc) /\ db w = credited now id p u d) \/
  (o = Ok (acc_error id p StoreFailure acc) /\ db w = d).
Proof.
  intros Hp Hu Hrem. unfold PayoutEngine.payout_one.
  apply Z.leb_gt in Hrem. rewrite Hrem.
  pose proof (credit_unit_atomic now id p u d fs Hp Hu) as Hunit.
  unfold try_catch, bind.
  destruct (PayoutEngine.credit_unit now id p (mkWorld d fs)) as [o w].
  destruct Hunit as [[-> Hd]|[-> Hd]]; cbn; auto.
Qed.

(** C2, as amended: the credit of a due purchase whose cycle is not complete
    is one unit.  Whatever store calls fail, the loop body either leaves the
    store as it was and records an error, or it adds the daily return to the
    owner's balance, moves [next_payout] 24 hours on from its previous value,
    adds the daily return to [total_earned] and 1 to [payout_count], sets
    [last_payout] to now and appends one [daily_payout_auto] transaction
    holding the new balance and one system log entry; without store failures
    it does the latter.  The daily return is the stored [daily_return], and 13
    when that is missing or zero. *)
Theorem C2_payout_credit_unit now id p u u0 acc d fs :
  purchases d !! id = Some p ->
  users d !! Purchase.user_id p = Some u ->
  PayoutEngine.due now p = true ->
  0 < PayoutEngine.remainingDays now p ->
  let '(o, w) := PayoutEngine.payout_one now (id, p, Some u0) acc (mkWorld d fs) in
  ((o = Ok (acc_success id p acc) /\ db w = credited now id p u d) \/
   (o = Ok (acc_error id p StoreFailure acc) /\ db w = d)) /\
  (fs = [] -> o = Ok (acc_success id p acc) /\ db w = credited now id p u d) /\
  (forall r, Purchase.daily_return p = Some r -> r <> 0 ->
             PayoutEngine.dailyReturn p = r) /\
  (falsy (Purchase.daily_return p) = true -> PayoutEngine.dailyReturn p = 13).
Proof.
  intros Hp Hu _ Hrem.
  pose proof (payout_one_credit now id p u u0 acc d fs Hp Hu Hrem) as Hcases.
  pose proof (payout_one_ok now id p u0 u acc d Hp Hu) as Hok.
  destruct (PayoutEngine.payout_one now (id, p, Some u0) acc (mkWorld d fs))
    as [o w] eqn:Hrun.
  split; [exact Hcases|]. split.
  - intros ->. rewrite Hok in Hrun. unfold paid in Hrun.
    apply Z.leb_gt in Hrem. rewrite Hrem in Hrun. by inversion Hrun.
  - split; [apply dailyReturn_stored | apply dailyReturn_default].
Qed.

Lemma C2_payout_credit_unit_witness :
  let d := Sample.db_with Sample.regular in
  let '(o, w) := PayoutEngine.payout_one (DAY_MS + 1000)
                   (0%nat, Sample.regular, Some (User.mk 1000 None))
                   (PayoutEngine.mkAcc 0 0 [] []) (mkWorld d []) in
  balance_of 0 (db w) = Some 1013 /\
  Purchase.next_payout <$> purchases (db w) !! 0%nat = Some (2 * DAY_MS) /\
  transactions (db w) =
    [Transaction.mk 0 TxType.daily_payout_auto 13 1013 (DAY_MS + 1000)].
Proof.
  pose proof (C2_payout_credit_unit (DAY_MS + 1000) 0%nat Sample.regular
                (User.mk 1000 None) (User.mk 1000 None)
                (PayoutEngine.mkAcc 0 0 [] []) (Sample.db_with Sample.regular) []
                eq_refl eq_refl eq_refl eq_refl) as H.
  cbv zeta.
  destruct (PayoutEngine.payout_one _ _ _ _) as [o w].
  destruct H as (_ & Hfree & _). destruct (Hfree eq_refl) as [_ ->].
  repeat split.
Defined.

(** C2 as stated fails where the stored [daily_return] is zero: the purchase
    is due and its cycle is not complete, and the owner's balance goes from
    1000 to 1013, not to 1000 plus the purchase's [daily_return]. *)
Lemma C2_counterexample_zero_daily_return :
  let now := DAY_MS + 1000 in
  let d := Sample.db_with Sample.zero_return in
  let d' := db_after (PayoutEngine.process_daily_payouts now) [] d in
  PayoutEngine.due now Sample.zero_return = true /\
  0 < PayoutEngine.remainingDays now Sample.zero_return /\
  Purchase.daily_return Sample.zero_return = Some 0 /\
  balance_of 0 d = Some 1000 /\
  balance_of 0 d' = Some 1013 /\
  balance_of 0 d' <> Some (1000 + 0).
Proof. vm_compute. repeat split; congruence. Qed.

(** [POST /api/process-payouts] counts the next payout from now and writes
    ledger rows of type [payout]: run three days late, it sets [next_payout]
    to now plus 24 hours. *)
Lemma legacy_counts_from_now :
  let now := Sample.late_now in
  let d' := db_after (LegacyPayouts.process_payouts now) []
                     (Sample.db_with Sample.regular) in
  Purchase.next_payout <$> purchases d' !! 0%nat = Some (now + DAY_MS) /\
  transactions d' = [Transaction.mk 0 TxType.payout 13 1013 now].
Proof. vm_compute. split; reflexivity. Qed.

(** ** Two runs of the Payout Engine at the same time *)





Lemma due_rows_ids now d :
  row_id <$> PayoutEngine.duePurchases now d =
  (select_from (PayoutEngine.due now) 0 (purchases d)).*1.
Proof.
  unfold PayoutEngine.duePurchases.
  induction (select_from _ _ _) as [|[i q] l IH]; cbn; [done|]. by rewrite <- IH.
Qed.

Lemma elem_of_due_rows now d id p u0 :
  (id, p, u0) ∈ PayoutEngine.duePurchases now d <->
  purchases d !! id = Some p /\ PayoutEngine.due now p = true /\
  u0 = users d !! Purchase.user_id p.
Proof.
  unfold PayoutEngine.duePurchases. rewrite list_elem_of_fmap. split.
  - intros ([i q] & Heq & Hin). inversion Heq; subst.
    apply elem_of_select_from in Hin as (_ & Hl & HP).
    rewrite Nat.sub_0_r in Hl. auto.
  - intros (Hl & HP & ->). exists (id, p). split; [done|].
    apply elem_of_select_from. rewrite Nat.sub_0_r. split; [lia|]. auto.
Qed.

Lemma no_due_rows now d :
  (forall k q, purchases d !! k = Some q -> PayoutEngine.due now q = false) ->
  PayoutEngine.duePurchases now d = [].
Proof.
  intros H. unfold PayoutEngine.duePurchases. rewrite select_from_nil; [done|].
  intros x Hx. apply list_elem_of_lookup in Hx as [k Hk]. eauto.
Qed.


(** Whatever store calls fail, the loop body returns, and it leaves the
    purchase table as it was or settles the one purchase it was given. *)
Lemma payout_one_any now id p u0 acc d fs :
  purchases d !! id = Some p ->
  exists acc' w,
    PayoutEngine.payout_one now (id, p, u0) acc (mkWorld d fs) = (Ok acc', w) /\
    (purchases (db w) = purchases d \/
     purchases (db w) = <[id := settled now p]> (purchases d)).
Proof.
  intros Hp. unfold PayoutEngine.payout_one, settled.
  destruct u0 as [u0|]; [|by eexists _, _; split; [reflexivity|]; left].
  destruct (PayoutEngine.remainingDays now p <=? 0).
  - unfold_m. destruct fs as [|[|] fs]; cbn; rewrite ?Hp; cbn;
      eexists _, _; (split; [reflexivity|]); cbn; auto.
  - unfold PayoutEngine.credit_unit. unfold_m.
    destruct (users d !! Purchase.user_id p) as [u|] eqn:Hu;
      destruct fs as [|[|] [|[|] [|[|] [|[|] fs]]]]; cbn; rewrite ?Hu; cbn;
      rewrite ?Hp; cbn; eexists _, _; (split; [reflexivity|]); cbn; auto.
Qed.

Lemma payout_loop_any now rows : forall acc d fs,
  NoDup (row_id <$> rows) ->
  (forall id p u0, (id, p, u0) ∈ rows -> purchases d !! id = Some p) ->
  exists acc' w,
    for_of rows (PayoutEngine.payout_one now) acc (mkWorld d fs) = (Ok acc', w) /\
    forall k,
      (forall p u0, (k, p, u0) ∈ rows ->
         purchases (db w) !! k = Some p \/
         purchases (db w) !! k = Some (settled now p)) /\
      (k ∉ row_id <$> rows -> purchases (db w) !! k = purchases d !! k).
Proof.
  induction rows as [|[[id p] u0] rows IH]; intros acc d fs Hnd Hrows.
  - eexists _, _. split; [reflexivity|]. intros k. split; [|done].
    intros p u0 Hin. by apply elem_of_nil in Hin.
  - cbn in Hnd. apply NoDup_cons in Hnd as [Hid Hnd].
    assert (purchases d !! id = Some p) as Hp
      by (eapply Hrows; apply list_elem_of_here).
    destruct (payout_one_any now id p u0 acc d fs Hp)
      as (acc1 & [d1 fs1] & Hone & Hd1).
    cbn [db] in Hd1.
    assert (forall k, k <> id -> purchases d1 !! k = purchases d !! k) as Hother.
    { intros k Hk. destruct Hd1 as [-> | ->]; [done|].
      by apply list_lookup_insert_ne. }
    assert (purchases d1 !! id = Some p \/
            purchases d1 !! id = Some (settled now p)) as Hhere.
    { destruct Hd1 as [-> | ->]; [by left|]. right.
      apply list_lookup_insert_eq. by eapply lookup_lt_Some. }
    assert (forall id' p' u', (id', p', u') ∈ rows -> id' <> id) as Hne.
    { intros id' p' u' Hin ->. apply Hid. apply list_elem_of_fmap.
      by exists (id, p', u'). }
    destruct (IH acc1 d1 fs1 Hnd) as (acc' & w & Hrest & Hk).
    { intros id' p' u' Hin. rewrite Hother by (by eapply Hne).
      eapply Hrows. by apply list_elem_of_further. }
    exists acc', w. rewrite for_of_cons, Hone. split; [exact Hrest|].
    intros k. split.
    + intros p' u' Hin. apply elem_of_cons in Hin as [Heq|Hin].
      * inversion Heq; subst. destruct (Hk id) as [_ Hsame].
        by rewrite (Hsame Hid).
      * destruct (Hk k) as [Hin' _]. by eapply Hin'.
    + cbn. intros Hout. apply not_elem_of_cons in Hout as [Hkid Hout].
      destruct (Hk k) as [_ Hsame]. rewrite (Hsame Hout). by apply Hother.
Qed.

(** Whatever store calls fail, the purchase table after a run of the engine
    is the one it started from or the one the loop over the due purchases
    left. *)
Lemma process_purchases now d fs :
  purchases (db_after (PayoutEngine.process_daily_payouts now) fs d) =
    purchases d \/
  exists fs' acc' w,
    for_of (PayoutEngine.duePurchases now d) (PayoutEngine.payout_one now)
           (PayoutEngine.mkAcc 0 0 [] []) (mkWorld d fs') = (Ok acc', w) /\
    purchases (db_after (PayoutEngine.process_daily_payouts now) fs d) =
      purchases (db w).
Proof.
  assert (forall fs', exists acc' w,
            for_of (PayoutEngine.duePurchases now d)
                   (PayoutEngine.payout_one now)
                   (PayoutEngine.mkAcc 0 0 [] []) (mkWorld d fs') = (Ok acc', w))
    as Hloop.
  { intros fs'.
    destruct (payout_loop_any now (PayoutEngine.duePurchases now d)
                (PayoutEngine.mkAcc 0 0 [] []) d fs')
      as (acc' & w & Hrun & _); [| |by eauto].
    - rewrite due_rows_ids. apply select_from_NoDup.
    - intros id q u0 Hin. by apply elem_of_due_rows in Hin as (Hq & _). }
  unfold PayoutEngine.process_daily_payouts, PayoutEngine.findDue. unfold_m.
  destruct fs as [|[|] fs]; cbn [db faults fst snd].
  - destruct (length (PayoutEngine.duePurchases now d) =? 0)%nat; [by left|].
    destruct (Hloop []) as (acc' & [d' fs'] & Hrun). rewrite Hrun.
    right. exists [], acc', (mkWorld d' fs'). split; [done|].
    destruct fs' as [|[|] [|[|] fs']]; reflexivity.
  - left. destruct fs as [|[|] fs]; reflexivity.
  - destruct (length (PayoutEngine.duePurchases now d) =? 0)%nat; [by left|].
    destruct (Hloop fs) as (acc' & [d' fs'] & Hrun). rewrite Hrun.
    right. exists fs, acc', (mkWorld d' fs'). split; [done|].
    destruct fs' as [|[|] [|[|] fs']]; reflexivity.
Qed.

(** Whatever store calls fail, a run of the engine leaves every purchase as
    it was or, if it was due, settles it once. *)
Lemma run_settles_once now d fs k p :
  purchases d !! k = Some p ->
  let d1 := db_after (PayoutEngine.process_daily_payouts now) fs d in
  purchases d1 !! k = Some p \/
  (PayoutEngine.due now p = true /\ purchases d1 !! k = Some (settled now p)).
Proof.
  intros Hp d1. unfold d1.
  destruct (process_purchases now d fs) as [-> | (fs' & acc' & w & Hrun & ->)];
    [by left|].
  destruct (payout_loop_any now (PayoutEngine.duePurchases now d)
              (PayoutEngine.mkAcc 0 0 [] []) d fs')
    as (acc1 & w1 & Hrun1 & Hk).
  { rewrite due_rows_ids. apply select_from_NoDup. }
  { intros id q u0 Hin. by apply elem_of_due_rows in Hin as (Hq & _). }
  rewrite Hrun in Hrun1. inversion Hrun1; subst acc1 w1.
  destruct (PayoutEngine.due now p) eqn:Hdue.
  - destruct (Hk k) as [Hin _].
    destruct (Hin p (users d !! Purchase.user_id p)); [|auto..].
    by apply elem_of_due_rows.
  - left. destruct (Hk k) as [_ Hsame]. rewrite Hsame; [done|].
    rewrite due_rows_ids. intros Hin.
    apply list_elem_of_fmap in Hin as ([k' q] & Hk' & Hin). cbn in Hk'. subst k'.
    apply elem_of_select_from in Hin as (_ & Hq & Hd).
    rewrite Nat.sub_0_r in Hq. congruence.
Qed.

Section Windowing.
Variable now : Z.
Variable d : Db.
Hypothesis owners_exist :
  forall id p, purchases d !! id = Some p ->
               is_Some (users d !! Purchase.user_id p).
Hypothesis fresh_window :
  forall id p, purchases d !! id = Some p -> PayoutEngine.due now p = true ->
               now < Purchase.next_payout p + DAY_MS.

End Windowing.




(** ** End of a cycle *)

Lemma complete_never_due now later p :
  PayoutEngine.due later (PayoutEngine.complete now p) = false.
Proof. reflexivity. Qed.

(** C4, as amended: when the whole days elapsed since [purchase_date] have
    reached [cycle_days] (30 when that is missing or zero), the Payout Engine
    credits nothing for the purchase it processes, whatever store calls
    fail: the accounts and the ledger stay as they were.  Without store
    failures it sets the status to [completed], after which the purchase is
    never selected as due again.  [payout_count] plays no part. *)
Theorem C4_cycle_completion now id p u0 acc d fs :
  purchases d !! id = Some p ->
  or_default (Purchase.cycle_days p) 30 <= PayoutEngine.daysPassed now p ->
  let '(o, w) := PayoutEngine.payout_one now (id, p, Some u0) acc (mkWorld d fs) in
  users (db w) = users d /\
  transactions (db w) = transactions d /\
  (fs = [] ->
   o = Ok (acc_completed id p acc) /\
   db w = completed_db now id p d /\
   Purchase.status <$> purchases (db w) !! id = Some completed /\
   forall later q, purchases (db w) !! id = Some q ->
                   PayoutEngine.due later q = false).
Proof.
  intros Hp Hdays. unfold PayoutEngine.payout_one.
  assert ((PayoutEngine.remainingDays now p <=? 0) = true) as ->.
  { apply Z.leb_le. unfold PayoutEngine.remainingDays. lia. }
  unfold_m. destruct fs as [|[|] fs]; cbn; rewrite ?Hp; cbn.
  - repeat split; try done.
    + rewrite list_lookup_insert_eq by (by eapply lookup_lt_Some). done.
    + intros later q. rewrite list_lookup_insert_eq by (by eapply lookup_lt_Some).
      by intros [= <-].
  - repeat split; done.
  - repeat split; done.
Qed.

Lemma C4_cycle_completion_witness :
  let now := 30 * DAY_MS + 1000 in
  let p := Sample.purchase0 (Some 13) (30 * DAY_MS) 29 in
  let '(o, w) := PayoutEngine.payout_one now (0%nat, p, Some (User.mk 1000 None))
                   (PayoutEngine.mkAcc 0 0 [] []) (mkWorld (Sample.db_with p) []) in
  balance_of 0 (db w) = Some 1000 /\
  transactions (db w) = [] /\
  Purchase.status <$> purchases (db w) !! 0%nat = Some completed.
Proof.
  pose proof (C4_cycle_completion (30 * DAY_MS + 1000) 0%nat
                (Sample.purchase0 (Some 13) (30 * DAY_MS) 29)
                (User.mk 1000 None) (PayoutEngine.mkAcc 0 0 [] [])
                (Sample.db_with (Sample.purchase0 (Some 13) (30 * DAY_MS) 29)) []
                eq_refl) as H.
  cbv zeta.
  destruct (PayoutEngine.payout_one _ _ _ _) as [o w].
  destruct H as (Hu & Ht & Hfree); [vm_compute; congruence|].
  destruct (Hfree eq_refl) as (_ & _ & Hs & _).
  unfold balance_of. rewrite Hu, Ht. repeat split. exact Hs.
Defined.

(** C4 as stated fails on [payout_count]: a purchase bought five days ago
    whose [payout_count] already equals its [cycle_days] of 30 is credited
    once more and stays active. *)
Lemma C4_counterexample_payout_count :
  let now := 5 * DAY_MS + 1000 in
  let d := Sample.db_with Sample.counted_out in
  let d' := db_after (PayoutEngine.process_daily_payouts now) [] d in
  Purchase.payout_count Sample.counted_out = 30 /\
  Purchase.cycle_days Sample.counted_out = Some 30 /\
  balance_of 0 d = Some 1000 /\
  balance_of 0 d' = Some 1013 /\
  Purchase.status <$> purchases d' !! 0%nat = Some active /\
  Purchase.payout_count <$> purchases d' !! 0%nat = Some 31.
Proof. vm_compute. repeat split; congruence. Qed.

(** ** Referral bonuses *)


Lemma touches_only_refl S d : touches_only S d d.
Proof.
  repeat split; try done.
  - exists []. by rewrite app_nil_r.
  - exists []. by rewrite app_nil_r.
Qed.

Lemma touches_only_trans S d1 d2 d3 :
  touches_only S d1 d2 -> touches_only S d2 d3 -> touches_only S d1 d3.
Proof.
  intros (Hu1 & Hl1 & (t1 & Ht1 & Hf1) & (b1 & Hb1 & Hg1) & Hr1 & Hp1 & Hs1)
         (Hu2 & Hl2 & (t2 & Ht2 & Hf2) & (b2 & Hb2 & Hg2) & Hr2 & Hp2 & Hs2).
  repeat split; try congruence.
  - intros x Hx. rewrite Hu2, Hu1; done.
  - exists (t1 ++ t2). rewrite Ht2, Ht1, <- app_assoc. split; [done|].
    by apply Forall_app.
  - exists (b1 ++ b2). rewrite Hb2, Hb1, <- app_assoc. split; [done|].
    by apply Forall_app.
Qed.

Lemma touches_only_mono S S' d d' :
  (forall x, x ∈ S -> x ∈ S') -> touches_only S d d' -> touches_only S' d d'.
Proof.
  intros Hsub (Hu & Hl & (t & Ht & Hf) & (b & Hb & Hg) & Hr & Hp & Hs).
  repeat split; try done.
  - intros x Hx. apply Hu. intros Hin. apply Hx. by apply Hsub.
  - exists t. split; [done|]. eapply Forall_impl; [exact Hf|]. cbn. eauto.
  - exists b. split; [done|]. eapply Forall_impl; [exact Hg|]. cbn. eauto.
Qed.

Lemma bonus_paid_touches now n amount level sponsor b pct u d :
  touches_only [sponsor] d (bonus_paid now n amount level sponsor b pct u d).
Proof.
  repeat split; cbn; try done.
  - intros x Hx. apply list_lookup_insert_ne. intros ->. apply Hx.
    apply list_elem_of_here.
  - apply length_insert.
  - eexists. split; [done|]. repeat constructor.
  - eexists. split; [done|]. repeat constructor.
Qed.

(** Whatever store calls fail, paying one sponsor never throws past the loop
    body and touches that sponsor only. *)
Lemma bonus_level_frame now n amount row su r d fs :
  exists r' w,
    Referrals.bonus_level now n amount (row, su) r (mkWorld d fs) = (Ok r', w) /\
    touches_only [ReferralLevel.referrer_id row] d (db w) /\
    (fs = [] -> faults w = []).
Proof.
  unfold Referrals.bonus_level. cbn [fst snd].
  destruct (Referrals.bonusPercentages (ReferralLevel.level row)) as [pct|];
    [|by eexists _, _; split; [done|]; split; [apply touches_only_refl|]].
  destruct su as [su|];
    [|by eexists _, _; split; [done|]; split; [apply touches_only_refl|]].
  destruct (0 <? Referrals.bonusAmount amount pct);
    [|by eexists _, _; split; [done|]; split; [apply touches_only_refl|]].
  unfold Referrals.credit_sponsor. unfold_m.
  set (sp := ReferralLevel.referrer_id row).
  destruct (users d !! sp) as [u|] eqn:Hu.
  - destruct fs as [|[|] [|[|] [|[|] [|[|] fs]]]]; cbn; rewrite ?Hu; cbn;
      rewrite ?Hu; cbn;
      eexists _, _; (split; [reflexivity|]); (split; [|try done]).
    all: repeat split; cbn; try done;
      try (by intros x Hx; apply list_lookup_insert_ne; intros ->; apply Hx;
              apply list_elem_of_here);
      try apply length_insert;
      try (by exists []; rewrite app_nil_r);
      try (by eexists; split; [done|]; repeat constructor).
  - destruct fs as [|[|] fs]; cbn; rewrite ?Hu; cbn;
      eexists _, _; (split; [reflexivity|]);
      (split; [apply touches_only_refl|done]).
Qed.

Lemma bonus_loop_frame now n amount S rows : forall r d fs,
  Forall (fun row => ReferralLevel.referrer_id (fst row) ∈ S) rows ->
  exists r' w,
    for_of rows (Referrals.bonus_level now n amount) r (mkWorld d fs) = (Ok r', w) /\
    touches_only S d (db w) /\
    (fs = [] -> faults w = []).
Proof.
  induction rows as [|[row su] rows IH]; intros r d fs Hrows.
  - eexists _, _. split; [reflexivity|]. split; [apply touches_only_refl|done].
  - apply Forall_cons in Hrows as [Hrow Hrows].
    destruct (bonus_level_frame now n amount row su r d fs)
      as (r1 & [d1 fs1] & Hone & Ht1 & Hf1).
    destruct (IH r1 d1 fs1 Hrows) as (r' & w & Hrest & Ht & Hf).
    exists r', w. rewrite for_of_cons, Hone. split; [exact Hrest|]. split.
    + eapply touches_only_trans; [|exact Ht].
      eapply touches_only_mono; [|exact Ht1].
      intros x Hx. apply list_elem_of_singleton in Hx as ->. exact Hrow.
    + intros Hnil. apply Hf. by apply Hf1.
Qed.

Lemma elem_of_purchaserReferrers n d row :
  row ∈ Referrals.purchaserReferrers n d ->
  fst row ∈ referralLevels d /\ ReferralLevel.user_id (fst row) = n.
Proof.
  unfold Referrals.purchaserReferrers. rewrite merge_sort_Permutation.
  intros Hin. apply list_elem_of_fmap in Hin as (r & -> & Hr). cbn.
  apply list_elem_of_In, filter_In in Hr as [Hr Hn].
  split; [by apply list_elem_of_In|]. by apply Nat.eqb_eq.
Qed.

(** The distributor runs the loop body once for every [ReferralLevel] row of
    the purchaser. *)
Lemma purchaserReferrers_rows n d :
  fst <$> Referrals.purchaserReferrers n d ≡ₚ
  List.filter (fun r => Nat.eqb (ReferralLevel.user_id r) n) (referralLevels d).
Proof.
  unfold Referrals.purchaserReferrers. rewrite merge_sort_Permutation.
  induction (List.filter _ _) as [|r l IH]; cbn; [done|]. by rewrite IH.
Qed.

(** Whatever store calls fail, the distributor returns and touches only
    accounts that are referrers of the purchaser in the [ReferralLevel]
    table. *)
Lemma distribute_frame now n amount S d fs :
  (forall r, r ∈ referralLevels d -> ReferralLevel.user_id r = n ->
             ReferralLevel.referrer_id r ∈ S) ->
  exists res w,
    Referrals.distributeReferralBonuses now n amount (mkWorld d fs) = (Ok res, w) /\
    touches_only S d (db w) /\
    (fs = [] -> faults w = []).
Proof.
  intros HS. unfold Referrals.distributeReferralBonuses.
  unfold try_catch, bind at 1, query, bind at 1, store_call. cbn [faults db].
  assert (Forall (fun row => ReferralLevel.referrer_id (fst row) ∈ S)
                 (Referrals.purchaserReferrers n d)) as Hrows.
  { apply Forall_forall. intros row Hrow.
    apply elem_of_purchaserReferrers in Hrow as [Hin Hn]. by apply HS. }
  destruct fs as [|[|] fs]; cbn [db faults].
  - destruct (length (Referrals.purchaserReferrers n d) =? 0)%nat.
    + eexists _, _. split; [reflexivity|]. split; [apply touches_only_refl|done].
    + destruct (bonus_loop_frame now n amount S _ Referrals.no_bonus d [] Hrows)
        as (r' & w & Hrun & Ht & Hf).
      rewrite Hrun. eauto.
  - eexists _, _. split; [reflexivity|]. split; [apply touches_only_refl|done].
  - destruct (length (Referrals.purchaserReferrers n d) =? 0)%nat.
    + eexists _, _. split; [reflexivity|]. split; [apply touches_only_refl|done].
    + destruct (bonus_loop_frame now n amount S _ Referrals.no_bonus d fs Hrows)
        as (r' & w & Hrun & Ht & Hf).
      rewrite Hrun. eexists _, _. split; [reflexivity|]. split; [done|done].
Qed.

Lemma distribute_runs_loop now n amount d :
  Referrals.purchaserReferrers n d <> [] ->
  run (Referrals.distributeReferralBonuses now n amount) [] d =
    for_of (Referrals.purchaserReferrers n d)
           (Referrals.bonus_level now n amount) Referrals.no_bonus
           (mkWorld d []).
Proof.
  intros Hne. unfold run, Referrals.distributeReferralBonuses.
  destruct (bonus_loop_frame now n amount
              (ReferralLevel.referrer_id <$> referralLevels d)
              (Referrals.purchaserReferrers n d) Referrals.no_bonus d [])
    as (r' & w & Hloop & _).
  { apply Forall_forall. intros row Hrow.
    apply elem_of_purchaserReferrers in Hrow as [Hin _].
    apply list_elem_of_fmap. eauto. }
  rewrite Hloop. apply try_catch_ok.
  erewrite bind_ok; [|reflexivity]. cbn [db].
  destruct (Referrals.purchaserReferrers n d); [done|]. exact Hloop.
Qed.





(** ** Fan-out of the referral bonuses *)

(** Whatever store calls fail, registration adds at most three
    [ReferralLevel] rows for the new user, all of them for members of the
    inviter's up-line, and changes no other table; without store failures it
    adds one row per member. *)
Lemma createReferralNetwork_rows inviterId n d fs :
  exists w new,
    Referrals.createReferralNetwork inviterId n (mkWorld d fs) = (Ok tt, w) /\
    referralLevels (db w) = referralLevels d ++ new /\
    users (db w) = users d /\
    transactions (db w) = transactions d /\
    referralBonuses (db w) = referralBonuses d /\
    Forall (fun r => ReferralLevel.user_id r = n /\
                     ReferralLevel.referrer_id r ∈ upline d inviterId) new /\
    (length new <= 3)%nat /\
    (fs = [] -> new = network_rows d inviterId n /\ faults w = []).
Proof.
  unfold Referrals.createReferralNetwork, network_rows, upline. unfold_m.
  destruct (users d !! inviterId ≫= User.inviter_id) as [a2|] eqn:H2;
    [destruct (users d !! a2 ≫= User.inviter_id) as [a3|] eqn:H3|].
  all: destruct fs as [|[|] [|[|] [|[|] [|[|] [|[|] fs]]]]]; cbn; rewrite ?H2; cbn;
         rewrite ?H3; cbn.
  all: eexists _, _; (split; [reflexivity|]); cbn;
         (split; [first [rewrite <- ?app_assoc; reflexivity
                        | symmetry; apply app_nil_r]|]).
  all: repeat split; cbn; try done; try lia.
  all: repeat constructor; cbn; try done.
  all: rewrite !elem_of_cons; auto.
Qed.

Lemma referrers_after_registration inviterId n d w new (S : list nat) :
  (forall r, r ∈ referralLevels d -> ReferralLevel.user_id r <> n) ->
  referralLevels (db w) = referralLevels d ++ new ->
  Forall (fun r => ReferralLevel.user_id r = n /\
                   ReferralLevel.referrer_id r ∈ upline d inviterId) new ->
  (forall x, x ∈ upline d inviterId -> x ∈ S) ->
  forall r, r ∈ referralLevels (db w) -> ReferralLevel.user_id r = n ->
            ReferralLevel.referrer_id r ∈ S.
Proof.
  intros Hfresh Heq Hnew HS r Hr Hn. rewrite Heq in Hr.
  apply elem_of_app in Hr as [Hr|Hr]; [by destruct (Hfresh r Hr)|].
  rewrite Forall_forall in Hnew. apply HS. by apply Hnew.
Qed.

(** C6: a purchaser registered under an inviter chain of depth 5 gets at
    most three [ReferralLevel] rows, for the three nearest ancestors, and a
    purchase of theirs leaves the fourth and fifth ancestor without credit,
    without transaction and without [ReferralBonus] row, whatever store calls
    fail; the distributor has no percentage for a level beyond 3. *)
Theorem C6_fanout_three_levels now d n a1 a2 a3 a4 a5 u1 u2 u3 u4
    amount fs1 fs2 :
  users d !! a1 = Some u1 -> User.inviter_id u1 = Some a2 ->
  users d !! a2 = Some u2 -> User.inviter_id u2 = Some a3 ->
  users d !! a3 = Some u3 -> User.inviter_id u3 = Some a4 ->
  users d !! a4 = Some u4 -> User.inviter_id u4 = Some a5 ->
  NoDup [a1; a2; a3; a4; a5] ->
  (forall r, r ∈ referralLevels d -> ReferralLevel.user_id r <> n) ->
  let w1 := snd (Referrals.createReferralNetwork a1 n (mkWorld d fs1)) in
  let w2 := snd (Referrals.distributeReferralBonuses now n amount
                   (mkWorld (db w1) fs2)) in
  (exists new,
     referralLevels (db w1) = referralLevels d ++ new /\
     (length new <= 3)%nat /\
     Forall (fun r => ReferralLevel.referrer_id r ∈ [a1; a2; a3]) new /\
     (fs1 = [] -> new = [ReferralLevel.mk a1 n 1; ReferralLevel.mk a2 n 2;
                         ReferralLevel.mk a3 n 3])) /\
  (forall x, x = a4 \/ x = a5 ->
     users (db w2) !! x = users d !! x /\
     exists txs bs,
       transactions (db w2) = transactions d ++ txs /\
       Forall (fun t => Transaction.user_id t <> x) txs /\
       referralBonuses (db w2) = referralBonuses d ++ bs /\
       Forall (fun b => ReferralBonus.referrer_id b <> x) bs) /\
  (forall level, 3 < level -> Referrals.bonusPercentages level = None).
Proof.
  intros H1 I1 H2 I2 H3 I3 H4 I4 Hnd Hfresh w1 w2.
  assert (upline d a1 = [a1; a2; a3]) as Hup.
  { unfold upline. rewrite H1. cbn. rewrite I1, H2. cbn. by rewrite I2. }
  destruct (createReferralNetwork_rows a1 n d fs1)
    as (w & new & Hrun & Hrows & Hus & Htx & Hbs & Hnew & Hlen & Hfree).
  assert (w1 = w) as -> by (unfold w1; by rewrite Hrun).
  rewrite Hup in Hnew.
  destruct (distribute_frame now n amount [a1; a2; a3] (db w) fs2)
    as (res & w' & Hrun2 & Htouch & _).
  { rewrite <- Hup. eapply referrers_after_registration; try done.
    by rewrite Hup. }
  assert (w2 = w') as -> by (unfold w2; by rewrite Hrun2).
  split; [|split].
  - exists new. split; [done|]. split; [done|]. split.
    + eapply Forall_impl; [exact Hnew|]. cbn. tauto.
    + intros ->. destruct (Hfree eq_refl) as [-> _].
      unfold network_rows. by rewrite Hup.
  - intros x Hx.
    assert (x ∉ [a1; a2; a3]) as Hout.
    { rewrite !NoDup_cons in Hnd. rewrite !not_elem_of_cons in Hnd.
      rewrite !not_elem_of_cons.
      destruct Hnd as ((? & ? & ? & ? & _) & (? & ? & ? & _) & (? & ? & _) & _).
      destruct Hx as [-> | ->]; repeat split; try congruence;
        apply not_elem_of_nil. }
    destruct Htouch as (Hu & _ & (txs & Ht & Hft) & (bs & Hb & Hfb) & _).
    split; [by rewrite Hu, Hus|].
    exists txs, bs. rewrite Ht, Hb, Htx, Hbs. repeat split.
    + eapply Forall_impl; [exact Hft|]. cbn. intros t Hin Heq.
      by rewrite Heq in Hin.
    + eapply Forall_impl; [exact Hfb|]. cbn. intros b Hin Heq.
      by rewrite Heq in Hin.
  - intros level Hl. unfold Referrals.bonusPercentages.
    destruct (level =? 1) eqn:E1; [apply Z.eqb_eq in E1; lia|].
    destruct (level =? 2) eqn:E2; [apply Z.eqb_eq in E2; lia|].
    destruct (level =? 3) eqn:E3; [apply Z.eqb_eq in E3; lia|]. done.
Qed.

Lemma C6_fanout_three_levels_witness :
  let w1 := snd (Referrals.createReferralNetwork 5 6 (mkWorld Sample.chain [])) in
  let w2 := snd (Referrals.distributeReferralBonuses 7 6 500
                   (mkWorld (db w1) [])) in
  balance_of 2 (db w2) = Some 100 /\ balance_of 1 (db w2) = Some 100 /\
  balance_of 5 (db w2) = Some 225 /\ balance_of 4 (db w2) = Some 110 /\
  balance_of 3 (db w2) = Some 105.
Proof.
  destruct (C6_fanout_three_levels 7 Sample.chain 6%nat 5%nat 4%nat 3%nat 2%nat
              1%nat (User.mk 100 (Some 4%nat)) (User.mk 100 (Some 3%nat))
              (User.mk 100 (Some 2%nat)) (User.mk 100 (Some 1%nat)) 500 [] []
              eq_refl eq_refl eq_refl eq_refl eq_refl eq_refl eq_refl eq_refl)
    as (_ & Hfar & _).
  - compute_done.
  - intros r Hr. vm_compute in Hr. by apply elem_of_nil in Hr.
  - cbv zeta. unfold balance_of.
    destruct (Hfar 2%nat (or_introl eq_refl)) as [-> _].
    destruct (Hfar 1%nat (or_intror eq_refl)) as [-> _].
    repeat split.
Defined.

(** ** Debits beyond the balance *)

(** Closes the three parts of an overdraft statement once the request has
    passed validation: case on the first store call, then compare. *)
Ltac overdraft_cases fs Hu Hlt :=
  unfold_m; destruct fs as [|[|] fs]; cbn; rewrite ?Hu; cbn;
  try (apply Z.ltb_lt in Hlt; rewrite Hlt); cbn;
  (split; [reflexivity|]); (split; [eauto 6|]); try done.

Lemma purchase_overdraft now uid u amount d fs req :
  users d !! uid = Some u ->
  User.saldo u < amount ->
  PurchaseWorkflow.amount req = Some amount ->
  let '(o, w) := PurchaseWorkflow.purchase now uid req (mkWorld d fs) in
  db w = d /\
  (o = Ok PurchaseWorkflow.Incomplete \/
   o = Ok (PurchaseWorkflow.InsufficientBalance (User.saldo u) amount) \/
   o = Ok (PurchaseWorkflow.ServerError StoreFailure)) /\
  (fs = [] ->
   PurchaseWorkflow.falsy_str (PurchaseWorkflow.product_id req) = false ->
   PurchaseWorkflow.falsy_str (PurchaseWorkflow.product_name req) = false ->
   amount <> 0 ->
   o = Ok (PurchaseWorkflow.InsufficientBalance (User.saldo u) amount)).
Proof.
  intros Hu Hlt H. unfold PurchaseWorkflow.purchase. rewrite H.
  destruct (PurchaseWorkflow.falsy_str (PurchaseWorkflow.product_id req));
    [cbn; split; [done|]; split; [auto|]; by intros _ ?|].
  destruct (PurchaseWorkflow.falsy_str (PurchaseWorkflow.product_name req));
    [cbn; split; [done|]; split; [auto|]; by intros _ _ ?|].
  cbn [orb falsy]. destruct (amount =? 0) eqn:Hz.
  { apply Z.eqb_eq in Hz. cbn. split; [done|]. split; [auto|]. by intros _ _ _ ?. }
  apply Z.eqb_neq in Hz. rewrite (or_default_some _ Hz).
  overdraft_cases fs Hu Hlt.
Qed.

Lemma withdraw_overdraft now uid u amount d fs req :
  users d !! uid = Some u ->
  User.saldo u < amount ->
  WithdrawalRequest.amount req = Some amount ->
  let '(o, w) := WithdrawalRequest.withdraw now uid req (mkWorld d fs) in
  db w = d /\
  (o = Ok WithdrawalRequest.InvalidAmount \/
   o = Ok WithdrawalRequest.BankDetailsIncomplete \/
   o = Ok WithdrawalRequest.InsufficientBalance \/
   o = Ok WithdrawalRequest.ServerError) /\
  (fs = [] ->
   PurchaseWorkflow.falsy_str (WithdrawalRequest.account_name req) = false ->
   PurchaseWorkflow.falsy_str (WithdrawalRequest.iban req) = false ->
   PurchaseWorkflow.falsy_str (WithdrawalRequest.bank_name req) = false ->
   0 < amount ->
   o = Ok WithdrawalRequest.InsufficientBalance).
Proof.
  intros Hu Hlt H. unfold WithdrawalRequest.withdraw. rewrite H.
  unfold WithdrawalRequest.invalid_amount. rewrite or_default_zero.
  cbn [falsy]. destruct (amount =? 0) eqn:Hz.
  { apply Z.eqb_eq in Hz. cbn. split; [done|]. split; [auto|].
    intros _ _ _ _ ?. lia. }
  destruct (amount <=? 0) eqn:Hle.
  { apply Z.leb_le in Hle. cbn. split; [done|]. split; [auto|].
    intros _ _ _ _ ?. lia. }
  cbn [orb].
  destruct (PurchaseWorkflow.falsy_str (WithdrawalRequest.account_name req));
    [cbn; split; [done|]; split; [auto|]; by intros _ ?|].
  destruct (PurchaseWorkflow.falsy_str (WithdrawalRequest.iban req));
    [cbn; split; [done|]; split; [auto|]; by intros _ _ ?|].
  destruct (PurchaseWorkflow.falsy_str (WithdrawalRequest.bank_name req));
    [cbn; split; [done|]; split; [auto|]; by intros _ _ _ ?|].
  cbn [orb]. overdraft_cases fs Hu Hlt.
Qed.

Lemma deduct_overdraft now uid u amount d fs :
  users d !! uid = Some u ->
  User.saldo u < amount ->
  let '(o, w) := Admin.deduct_balance now uid (Some amount) (mkWorld d fs) in
  db w = d /\
  (o = Ok Admin.MustBePositive \/
   o = Ok (Admin.InsufficientBalance (User.saldo u) amount) \/
   o = Ok Admin.ServerError) /\
  (fs = [] -> 0 < amount ->
   o = Ok (Admin.InsufficientBalance (User.saldo u) amount)).
Proof.
  intros Hu Hlt. unfold Admin.deduct_balance, Admin.invalid_amount.
  rewrite or_default_zero. cbn [falsy]. destruct (amount =? 0) eqn:Hz.
  { apply Z.eqb_eq in Hz. cbn. split; [done|]. split; [auto|]. intros _ ?. lia. }
  destruct (amount <=? 0) eqn:Hle.
  { apply Z.leb_le in Hle. cbn. split; [done|]. split; [auto|]. intros _ ?. lia. }
  cbn [orb]. overdraft_cases fs Hu Hlt.
Qed.

Lemma bulk_deduct_overdraft now uid u amount d fs acc :
  users d !! uid = Some u ->
  User.saldo u < amount ->
  let op := Admin.mkOperation (Some uid) (Some Admin.deduct) (Some amount) in
  let '(o, w) := Admin.bulk_item now op acc (mkWorld d fs) in
  db w = d /\
  (exists e, o = Ok (Admin.push_error acc (Some uid) e)) /\
  (fs = [] -> 0 < amount ->
   o = Ok (Admin.push_error acc (Some uid) (Admin.Insufficient (User.saldo u))) /\
   faults w = []).
Proof.
  intros Hu Hlt. unfold Admin.bulk_item, Admin.invalid_amount.
  cbn [Admin.user_id Admin.action Admin.amount].
  rewrite or_default_zero. cbn [falsy]. destruct (amount =? 0) eqn:Hz.
  { apply Z.eqb_eq in Hz. cbn. split; [done|]. split; [eauto|]. intros _ ?. lia. }
  destruct (amount <=? 0) eqn:Hle.
  { apply Z.leb_le in Hle. cbn. split; [done|]. split; [eauto|]. intros _ ?. lia. }
  cbn [orb]. overdraft_cases fs Hu Hlt.
Qed.

Lemma bulk_single_deduct_overdraft now uid u amount d fs :
  users d !! uid = Some u ->
  User.saldo u < amount ->
  let op := Admin.mkOperation (Some uid) (Some Admin.deduct) (Some amount) in
  let '(o, w) := Admin.bulk_balance now [op] (mkWorld d fs) in
  users (db w) = users d /\
  purchases (db w) = purchases d /\
  withdrawals (db w) = withdrawals d /\
  transactions (db w) = transactions d /\
  (fs = [] -> 0 < amount ->
   o = Ok (Admin.BulkDone
             (Admin.mkBulkAcc [] [(Some uid, Admin.Insufficient (User.saldo u))]))).
Proof.
  intros Hu Hlt op.
  pose proof (bulk_deduct_overdraft now uid u amount d fs
                (Admin.mkBulkAcc [] []) Hu Hlt) as Hitem.
  cbv zeta in Hitem. fold op in Hitem.
  unfold Admin.bulk_balance. cbn [length Nat.eqb].
  unfold try_catch, bind at 1. rewrite for_of_cons. fold op.
  destruct (Admin.bulk_item now op (Admin.mkBulkAcc [] []) (mkWorld d fs))
    as [o1 [d1 fs1]].
  destruct Hitem as (Hd & [e ->] & Hfree). cbn in Hd. subst d1.
  unfold for_of, ret, create_row, bind, store_call. cbn [faults db].
  destruct fs1 as [|[|] fs1]; cbn; repeat split; intros -> Hpos;
    destruct (Hfree eq_refl Hpos) as [[= ->] Hfs]; cbn in Hfs; try done.
Qed.

(** C7: a request to debit more than the account holds is turned down by
    each of the four debiting operations, whatever store calls fail: the
    store is left exactly as it was (no balance change, no [Purchase],
    [Withdrawal] or [Transaction] row) and the answer is an error; for a
    well-formed request and a working store the error is the
    insufficient-balance one, carrying the current balance. *)
Theorem C7_overdraft_rejected now uid u amount d fs :
  users d !! uid = Some u ->
  User.saldo u < amount ->
  (forall req, PurchaseWorkflow.amount req = Some amount ->
     let '(o, w) := PurchaseWorkflow.purchase now uid req (mkWorld d fs) in
     db w = d /\
     (o = Ok PurchaseWorkflow.Incomplete \/
      o = Ok (PurchaseWorkflow.InsufficientBalance (User.saldo u) amount) \/
      o = Ok (PurchaseWorkflow.ServerError StoreFailure)) /\
     (fs = [] ->
      PurchaseWorkflow.falsy_str (PurchaseWorkflow.product_id req) = false ->
      PurchaseWorkflow.falsy_str (PurchaseWorkflow.product_name req) = false ->
      amount <> 0 ->
      o = Ok (PurchaseWorkflow.InsufficientBalance (User.saldo u) amount))) /\
  (forall req, WithdrawalRequest.amount req = Some amount ->
     let '(o, w) := WithdrawalRequest.withdraw now uid req (mkWorld d fs) in
     db w = d /\
     (o = Ok WithdrawalRequest.InvalidAmount \/
      o = Ok WithdrawalRequest.BankDetailsIncomplete \/
      o = Ok WithdrawalRequest.InsufficientBalance \/
      o = Ok WithdrawalRequest.ServerError) /\
     (fs = [] ->
      PurchaseWorkflow.falsy_str (WithdrawalRequest.account_name req) = false ->
      PurchaseWorkflow.falsy_str (WithdrawalRequest.iban req) = false ->
      PurchaseWorkflow.falsy_str (WithdrawalRequest.bank_name req) = false ->
      0 < amount ->
      o = Ok WithdrawalRequest.InsufficientBalance)) /\
  (let '(o, w) := Admin.deduct_balance now uid (Some amount) (mkWorld d fs) in
   db w = d /\
   (o = Ok Admin.MustBePositive \/
    o = Ok (Admin.InsufficientBalance (User.saldo u) amount) \/
    o = Ok Admin.ServerError) /\
   (fs = [] -> 0 < amount ->
    o = Ok (Admin.InsufficientBalance (User.saldo u) amount))) /\
  (forall acc,
     let op := Admin.mkOperation (Some uid) (Some Admin.deduct) (Some amount) in
     let '(o, w) := Admin.bulk_item now op acc (mkWorld d fs) in
     db w = d /\
     (exists e, o = Ok (Admin.push_error acc (Some uid) e)) /\
     (fs = [] -> 0 < amount ->
      o = Ok (Admin.push_error acc (Some uid)
                               (Admin.Insufficient (User.saldo u))))) /\
  (let op := Admin.mkOperation (Some uid) (Some Admin.deduct) (Some amount) in
   let '(o, w) := Admin.bulk_balance now [op] (mkWorld d fs) in
   users (db w) = users d /\
   purchases (db w) = purchases d /\
   withdrawals (db w) = withdrawals d /\
   transactions (db w) = transactions d /\
   (fs = [] -> 0 < amount ->
    o = Ok (Admin.BulkDone
              (Admin.mkBulkAcc []
                 [(Some uid, Admin.Insufficient (User.saldo u))])))).
Proof.
  intros Hu Hlt. split; [|split; [|split; [|split]]].
  - intros req Hreq. exact (purchase_overdraft now uid u amount d fs req Hu Hlt Hreq).
  - intros req Hreq. exact (withdraw_overdraft now uid u amount d fs req Hu Hlt Hreq).
  - exact (deduct_overdraft now uid u amount d fs Hu Hlt).
  - intros acc op.
    pose proof (bulk_deduct_overdraft now uid u amount d fs acc Hu Hlt) as H.
    cbv zeta in H. fold op in H. destruct (Admin.bulk_item now op acc (mkWorld d fs)) as [o w].
    destruct H as (Hd & He & Hfree). split; [done|]. split; [done|].
    intros Hfs Hpos. by destruct (Hfree Hfs Hpos).
  - exact (bulk_single_deduct_overdraft now uid u amount d fs Hu Hlt).
Qed.

Lemma C7_overdraft_rejected_witness :
  run (Admin.deduct_balance 7 0 (Some 200)) [] Sample.account150 =
    (Ok (Admin.InsufficientBalance 150 200), mkWorld Sample.account150 []) /\
  balance_of 0 Sample.account150 = Some 150 /\
  transactions Sample.account150 = [].
Proof.
  destruct (C7_overdraft_rejected 7 0%nat (User.mk 150 None) 200
              Sample.account150 [] eq_refl eq_refl) as (_ & _ & Hdeduct & _).
  unfold run.
  destruct (Admin.deduct_balance 7 0 (Some 200) (mkWorld Sample.account150 []))
    as [o [d fs]] eqn:Hrun.
  destruct Hdeduct as (Hd & _ & Ho). cbn in Hd. subst d.
  rewrite (Ho eq_refl eq_refl).
  assert (fs = []) as -> by (vm_compute in Hrun; congruence).
  repeat split.
Defined.

(** ** Rejecting a withdrawal, approving a deposit *)

Lemma reject_withdrawal_ok now id wd u d :
  withdrawals d !! id = Some wd ->
  users d !! Withdrawal.user_id wd = Some u ->
  run (Admin.reject_withdrawal now id) [] d =
    (Ok Admin.Rejected, mkWorld (refunded now id wd u d) []).
Proof.
  intros Hw Hu. unfold run, Admin.reject_withdrawal, refunded. unfold_m.
  cbn. rewrite Hw. cbn. rewrite Hu. cbn. rewrite Hw. reflexivity.
Qed.

Lemma approve_completed_deposit now id dep d fs :
  deposits d !! id = Some dep ->
  Deposit.status dep = Request.completed ->
  let '(o, w) := Admin.approve_deposit now id (mkWorld d fs) in
  db w = d /\
  (o = Ok Admin.AlreadyProcessed \/ o = Ok (Admin.InternalError StoreFailure)) /\
  (fs = [] -> o = Ok Admin.AlreadyProcessed).
Proof.
  intros Hd Hs. unfold Admin.approve_deposit. unfold_m.
  destruct fs as [|[|] fs]; cbn; rewrite ?Hd; cbn; rewrite ?Hs; cbn; auto.
  split; [done|]. split; [auto|done].
Qed.

(** C8: rejecting a withdrawal looks at no status.  For every existing
    withdrawal, whatever its status, a call (with a working store) adds the
    withdrawal amount to the owner's balance, sets the status to [failed]
    and appends a [withdrawal_refund] transaction; a second call on the same
    withdrawal does so again, so the refund is credited twice.  Approving a
    deposit that is already [completed], by contrast, changes nothing. *)
Theorem C8_reject_withdrawal_refunds_each_time now1 now2 id wd u d :
  withdrawals d !! id = Some wd ->
  users d !! Withdrawal.user_id wd = Some u ->
  let d1 := refunded now1 id wd u d in
  let wd1 := Withdrawal.mk (Withdrawal.user_id wd) (Withdrawal.amount wd)
               Request.failed (Some now1) in
  let u1 := User.mk (User.saldo u + Withdrawal.amount wd) (User.inviter_id u) in
  run (Admin.reject_withdrawal now1 id) [] d = (Ok Admin.Rejected, mkWorld d1 []) /\
  run (Admin.reject_withdrawal now2 id) [] d1 =
    (Ok Admin.Rejected, mkWorld (refunded now2 id wd1 u1 d1) []) /\
  balance_of (Withdrawal.user_id wd) (refunded now2 id wd1 u1 d1) =
    Some (User.saldo u + 2 * Withdrawal.amount wd) /\
  transactions (refunded now2 id wd1 u1 d1) =
    transactions d ++
      [Transaction.mk (Withdrawal.user_id wd) TxType.withdrawal_refund
         (Withdrawal.amount wd) (User.saldo u + Withdrawal.amount wd) now1;
       Transaction.mk (Withdrawal.user_id wd) TxType.withdrawal_refund
         (Withdrawal.amount wd) (User.saldo u + 2 * Withdrawal.amount wd) now2] /\
  (forall now idd dep fs,
     deposits d !! idd = Some dep ->
     Deposit.status dep = Request.completed ->
     db_after (Admin.approve_deposit now idd) fs d = d /\
     outcome_of (Admin.approve_deposit now idd) [] d = Ok Admin.AlreadyProcessed).
Proof.
  intros Hw Hu d1 wd1 u1.
  assert (withdrawals d1 !! id = Some wd1) as Hw1.
  { cbn. apply list_lookup_insert_eq. by eapply lookup_lt_Some. }
  assert (users d1 !! Withdrawal.user_id wd1 = Some u1) as Hu1.
  { cbn. apply list_lookup_insert_eq. by eapply lookup_lt_Some. }
  split; [by apply reject_withdrawal_ok|].
  split; [by apply reject_withdrawal_ok|].
  split; [|split].
  - unfold balance_of. cbn.
    rewrite list_lookup_insert_eq.
    + cbn. f_equal. lia.
    + rewrite length_insert. by eapply lookup_lt_Some.
  - cbn. rewrite <- app_assoc. cbn. do 4 f_equal. lia.
  - intros now idd dep fs Hd Hs.
    pose proof (approve_completed_deposit now idd dep d fs Hd Hs) as Hfs.
    pose proof (approve_completed_deposit now idd dep d [] Hd Hs) as Hnil.
    unfold db_after, outcome_of, run.
    destruct (Admin.approve_deposit now idd (mkWorld d fs)) as [o w].
    destruct (Admin.approve_deposit now idd (mkWorld d [])) as [o' w'].
    cbn [fst snd]. destruct Hfs as (Hd' & _). destruct Hnil as (_ & _ & Ho).
    split; [done|]. by apply Ho.
Qed.

Lemma C8_reject_withdrawal_refunds_each_time_witness :
  let d := Sample.requests in
  let d1 := db_after (Admin.reject_withdrawal 8 0) [] d in
  let d2 := db_after (Admin.reject_withdrawal 9 0) [] d1 in
  Withdrawal.status <$> withdrawals d !! 0%nat = Some Request.completed /\
  balance_of 0 d = Some 150 /\
  balance_of 0 d1 = Some 250 /\
  balance_of 0 d2 = Some 350.
Proof.
  destruct (C8_reject_withdrawal_refunds_each_time 8 9 0%nat
              (Withdrawal.mk 0 100 Request.completed (Some 5))
              (User.mk 150 None) Sample.requests eq_refl eq_refl)
    as (H1 & H2 & Hb & _).
  cbv zeta. unfold db_after. rewrite H1. cbn [snd db]. rewrite H2.
  repeat split.
Defined.

(** C9: approving a pending deposit never answers success.  Whatever store
    calls fail, either the unit did not commit and the store is as it was,
    or it committed (balance credited, status [completed], one [deposit]
    transaction holding the new balance, one log entry) and the answer is
    the internal-error one caused by the undeclared name [result]; with a
    working store it is the latter. *)
Theorem C9_approve_deposit_answers_error now id dep u d fs :
  deposits d !! id = Some dep ->
  Deposit.status dep = Request.pending ->
  users d !! Deposit.user_id dep = Some u ->
  let '(o, w) := Admin.approve_deposit now id (mkWorld d fs) in
  ((db w = deposited now id dep u d /\
    o = Ok (Admin.InternalError ReferenceError)) \/
   (db w = d /\ o = Ok (Admin.InternalError StoreFailure))) /\
  (fs = [] -> db w = deposited now id dep u d /\
              o = Ok (Admin.InternalError ReferenceError)) /\
  (forall new_balance, o <> Ok (Admin.Approved new_balance)).
Proof.
  intros Hd Hs Hu. unfold Admin.approve_deposit, deposited. unfold_m.
  destruct fs as [|[|] [|[|] [|[|] [|[|] [|[|] fs]]]]]; cbn; rewrite ?Hd; cbn;
    rewrite ?Hs; cbn; rewrite ?Hu; cbn; rewrite ?Hd; cbn.
  all: split; [auto|]; split; [try done; auto|]; done.
Qed.

Lemma C9_approve_deposit_answers_error_witness :
  let '(o, w) := Admin.approve_deposit 7 0 (mkWorld Sample.requests []) in
  o = Ok (Admin.InternalError ReferenceError) /\
  balance_of 0 (db w) = Some 220 /\
  Deposit.status <$> deposits (db w) !! 0%nat = Some Request.completed /\
  transactions (db w) = [Transaction.mk 0 TxType.deposit 70 220 7].
Proof.
  pose proof (C9_approve_deposit_answers_error 7 0%nat
                (Deposit.mk 0 70 Request.pending None) (User.mk 150 None)
                Sample.requests [] eq_refl eq_refl eq_refl) as H.
  destruct (Admin.approve_deposit 7 0 (mkWorld Sample.requests [])) as [o w].
  destruct H as (_ & Hfree & _). destruct (Hfree eq_refl) as [-> ->].
  repeat split.
Defined.

(** ** Defaults of a purchase *)

Lemma purchase_unit_ok now uid amount req u d :
  users d !! uid = Some u ->
  PurchaseWorkflow.purchase_unit now uid amount req (mkWorld d []) =
    (Ok (length (purchases d), User.saldo u + - amount),
     mkWorld (bought now uid amount req u d) []).
Proof.
  intros Hu. unfold PurchaseWorkflow.purchase_unit, bought. unfold_m.
  cbn. rewrite Hu. reflexivity.
Qed.



(** ** Balance changes and their ledger rows *)

Lemma ledger_sum_snoc uid txs t :
  ledger_sum uid (txs ++ [t]) =
  ledger_sum uid txs +
  (if Nat.eqb (Transaction.user_id t) uid then Transaction.amount t else 0).
Proof.
  unfold ledger_sum. induction txs as [|t' txs IH]; cbn.
  - destruct (Nat.eqb _ _); lia.
  - rewrite IH. destruct (Nat.eqb (Transaction.user_id t') uid); lia.
Qed.

(** A balance change written together with its ledger row keeps the ledger
    reconciled for every account. *)
Lemma paired_change_reconciles uid u delta t d d' :
  users d !! uid = Some u ->
  users d' = <[uid := User.mk (User.saldo u + delta) (User.inviter_id u)]> (users d) ->
  transactions d' = transactions d ++ [t] ->
  Transaction.user_id t = uid ->
  Transaction.amount t = delta ->
  forall x, unexplained x d' = unexplained x d.
Proof.
  intros Hu Hus Htx Hid Hamt x. unfold unexplained, balance_of.
  rewrite Hus, Htx, ledger_sum_snoc, Hid, Hamt.
  destruct (decide (x = uid)) as [->|Hne].
  - rewrite list_lookup_insert_eq by (by eapply lookup_lt_Some).
    rewrite Hu, Nat.eqb_refl. cbn. f_equal. lia.
  - rewrite list_lookup_insert_ne by done.
    assert (Nat.eqb uid x = false) as -> by (apply Nat.eqb_neq; congruence).
    by rewrite Z.add_0_r.
Qed.

(** The units of the payout credit, the purchase, the deposit approval and
    the withdrawal refund each keep the ledger reconciled. *)
Lemma units_reconcile now id x :
  (forall p u d, users d !! Purchase.user_id p = Some u ->
     unexplained x (credited now id p u d) = unexplained x d) /\
  (forall uid amount req u d, users d !! uid = Some u ->
     unexplained x (bought now uid amount req u d) = unexplained x d) /\
  (forall dep u d, users d !! Deposit.user_id dep = Some u ->
     unexplained x (deposited now id dep u d) = unexplained x d) /\
  (forall wd u d, users d !! Withdrawal.user_id wd = Some u ->
     unexplained x (refunded now id wd u d) = unexplained x d).
Proof.
  repeat split; intros; eapply paired_change_reconciles; eauto; reflexivity.
Qed.

(** The single-account route wraps its writes in one unit: whatever store
    calls fail, the balance and the ledger change together or not at all. *)
Lemma add_balance_atomic now id u amount d fs :
  users d !! id = Some u ->
  0 < amount ->
  let '(o, w) := Admin.add_balance now id (Some amount) (mkWorld d fs) in
  (users (db w) = users d /\ transactions (db w) = transactions d) \/
  (users (db w) =
     <[id := User.mk (User.saldo u + amount) (User.inviter_id u)]> (users d) /\
   transactions (db w) =
     transactions d ++
       [Transaction.mk id TxType.admin_addition amount (User.saldo u + amount) now]).
Proof.
  intros Hu Hpos. unfold Admin.add_balance, Admin.invalid_amount.
  rewrite or_default_zero. cbn [falsy].
  assert ((amount =? 0) = false) as -> by (apply Z.eqb_neq; lia).
  assert ((amount <=? 0) = false) as -> by (apply Z.leb_gt; lia).
  cbn [orb]. unfold_m.
  destruct fs as [|[|] [|[|] [|[|] [|[|] [|[|] fs]]]]]; cbn;
    repeat (first [rewrite Hu
                  | rewrite list_lookup_insert_eq by (by eapply lookup_lt_Some)];
            cbn);
    auto.
Qed.

(** The referral credit is issued call by call as well: a failure of the
    ledger write leaves the sponsor credited without a ledger row or bonus
    row. *)
Lemma referral_credit_not_atomic :
  let row := ReferralLevel.mk 5 6 1 in
  let d' := db_after (Referrals.bonus_level 7 6 500
                        (row, Some (User.mk 100 (Some 4%nat)))
                        Referrals.no_bonus)
                     [false; false; true] Sample.chain in
  balance_of 5 Sample.chain = Some 100 /\
  balance_of 5 d' = Some 225 /\
  transactions d' = [] /\
  referralBonuses d' = [].
Proof. vm_compute. repeat split. Qed.

(** The check-in route credits 10 and writes no ledger row at all, store
    failures or not. *)
Lemma checkin_writes_no_ledger_row :
  let '(o, w) := CheckIn.checkin 7 0 (mkWorld Sample.account150 []) in
  o = Ok (CheckIn.CheckedIn 160) /\
  balance_of 0 (db w) = Some 160 /\
  transactions (db w) = [].
Proof. vm_compute. repeat split. Qed.

(** C1 fails on the bulk route.  A bulk request that adds 100 to an account
    holding 150, run against a store whose third call (the
    [transaction.create]) fails: the request is answered with the item in
    [errors], the balance is 250, and the ledger has no row for the change,
    so the ledger amounts of the account no longer sum to the balance
    change. *)
Theorem C1_bulk_add_not_atomic :
  let d := Sample.account150 in
  let operations :=
    [Admin.mkOperation (Some 0%nat) (Some Admin.add) (Some 100)] in
  let '(o, w) :=
    Admin.bulk_balance 7 operations (mkWorld d [false; false; true]) in
  o = Ok (Admin.BulkDone
            (Admin.mkBulkAcc [] [(Some 0%nat, Admin.Thrown StoreFailure)])) /\
  balance_of 0 d = Some 150 /\
  balance_of 0 (db w) = Some 250 /\
  transactions (db w) = [] /\
  ledger_sum 0 (transactions (db w)) <> 250 - 150 /\
  unexplained 0 d = Some 150 /\
  unexplained 0 (db w) = Some 250.
Proof. vm_compute. repeat split; congruence. Qed.


(** * Further properties *)

(** ** Deposit requests *)

(** X1: a deposit request never changes a balance or the ledger, whatever
    store calls fail.  When it is accepted the amount is the requested one
    and at least 1000, and the new deposit row is pending; a request below
    1000 leaves the store as it was. *)
Theorem deposit_request_effects now uid req d fs :
  let '(o, w) := DepositRequest.deposit now uid req (mkWorld d fs) in
  users (db w) = users d /\
  transactions (db w) = transactions d /\
  (forall id a, o = Ok (DepositRequest.Created id a) ->
     1000 <= a /\ DepositRequest.amount req = Some a /\
     deposits (db w) !! id = Some (Deposit.mk uid a Request.pending None)) /\
  (or_default (DepositRequest.amount req) 0 < 1000 -> db w = d).
Proof.
  unfold DepositRequest.deposit.
  destruct (WithdrawalRequest.invalid_amount _) eqn:Hinv; [cbn; by repeat split|].
  destruct (_ || _ || _); [cbn; by repeat split|].
  destruct (or_default _ 0 <? 1000) eqn:Hmin; [cbn; by repeat split|].
  apply Z.ltb_ge in Hmin.
  assert (DepositRequest.amount req =
          Some (or_default (DepositRequest.amount req) 0)) as Hamt.
  { unfold WithdrawalRequest.invalid_amount, falsy in Hinv.
    destruct (DepositRequest.amount req) as [a|]; [|done].
    by rewrite or_default_zero. }
  unfold_m.
  destruct fs as [|[|] [|[|] fs]]; cbn; (split; [done|]); (split; [done|]);
    (split; [|lia]); intros id a [= <- <-]; (split; [done|]); (split; [done|]);
    cbn; by rewrite list_lookup_middle.
Qed.

(** On a working store a well-formed request of at least 1000 is accepted. *)
Lemma deposit_request_ok now uid req a d :
  DepositRequest.amount req = Some a ->
  1000 <= a ->
  PurchaseWorkflow.falsy_str (DepositRequest.account_name req) = false ->
  PurchaseWorkflow.falsy_str (DepositRequest.iban req) = false ->
  PurchaseWorkflow.falsy_str (DepositRequest.bank_name req) = false ->
  run (DepositRequest.deposit now uid req) [] d =
    (Ok (DepositRequest.Created (length (deposits d)) a),
     mkWorld (deposit_requested now uid a d) []).
Proof.
  intros Ha Hmin Hn Hi Hb. unfold run, DepositRequest.deposit.
  unfold WithdrawalRequest.invalid_amount. rewrite Ha, Hn, Hi, Hb, or_default_zero.
  cbn [falsy orb].
  assert ((a =? 0) = false) as -> by (apply Z.eqb_neq; lia).
  assert ((a <=? 0) = false) as -> by (apply Z.leb_gt; lia).
  assert ((a <? 1000) = false) as -> by (apply Z.ltb_ge; lia).
  reflexivity.
Qed.

(** On a working store the approval of a deposit that is not completed
    commits. *)
Lemma approve_deposit2_ok now id dep u d :
  deposits d !! id = Some dep ->
  Admin.is_completed (Deposit.status dep) = false ->
  users d !! Deposit.user_id dep = Some u ->
  run (AdminRequests.approve_deposit2 now id) [] d =
    (Ok AdminRequests.DepositApproved, mkWorld (deposited2 now id dep u d) []).
Proof.
  intros Hd Hs Hu. unfold run, AdminRequests.approve_deposit2, deposited2,
    deposited. unfold_m. cbn. rewrite Hd. cbn. rewrite Hs. cbn.
  rewrite Hu. cbn. rewrite ?Hd. reflexivity.
Qed.

(** X2: the admin2 approval of a deposit that is not yet completed is all
    or nothing and answers success exactly when it committed: whatever
    store calls fail, either the balance is credited, the deposit is
    completed, one [deposit] ledger row holds the new balance and the answer
    is the success one, or the store is as it was and the answer is the
    error one. *)
Theorem approve_deposit2_all_or_nothing now id dep u d fs :
  deposits d !! id = Some dep ->
  Admin.is_completed (Deposit.status dep) = false ->
  users d !! Deposit.user_id dep = Some u ->
  let '(o, w) := AdminRequests.approve_deposit2 now id (mkWorld d fs) in
  ((o = Ok AdminRequests.DepositApproved /\ db w = deposited2 now id dep u d) \/
   (o = Ok AdminRequests.ServerError /\ db w = d)) /\
  (fs = [] -> o = Ok AdminRequests.DepositApproved /\
              db w = deposited2 now id dep u d).
Proof.
  intros Hd Hs Hu. unfold AdminRequests.approve_deposit2, deposited2, deposited.
  unfold_m.
  destruct fs as [|[|] [|[|] [|[|] [|[|] [|[|] fs]]]]]; cbn; rewrite ?Hd; cbn;
    rewrite ?Hs; cbn; rewrite ?Hu; cbn; rewrite ?Hd; cbn.
  all: split; [auto|]; try done; auto.
Qed.

Lemma approve_deposit2_all_or_nothing_witness :
  let '(o, w) := AdminRequests.approve_deposit2 7 0 (mkWorld Sample.requests []) in
  o = Ok AdminRequests.DepositApproved /\
  balance_of 0 (db w) = Some 220 /\
  Deposit.status <$> deposits (db w) !! 0%nat = Some Request.completed.
Proof.
  pose proof (approve_deposit2_all_or_nothing 7 0%nat
                (Deposit.mk 0 70 Request.pending None) (User.mk 150 None)
                Sample.requests [] eq_refl eq_refl eq_refl) as H.
  destruct (AdminRequests.approve_deposit2 7 0 (mkWorld Sample.requests []))
    as [o w].
  destruct H as (_ & Hfree). destruct (Hfree eq_refl) as [-> ->].
  repeat split.
Defined.

Lemma approve_deposit2_completed now id dep d fs :
  deposits d !! id = Some dep ->
  Deposit.status dep = Request.completed ->
  let '(o, w) := AdminRequests.approve_deposit2 now id (mkWorld d fs) in
  db w = d /\ (fs = [] -> o = Ok AdminRequests.AlreadyProcessed).
Proof.
  intros Hd Hs. unfold AdminRequests.approve_deposit2. unfold_m.
  destruct fs as [|[|] fs]; cbn; rewrite ?Hd; cbn; rewrite ?Hs; cbn;
    (split; [done|]); done.
Qed.

(** X3: the life of a deposit on a working store.  A well-formed request of
    at least 1000 creates a pending deposit and changes no balance; its
    approval adds exactly the requested amount to the owner's balance and
    keeps the ledger reconciled; approving it again, whatever store calls
    fail, changes nothing, so the deposit is credited once. *)
Theorem deposit_credited_once now1 now2 now3 uid u req a d fs :
  users d !! uid = Some u ->
  DepositRequest.amount req = Some a ->
  1000 <= a ->
  PurchaseWorkflow.falsy_str (DepositRequest.account_name req) = false ->
  PurchaseWorkflow.falsy_str (DepositRequest.iban req) = false ->
  PurchaseWorkflow.falsy_str (DepositRequest.bank_name req) = false ->
  let id := length (deposits d) in
  let d1 := db_after (DepositRequest.deposit now1 uid req) [] d in
  let d2 := db_after (AdminRequests.approve_deposit2 now2 id) [] d1 in
  balance_of uid d1 = Some (User.saldo u) /\
  outcome_of (AdminRequests.approve_deposit2 now2 id) [] d1 =
    Ok AdminRequests.DepositApproved /\
  balance_of uid d2 = Some (User.saldo u + a) /\
  (forall x, unexplained x d2 = unexplained x d) /\
  db_after (AdminRequests.approve_deposit2 now3 id) fs d2 = d2 /\
  outcome_of (AdminRequests.approve_deposit2 now3 id) [] d2 =
    Ok AdminRequests.AlreadyProcessed.
Proof.
  intros Hu Ha Hmin Hn Hi Hb id d1 d2.
  assert (d1 = deposit_requested now1 uid a d) as Hd1.
  { unfold d1, db_after. by rewrite (deposit_request_ok now1 uid req a d). }
  set (dep := Deposit.mk uid a Request.pending None).
  assert (deposits d1 !! id = Some dep) as Hdep.
  { rewrite Hd1. cbn. by apply list_lookup_middle. }
  assert (users d1 !! Deposit.user_id dep = Some u) as Hu1 by (by rewrite Hd1).
  assert (d2 = deposited2 now2 id dep u d1 /\
          outcome_of (AdminRequests.approve_deposit2 now2 id) [] d1 =
            Ok AdminRequests.DepositApproved) as [Hd2 Ho2].
  { unfold d2, db_after, outcome_of.
    by rewrite (approve_deposit2_ok now2 id dep u d1 Hdep eq_refl Hu1). }
  assert (deposits d2 !! id =
          Some (Deposit.mk uid a Request.completed (Some now2))) as Hdep2.
  { rewrite Hd2. cbn. apply list_lookup_insert_eq. by eapply lookup_lt_Some. }
  split; [rewrite Hd1; unfold balance_of; cbn; by rewrite Hu|].
  split; [exact Ho2|]. split; [|split; [|split]].
  - rewrite Hd2. unfold balance_of. cbn.
    rewrite list_lookup_insert_eq by (by eapply lookup_lt_Some). done.
  - intros x. rewrite Hd2.
    transitivity (unexplained x d1); [|by rewrite Hd1].
    eapply (paired_change_reconciles uid u a); eauto; reflexivity.
  - pose proof (approve_deposit2_completed now3 id _ d2 fs Hdep2 eq_refl) as H.
    unfold db_after, run.
    destruct (AdminRequests.approve_deposit2 now3 id (mkWorld d2 fs)) as [o w].
    cbn [fst snd]. by destruct H.
  - pose proof (approve_deposit2_completed now3 id _ d2 [] Hdep2 eq_refl) as H.
    unfold outcome_of, run.
    destruct (AdminRequests.approve_deposit2 now3 id (mkWorld d2 [])) as [o w].
    cbn [fst snd]. destruct H as [_ H]. by apply H.
Qed.

Lemma deposit_credited_once_witness :
  let d := Sample.account150 in
  let d1 := db_after (DepositRequest.deposit 1 0 Sample2.deposit_request) [] d in
  let d2 := db_after (AdminRequests.approve_deposit2 2 0) [] d1 in
  balance_of 0 d1 = Some 150 /\
  balance_of 0 d2 = Some 5150 /\
  db_after (AdminRequests.approve_deposit2 3 0) [] d2 = d2.
Proof.
  destruct (deposit_credited_once 1 2 3 0%nat (User.mk 150 None)
              Sample2.deposit_request 5000 Sample.account150 [])
    as (H1 & _ & H2 & _ & H3 & _);
    [reflexivity | reflexivity | lia | reflexivity | reflexivity | reflexivity |].
  repeat split; assumption.
Defined.

Lemma reject_deposit_ok now id dep u d :
  deposits d !! id = Some dep ->
  users d !! Deposit.user_id dep = Some u ->
  run (AdminRequests.reject_deposit now id) [] d =
    (Ok AdminRequests.DepositRejected, mkWorld (deposit_rejected now id dep d) []).
Proof.
  intros Hd Hu. unfold run, AdminRequests.reject_deposit, find_with_user,
    deposit_rejected. unfold_m. cbn. rewrite Hd. cbn. rewrite Hu, Hd. reflexivity.
Qed.

Lemma reject_deposit_frame now id d fs :
  let '(o, w) := AdminRequests.reject_deposit now id (mkWorld d fs) in
  users (db w) = users d /\ transactions (db w) = transactions d.
Proof.
  unfold AdminRequests.reject_deposit, find_with_user. unfold_m.
  destruct (deposits d !! id) as [dep|] eqn:Hd;
    [destruct (users d !! Deposit.user_id dep) as [u|] eqn:Hu|];
    destruct fs as [|[|] [|[|] [|[|] fs]]]; cbn; rewrite ?Hd; cbn;
    rewrite ?Hu, ?Hd; cbn; done.
Qed.

(** X4: rejecting a deposit never changes a balance or the ledger, whatever
    store calls fail, and it looks at no status.  So on a working store a
    deposit that was approved and then rejected can be approved again, and
    the owner is credited twice. *)
Theorem deposit_approve_reject_approve now1 now2 now3 id dep u d :
  deposits d !! id = Some dep ->
  Admin.is_completed (Deposit.status dep) = false ->
  users d !! Deposit.user_id dep = Some u ->
  (forall now fs,
     users (db_after (AdminRequests.reject_deposit now id) fs d) = users d /\
     transactions (db_after (AdminRequests.reject_deposit now id) fs d) =
       transactions d) /\
  let d1 := db_after (AdminRequests.approve_deposit2 now1 id) [] d in
  let d2 := db_after (AdminRequests.reject_deposit now2 id) [] d1 in
  let d3 := db_after (AdminRequests.approve_deposit2 now3 id) [] d2 in
  balance_of (Deposit.user_id dep) d1 =
    Some (User.saldo u + Deposit.amount dep) /\
  Deposit.status <$> deposits d2 !! id = Some Request.failed /\
  balance_of (Deposit.user_id dep) d2 =
    Some (User.saldo u + Deposit.amount dep) /\
  outcome_of (AdminRequests.approve_deposit2 now3 id) [] d2 =
    Ok AdminRequests.DepositApproved /\
  balance_of (Deposit.user_id dep) d3 =
    Some (User.saldo u + 2 * Deposit.amount dep).
Proof.
  intros Hd Hs Hu. split.
  { intros now fs. pose proof (reject_deposit_frame now id d fs) as H.
    unfold db_after, run.
    by destruct (AdminRequests.reject_deposit now id (mkWorld d fs)). }
  intros d1 d2 d3.
  assert (Hlt : (Deposit.user_id dep < length (users d))%nat)
    by (by eapply lookup_lt_Some).
  assert (Hlt' : (id < length (deposits d))%nat) by (by eapply lookup_lt_Some).
  assert (d1 = deposited2 now1 id dep u d) as Hd1.
  { unfold d1, db_after. by rewrite (approve_deposit2_ok now1 id dep u d). }
  set (dep1 := Deposit.mk (Deposit.user_id dep) (Deposit.amount dep)
                 Request.completed (Some now1)).
  set (u1 := User.mk (User.saldo u + Deposit.amount dep) (User.inviter_id u)).
  assert (deposits d1 !! id = Some dep1) as Hdep1
    by (rewrite Hd1; cbn; by apply list_lookup_insert_eq).
  assert (users d1 !! Deposit.user_id dep = Some u1) as Hu1
    by (rewrite Hd1; cbn; by apply list_lookup_insert_eq).
  assert (d2 = deposit_rejected now2 id dep1 d1) as Hd2.
  { unfold d2, db_after. by rewrite (reject_deposit_ok now2 id dep1 u1 d1). }
  set (dep2 := Deposit.mk (Deposit.user_id dep) (Deposit.amount dep)
                 Request.failed (Some now2)).
  assert (deposits d2 !! id = Some dep2) as Hdep2.
  { rewrite Hd2. cbn. apply list_lookup_insert_eq.
    rewrite Hd1. cbn. by rewrite length_insert. }
  assert (users d2 !! Deposit.user_id dep = Some u1) as Hu2
    by (rewrite Hd2; exact Hu1).
  assert (d3 = deposited2 now3 id dep2 u1 d2 /\
          outcome_of (AdminRequests.approve_deposit2 now3 id) [] d2 =
            Ok AdminRequests.DepositApproved) as [Hd3 Ho3].
  { unfold d3, db_after, outcome_of.
    by rewrite (approve_deposit2_ok now3 id dep2 u1 d2 Hdep2 eq_refl Hu2). }
  split; [unfold balance_of; by rewrite Hu1|].
  split; [by rewrite Hdep2|].
  split; [unfold balance_of; by rewrite Hu2|].
  split; [exact Ho3|].
  rewrite Hd3. unfold balance_of. cbn.
  rewrite list_lookup_insert_eq.
  - cbn. f_equal. lia.
  - rewrite Hd2, Hd1. cbn. by rewrite length_insert.
Qed.

Lemma deposit_approve_reject_approve_witness :
  let d1 := db_after (AdminRequests.approve_deposit2 1 0) [] Sample.requests in
  let d2 := db_after (AdminRequests.reject_deposit 2 0) [] d1 in
  let d3 := db_after (AdminRequests.approve_deposit2 3 0) [] d2 in
  balance_of 0 Sample.requests = Some 150 /\
  balance_of 0 d1 = Some 220 /\
  balance_of 0 d3 = Some 290.
Proof.
  destruct (deposit_approve_reject_approve 1 2 3 0%nat
              (Deposit.mk 0 70 Request.pending None) (User.mk 150 None)
              Sample.requests eq_refl eq_refl eq_refl)
    as (_ & H1 & _ & _ & _ & H3).
  split; [reflexivity|]. split; [exact H1 | exact H3].
Defined.

(** ** Withdrawals *)

Lemma approve_withdrawal_ok now id wd u d :
  withdrawals d !! id = Some wd ->
  users d !! Withdrawal.user_id wd = Some u ->
  run (AdminRequests.approve_withdrawal now id) [] d =
    (Ok AdminRequests.WithdrawalApproved,
     mkWorld (withdrawal_approved now id wd d) []).
Proof.
  intros Hd Hu. unfold run, AdminRequests.approve_withdrawal, find_with_user,
    withdrawal_approved. unfold_m. cbn. rewrite Hd. cbn. rewrite Hu, Hd.
  reflexivity.
Qed.

Lemma approve_withdrawal_frame now id d fs :
  let '(o, w) := AdminRequests.approve_withdrawal now id (mkWorld d fs) in
  users (db w) = users d /\ transactions (db w) = transactions d.
Proof.
  unfold AdminRequests.approve_withdrawal, find_with_user. unfold_m.
  destruct (withdrawals d !! id) as [wd|] eqn:Hd;
    [destruct (users d !! Withdrawal.user_id wd) as [u|] eqn:Hu|];
    destruct fs as [|[|] [|[|] [|[|] fs]]]; cbn; rewrite ?Hd; cbn;
    rewrite ?Hu, ?Hd; cbn; done.
Qed.

(** X5: approving a withdrawal never changes a balance or the ledger,
    whatever store calls fail, and neither approval nor rejection looks at
    the status of the request.  So on a working store a withdrawal that was
    rejected, and refunded, can still be approved: it ends completed while
    the owner keeps the refund; and one that was approved can still be
    rejected, which refunds it. *)
Theorem withdrawal_status_unchecked now1 now2 id wd u d :
  withdrawals d !! id = Some wd ->
  users d !! Withdrawal.user_id wd = Some u ->
  (forall now fs,
     users (db_after (AdminRequests.approve_withdrawal now id) fs d) = users d /\
     transactions (db_after (AdminRequests.approve_withdrawal now id) fs d) =
       transactions d) /\
  (let d1 := db_after (Admin.reject_withdrawal now1 id) [] d in
   let d2 := db_after (AdminRequests.approve_withdrawal now2 id) [] d1 in
   outcome_of (AdminRequests.approve_withdrawal now2 id) [] d1 =
     Ok AdminRequests.WithdrawalApproved /\
   Withdrawal.status <$> withdrawals d2 !! id = Some Request.completed /\
   balance_of (Withdrawal.user_id wd) d2 =
     Some (User.saldo u + Withdrawal.amount wd)) /\
  (let d1 := db_after (AdminRequests.approve_withdrawal now1 id) [] d in
   let d2 := db_after (Admin.reject_withdrawal now2 id) [] d1 in
   Withdrawal.status <$> withdrawals d1 !! id = Some Request.completed /\
   outcome_of (Admin.reject_withdrawal now2 id) [] d1 = Ok Admin.Rejected /\
   Withdrawal.status <$> withdrawals d2 !! id = Some Request.failed /\
   balance_of (Withdrawal.user_id wd) d2 =
     Some (User.saldo u + Withdrawal.amount wd)).
Proof.
  intros Hd Hu.
  assert (Hlt : (Withdrawal.user_id wd < length (users d))%nat)
    by (by eapply lookup_lt_Some).
  assert (Hlt' : (id < length (withdrawals d))%nat)
    by (by eapply lookup_lt_Some).
  split; [|split].
  - intros now fs. pose proof (approve_withdrawal_frame now id d fs) as H.
    unfold db_after, run.
    by destruct (AdminRequests.approve_withdrawal now id (mkWorld d fs)).
  - intros d1 d2.
    assert (d1 = refunded now1 id wd u d) as Hd1.
    { unfold d1, db_after. by rewrite (reject_withdrawal_ok now1 id wd u d). }
    set (wd1 := Withdrawal.mk (Withdrawal.user_id wd) (Withdrawal.amount wd)
                  Request.failed (Some now1)).
    set (u1 := User.mk (User.saldo u + Withdrawal.amount wd) (User.inviter_id u)).
    assert (withdrawals d1 !! id = Some wd1) as Hwd1
      by (rewrite Hd1; cbn; by apply list_lookup_insert_eq).
    assert (users d1 !! Withdrawal.user_id wd = Some u1) as Hu1
      by (rewrite Hd1; cbn; by apply list_lookup_insert_eq).
    unfold d2, db_after, outcome_of.
    rewrite (approve_withdrawal_ok now2 id wd1 u1 d1 Hwd1 Hu1). cbn.
    split; [done|]. split.
    + rewrite list_lookup_insert_eq; [done|].
      rewrite Hd1. cbn. by rewrite length_insert.
    + unfold balance_of. cbn. by rewrite Hu1.
  - intros d1 d2.
    assert (d1 = withdrawal_approved now1 id wd d) as Hd1.
    { unfold d1, db_after. by rewrite (approve_withdrawal_ok now1 id wd u d). }
    set (wd1 := Withdrawal.mk (Withdrawal.user_id wd) (Withdrawal.amount wd)
                  Request.completed (Some now1)).
    assert (withdrawals d1 !! id = Some wd1) as Hwd1
      by (rewrite Hd1; cbn; by apply list_lookup_insert_eq).
    assert (users d1 !! Withdrawal.user_id wd = Some u) as Hu1
      by (by rewrite Hd1).
    split; [by rewrite Hwd1|].
    unfold d2, db_after, outcome_of.
    rewrite (reject_withdrawal_ok now2 id wd1 u d1 Hwd1 Hu1). cbn.
    split; [done|]. split.
    + rewrite list_lookup_insert_eq; [done|].
      rewrite Hd1. cbn. by rewrite length_insert.
    + unfold balance_of. cbn. rewrite list_lookup_insert_eq; [done|].
      by rewrite Hd1.
Qed.

Lemma withdrawal_status_unchecked_witness :
  let d1 := db_after (Admin.reject_withdrawal 6 0) [] Sample.requests in
  let d2 := db_after (AdminRequests.approve_withdrawal 7 0) [] d1 in
  Withdrawal.status <$> withdrawals d2 !! 0%nat = Some Request.completed /\
  balance_of 0 d2 = Some 250.
Proof.
  destruct (withdrawal_status_unchecked 6 7 0%nat
              (Withdrawal.mk 0 100 Request.completed (Some 5))
              (User.mk 150 None) Sample.requests eq_refl eq_refl)
    as (_ & (_ & H1 & H2) & _).
  split; [exact H1 | exact H2].
Defined.

Lemma withdraw_ok now uid u a req d :
  users d !! uid = Some u ->
  WithdrawalRequest.amount req = Some a ->
  0 < a <= User.saldo u ->
  PurchaseWorkflow.falsy_str (WithdrawalRequest.account_name req) = false ->
  PurchaseWorkflow.falsy_str (WithdrawalRequest.iban req) = false ->
  PurchaseWorkflow.falsy_str (WithdrawalRequest.bank_name req) = false ->
  run (WithdrawalRequest.withdraw now uid req) [] d =
    (Ok (WithdrawalRequest.Requested (length (withdrawals d))
           (User.saldo u + - a)),
     mkWorld (withdrawn now uid a u d) []).
Proof.
  intros Hu Ha Hr Hn Hi Hb. unfold run, WithdrawalRequest.withdraw, withdrawn.
  unfold WithdrawalRequest.invalid_amount. rewrite Ha, Hn, Hi, Hb, or_default_zero.
  cbn [falsy orb].
  assert ((a =? 0) = false) as -> by (apply Z.eqb_neq; lia).
  assert ((a <=? 0) = false) as -> by (apply Z.leb_gt; lia).
  unfold_m. cbn. rewrite Hu. cbn.
  assert ((User.saldo u <? a) = false) as -> by (apply Z.ltb_ge; lia).
  cbn. rewrite Hu. reflexivity.
Qed.

(** X6: a well-formed withdrawal request that the balance covers is all or
    nothing, whatever store calls fail: either the balance is debited by the
    amount, one pending withdrawal and one [withdrawal] ledger row of the
    negated amount are written and the answer carries the new balance, or
    the store is as it was and the answer is the server error. *)
Theorem withdraw_all_or_nothing now uid u a req d fs :
  users d !! uid = Some u ->
  WithdrawalRequest.amount req = Some a ->
  0 < a <= User.saldo u ->
  PurchaseWorkflow.falsy_str (WithdrawalRequest.account_name req) = false ->
  PurchaseWorkflow.falsy_str (WithdrawalRequest.iban req) = false ->
  PurchaseWorkflow.falsy_str (WithdrawalRequest.bank_name req) = false ->
  let '(o, w) := WithdrawalRequest.withdraw now uid req (mkWorld d fs) in
  (o = Ok (WithdrawalRequest.Requested (length (withdrawals d))
             (User.saldo u - a)) /\
   db w = withdrawn now uid a u d) \/
  (o = Ok WithdrawalRequest.ServerError /\ db w = d).
Proof.
  intros Hu Ha Hr Hn Hi Hb. unfold WithdrawalRequest.withdraw, withdrawn.
  unfold WithdrawalRequest.invalid_amount. rewrite Ha, Hn, Hi, Hb, or_default_zero.
  cbn [falsy orb].
  assert ((a =? 0) = false) as -> by (apply Z.eqb_neq; lia).
  assert ((a <=? 0) = false) as -> by (apply Z.leb_gt; lia).
  assert ((User.saldo u <? a) = false) as Hlt by (apply Z.ltb_ge; lia).
  unfold_m.
  destruct fs as [|[|] [|[|] [|[|] [|[|] [|[|] fs]]]]]; cbn; rewrite ?Hu; cbn;
    rewrite ?Hlt; cbn; rewrite ?Hu; cbn; auto.
Qed.

Lemma withdraw_all_or_nothing_witness :
  let '(o, w) := WithdrawalRequest.withdraw 9 0 Sample2.withdraw_request
                   (mkWorld Sample.account150 [false; false; false; true]) in
  (o = Ok (WithdrawalRequest.Requested 0 (150 - 100)) /\
   db w = withdrawn 9 0 100 (User.mk 150 None) Sample.account150) \/
  (o = Ok WithdrawalRequest.ServerError /\ db w = Sample.account150).
Proof.
  apply (withdraw_all_or_nothing 9 0%nat (User.mk 150 None) 100
           Sample2.withdraw_request Sample.account150
           [false; false; false; true]);
    [reflexivity | reflexivity | cbn; lia | reflexivity | reflexivity
    | reflexivity].
Defined.

(** X7: on a working store a withdrawal request followed by its rejection
    gives the money back: the balance is the one before the request, the
    withdrawal is failed, the ledger holds the debit followed by a
    [withdrawal_refund] of the same amount, and balances and ledger
    reconcile as they did before. *)
Theorem withdraw_then_reject_restores now1 now2 uid u a req d :
  users d !! uid = Some u ->
  WithdrawalRequest.amount req = Some a ->
  0 < a <= User.saldo u ->
  PurchaseWorkflow.falsy_str (WithdrawalRequest.account_name req) = false ->
  PurchaseWorkflow.falsy_str (WithdrawalRequest.iban req) = false ->
  PurchaseWorkflow.falsy_str (WithdrawalRequest.bank_name req) = false ->
  let id := length (withdrawals d) in
  let d1 := db_after (WithdrawalRequest.withdraw now1 uid req) [] d in
  let d2 := db_after (Admin.reject_withdrawal now2 id) [] d1 in
  balance_of uid d1 = Some (User.saldo u - a) /\
  outcome_of (Admin.reject_withdrawal now2 id) [] d1 = Ok Admin.Rejected /\
  balance_of uid d2 = Some (User.saldo u) /\
  Withdrawal.status <$> withdrawals d2 !! id = Some Request.failed /\
  transactions d2 =
    transactions d ++
      [Transaction.mk uid TxType.withdrawal (- a) (User.saldo u - a) now1;
       Transaction.mk uid TxType.withdrawal_refund a (User.saldo u) now2] /\
  (forall x, unexplained x d2 = unexplained x d).
Proof.
  intros Hu Ha Hr Hn Hi Hb id d1 d2.
  assert (Hlt : (uid < length (users d))%nat) by (by eapply lookup_lt_Some).
  assert (d1 = withdrawn now1 uid a u d) as Hd1.
  { unfold d1, db_after. by rewrite (withdraw_ok now1 uid u a req d). }
  set (wd := Withdrawal.mk uid a Request.pending None).
  set (u1 := User.mk (User.saldo u + - a) (User.inviter_id u)).
  assert (withdrawals d1 !! id = Some wd) as Hwd
    by (rewrite Hd1; cbn; by apply list_lookup_middle).
  assert (users d1 !! uid = Some u1) as Hu1
    by (rewrite Hd1; cbn; by apply list_lookup_insert_eq).
  assert (d2 = refunded now2 id wd u1 d1) as Hd2.
  { unfold d2, db_after. by rewrite (reject_withdrawal_ok now2 id wd u1 d1). }
  split; [unfold balance_of; rewrite Hu1; cbn; f_equal; lia|].
  split; [unfold outcome_of; by rewrite (reject_withdrawal_ok now2 id wd u1 d1)|].
  split; [|split; [|split]].
  - rewrite Hd2. unfold balance_of. cbn.
    rewrite list_lookup_insert_eq by (rewrite Hd1; cbn; by rewrite length_insert).
    cbn. f_equal. lia.
  - rewrite Hd2. cbn. rewrite list_lookup_insert_eq; [done|].
    by eapply lookup_lt_Some.
  - rewrite Hd2, Hd1. cbn. rewrite <- app_assoc. cbn.
    replace (User.saldo u + - a) with (User.saldo u - a) by lia.
    replace (User.saldo u - a + a) with (User.saldo u) by lia. done.
  - intros x. rewrite Hd2.
    transitivity (unexplained x d1).
    + eapply (paired_change_reconciles uid u1 a); eauto; reflexivity.
    + rewrite Hd1.
      eapply (paired_change_reconciles uid u (- a)); eauto; reflexivity.
Qed.

Lemma withdraw_then_reject_restores_witness :
  let d1 := db_after (WithdrawalRequest.withdraw 1 0 Sample2.withdraw_request)
              [] Sample.account150 in
  let d2 := db_after (Admin.reject_withdrawal 2 0) [] d1 in
  balance_of 0 d1 = Some 50 /\ balance_of 0 d2 = Some 150.
Proof.
  destruct (withdraw_then_reject_restores 1 2 0%nat (User.mk 150 None) 100
              Sample2.withdraw_request Sample.account150)
    as (H1 & _ & H2 & _);
    [reflexivity | reflexivity | cbn; lia | reflexivity | reflexivity
    | reflexivity |].
  split; [exact H1 | exact H2].
Defined.

(** ** Purchases cancelled or added by the admin *)

Lemma cancel_purchase_ok now id q u d :
  purchases d !! id = Some q ->
  AdminPurchases.is_cancelled (Purchase.status q) = false ->
  users d !! Purchase.user_id q = Some u ->
  run (AdminPurchases.cancel_purchase now id) [] d =
    (Ok AdminPurchases.Cancelled, mkWorld (purchase_cancelled now id q u d) []).
Proof.
  intros Hq Hs Hu. unfold run, AdminPurchases.cancel_purchase,
    purchase_cancelled. unfold_m. cbn. rewrite Hq. cbn. rewrite Hs.
  destruct (AdminPurchases.is_active (Purchase.status q)); cbn;
    rewrite ?Hu; cbn; rewrite Hq; reflexivity.
Qed.

(** X8: cancelling a purchase is all or nothing, whatever store calls fail.
    A purchase that is not cancelled is either cancelled, with its expiry set
    to the time of the call, and then an active one refunds the full
    purchase amount to the owner with one [purchase_refund] ledger row while
    a completed one moves no money, or the store is as it was and the answer
    is the server error.  A cancelled purchase is never changed, and on a
    working store the answer says so. *)
Theorem cancel_purchase_all_or_nothing now id q u d fs :
  purchases d !! id = Some q ->
  users d !! Purchase.user_id q = Some u ->
  let '(o, w) := AdminPurchases.cancel_purchase now id (mkWorld d fs) in
  (AdminPurchases.is_cancelled (Purchase.status q) = false ->
   (o = Ok AdminPurchases.Cancelled /\
    db w = purchase_cancelled now id q u d) \/
   (o = Ok AdminPurchases.ServerError /\ db w = d)) /\
  (AdminPurchases.is_cancelled (Purchase.status q) = true ->
   db w = d /\ (fs = [] -> o = Ok AdminPurchases.AlreadyCancelled)).
Proof.
  intros Hq Hu. unfold AdminPurchases.cancel_purchase, purchase_cancelled.
  unfold_m.
  destruct (Purchase.status q) eqn:Hs; cbn;
    destruct fs as [|[|] [|[|] [|[|] [|[|] [|[|] fs]]]]]; cbn; rewrite ?Hq; cbn;
    rewrite ?Hs; cbn; rewrite ?Hu; cbn; rewrite ?Hq; cbn;
    (split; [intros Hc; try discriminate Hc; auto
            |intros Hc; try discriminate Hc; auto]).
  all: by split.
Qed.

Lemma cancel_purchase_all_or_nothing_witness :
  let d := Sample.db_with Sample.regular in
  let '(o, w) := AdminPurchases.cancel_purchase 9 0 (mkWorld d []) in
  (AdminPurchases.is_cancelled (Purchase.status Sample.regular) = false ->
   (o = Ok AdminPurchases.Cancelled /\
    db w = purchase_cancelled 9 0 Sample.regular (User.mk 1000 None) d) \/
   (o = Ok AdminPurchases.ServerError /\ db w = d)) /\
  (AdminPurchases.is_cancelled (Purchase.status Sample.regular) = true ->
   db w = d /\ (@nil bool = [] -> o = Ok AdminPurchases.AlreadyCancelled)).
Proof.
  exact (cancel_purchase_all_or_nothing 9 0%nat Sample.regular (User.mk 1000 None)
           (Sample.db_with Sample.regular) [] eq_refl eq_refl).
Defined.

Lemma inactive_never_due now p :
  AdminPurchases.is_active (Purchase.status p) = false ->
  PayoutEngine.due now p = false.
Proof. unfold PayoutEngine.due. by destruct (Purchase.status p). Qed.

Lemma inactive_row_step now fs d k p :
  purchases d !! k = Some p ->
  AdminPurchases.is_active (Purchase.status p) = false ->
  purchases (db_after (PayoutEngine.process_daily_payouts now) fs d) !! k =
    Some p.
Proof.
  intros Hk Hs.
  destruct (run_settles_once now d fs k p Hk) as [H|[Hdue _]]; [done|].
  by rewrite (inactive_never_due now p Hs) in Hdue.
Qed.

(** X9: the Payout Engine only ever touches active purchases.  A purchase
    that is completed or cancelled keeps its row, field for field, through
    any number of engine runs at any clock readings and under any store
    failures. *)
Theorem engine_keeps_inactive_purchases runs d k p :
  purchases d !! k = Some p ->
  AdminPurchases.is_active (Purchase.status p) = false ->
  purchases (after_runs d runs) !! k = Some p.
Proof.
  revert d. induction runs as [|[now fs] runs IH]; intros d Hk Hs; [done|].
  cbn [after_runs fold_left fst snd]. apply IH; [|done].
  by apply inactive_row_step.
Qed.

Lemma engine_keeps_inactive_purchases_witness :
  let p := AdminPurchases.cancel 5 Sample.regular in
  purchases (after_runs (Sample.db_with p)
                        [(DAY_MS, []); (2 * DAY_MS, [true]); (3 * DAY_MS, [])])
    !! 0%nat = Some p.
Proof.
  exact (engine_keeps_inactive_purchases
           [(DAY_MS, []); (2 * DAY_MS, [true]); (3 * DAY_MS, [])]
           (Sample.db_with (AdminPurchases.cancel 5 Sample.regular)) 0%nat
           (AdminPurchases.cancel 5 Sample.regular) eq_refl eq_refl).
Defined.

(** X10: cancelling an active purchase on a working store ends it.  The
    owner gets the full purchase amount back, whatever the purchase has
    already earned, and balances and ledger reconcile as before; the row is
    cancelled and expires at the time of the call; no later engine run, under
    any store failures, changes the row; and a second cancellation, under any
    store failures, changes nothing, so the refund is paid once. *)
Theorem cancel_ends_purchase now id q u d :
  purchases d !! id = Some q ->
  Purchase.status q = active ->
  users d !! Purchase.user_id q = Some u ->
  let d1 := db_after (AdminPurchases.cancel_purchase now id) [] d in
  outcome_of (AdminPurchases.cancel_purchase now id) [] d =
    Ok AdminPurchases.Cancelled /\
  balance_of (Purchase.user_id q) d1 = Some (User.saldo u + Purchase.amount q) /\
  (forall x, unexplained x d1 = unexplained x d) /\
  purchases d1 !! id = Some (AdminPurchases.cancel now q) /\
  (forall runs,
     purchases (after_runs d1 runs) !! id = Some (AdminPurchases.cancel now q)) /\
  (forall now' fs,
     db_after (AdminPurchases.cancel_purchase now' id) fs d1 = d1).
Proof.
  intros Hq Hs Hu d1.
  assert (Hlt : (Purchase.user_id q < length (users d))%nat)
    by (by eapply lookup_lt_Some).
  assert (Hlt' : (id < length (purchases d))%nat) by (by eapply lookup_lt_Some).
  assert (AdminPurchases.is_cancelled (Purchase.status q) = false) as Hc
    by (by rewrite Hs).
  assert (d1 = purchase_cancelled now id q u d) as Hd1.
  { unfold d1, db_after. by rewrite (cancel_purchase_ok now id q u d). }
  assert (purchases d1 !! id = Some (AdminPurchases.cancel now q)) as Hrow.
  { rewrite Hd1. unfold purchase_cancelled. rewrite Hs. cbn.
    by apply list_lookup_insert_eq. }
  split; [unfold outcome_of; by rewrite (cancel_purchase_ok now id q u d)|].
  split; [|split; [|split; [|split]]].
  - rewrite Hd1. unfold purchase_cancelled, balance_of. rewrite Hs. cbn.
    by rewrite list_lookup_insert_eq.
  - rewrite Hd1. unfold purchase_cancelled. rewrite Hs. cbn [AdminPurchases.is_active].
    eapply (paired_change_reconciles (Purchase.user_id q) u (Purchase.amount q));
      eauto; reflexivity.
  - exact Hrow.
  - intros runs. revert Hrow. generalize d1.
    induction runs as [|[t fs] runs IH]; intros d0 Hrow; [done|].
    cbn [after_runs fold_left fst snd]. apply IH.
    by apply inactive_row_step.
  - intros now' fs. unfold db_after, run, AdminPurchases.cancel_purchase.
    unfold_m. destruct fs as [|[|] fs]; cbn; rewrite ?Hrow; reflexivity.
Qed.

Lemma cancel_ends_purchase_witness :
  let d := Sample.db_with Sample.regular in
  let d1 := db_after (AdminPurchases.cancel_purchase 9 0) [] d in
  balance_of 0 d1 = Some 1500 /\
  db_after (AdminPurchases.cancel_purchase 10 0) [] d1 = d1.
Proof.
  destruct (cancel_ends_purchase 9 0%nat Sample.regular (User.mk 1000 None)
              (Sample.db_with Sample.regular) eq_refl eq_refl eq_refl)
    as (_ & H1 & _ & _ & _ & H2).
  split; [exact H1 | exact (H2 10 [])].
Defined.

(** X11: adding a product to an account charges nothing: whatever store
    calls fail, no balance and no ledger row changes.  The two writes are not
    one unit: the call either writes the purchase row and the log and answers
    with the new purchase, or writes nothing and answers the server error, or
    writes the purchase row alone and still answers the server error, which
    is what happens when the log write fails.  The row is the one the
    purchase route creates from the same fields. *)
Theorem add_product_effects now id req u a d fs :
  users d !! id = Some u ->
  AdminPurchases.amount req = Some a ->
  a <> 0 ->
  PurchaseWorkflow.falsy_str (AdminPurchases.product_name req) = false ->
  let row := PurchaseWorkflow.new_purchase now id a
               (AdminPurchases.as_purchase req) in
  let '(o, w) := AdminPurchases.add_product now id req (mkWorld d fs) in
  users (db w) = users d /\
  transactions (db w) = transactions d /\
  ((o = Ok (AdminPurchases.Added (length (purchases d))) /\
    db w = product_added now id a req d) \/
   (o = Ok AdminPurchases.ServerError /\ db w = d) \/
   (o = Ok AdminPurchases.ServerError /\
    db w = set_purchases (purchases d ++ [row]) d)) /\
  (fs = [] -> o = Ok (AdminPurchases.Added (length (purchases d)))) /\
  (fs = [false; false; true] ->
   o = Ok AdminPurchases.ServerError /\
   purchases (db w) = purchases d ++ [row]).
Proof.
  intros Hu Ha Hnz Hn row. unfold AdminPurchases.add_product, product_added.
  rewrite Ha, Hn, or_default_zero. cbn [falsy orb].
  assert ((a =? 0) = false) as -> by (by apply Z.eqb_neq).
  unfold_m.
  destruct fs as [|[|] [|[|] [|[|] fs]]]; cbn; rewrite ?Hu; cbn;
    (split; [done|]); (split; [done|]); (split; [auto|]); by split.
Qed.

Lemma add_product_effects_witness :
  let req := AdminPurchases.mkProductRequest (Some "gift"%string) (Some 500)
               None None None in
  let '(o, w) := AdminPurchases.add_product 0 0 req
                   (mkWorld Sample.account150 [false; false; true]) in
  o = Ok AdminPurchases.ServerError /\
  balance_of 0 (db w) = Some 150 /\
  length (purchases (db w)) = 1%nat.
Proof.
  pose proof (add_product_effects 0 0%nat
                (AdminPurchases.mkProductRequest (Some "gift"%string) (Some 500)
                   None None None)
                (User.mk 150 None) 500 Sample.account150 [false; false; true]
                eq_refl eq_refl) as H.
  cbv zeta in *.
  destruct (AdminPurchases.add_product 0 0 _ _) as [o w].
  destruct H as (Hus & _ & _ & _ & Hlast); [lia | reflexivity |].
  destruct (Hlast eq_refl) as [Ho Hp].
  split; [exact Ho|]. unfold balance_of. rewrite Hus, Hp. by split.
Defined.

(** ** Balance adjustments by the admin *)

(** X12: setting a balance is all or nothing, whatever store calls fail: a
    new balance that is not negative either becomes the balance, with one
    ledger row holding the difference to the old balance, typed
    [admin_addition] when the difference is not negative and
    [admin_deduction] otherwise, or the store is as it was and the answer is
    the server error.  Either way balances and ledger reconcile as before.
    A negative or missing new balance is refused without a store call. *)
Theorem set_balance_all_or_nothing now id u v d fs :
  users d !! id = Some u ->
  (0 <= v ->
   let '(o, w) := Admin.set_balance now id (Some v) (mkWorld d fs) in
   ((o = Ok (Admin.Adjusted (User.saldo u) v) /\
     db w = balance_set now id v u d) \/
    (o = Ok Admin.ServerError /\ db w = d)) /\
   (fs = [] -> o = Ok (Admin.Adjusted (User.saldo u) v)) /\
   (forall x, unexplained x (db w) = unexplained x d)) /\
  (v < 0 ->
   Admin.set_balance now id (Some v) (mkWorld d fs) =
     (Ok Admin.MustBeNonNegative, mkWorld d fs)) /\
  Admin.set_balance now id None (mkWorld d fs) =
    (Ok Admin.MustBeNonNegative, mkWorld d fs).
Proof.
  intros Hu. split; [|split; [|reflexivity]].
  - intros Hv.
    assert (forall x, unexplained x (balance_set now id v u d) = unexplained x d)
      as Hrec.
    { intros x.
      eapply (paired_change_reconciles id u (v - User.saldo u)); eauto;
        try reflexivity.
      cbn. do 2 f_equal. lia. }
    unfold Admin.set_balance.
    assert ((v <? 0) = false) as -> by (apply Z.ltb_ge; lia).
    unfold balance_set in *. unfold_m.
    destruct fs as [|[|] [|[|] [|[|] [|[|] fs]]]]; cbn; rewrite ?Hu; cbn;
      rewrite ?Hu; cbn;
      (split; [auto|]); (split; [done|]); try done; apply Hrec.
  - intros Hv. unfold Admin.set_balance.
    by assert ((v <? 0) = true) as -> by (apply Z.ltb_lt; lia).
Qed.

Lemma set_balance_all_or_nothing_witness :
  let '(o, w) := Admin.set_balance 3 0 (Some 40) (mkWorld Sample.account150 []) in
  o = Ok (Admin.Adjusted 150 40) /\
  transactions (db w) =
    [Transaction.mk 0 TxType.admin_deduction (-110) 40 3].
Proof.
  destruct (set_balance_all_or_nothing 3 0%nat (User.mk 150 None) 40
              Sample.account150 [] eq_refl) as (H & _).
  assert (0 <= 40) as Hv by lia. specialize (H Hv).
  destruct (Admin.set_balance 3 0 (Some 40) (mkWorld Sample.account150 []))
    as [o w].
  destruct H as ([[Ho Hw]|[Ho Hw]] & Hfree & _).
  - split; [exact Ho|]. rewrite Hw. reflexivity.
  - specialize (Hfree eq_refl). rewrite Hfree in Ho. discriminate Ho.
Defined.




(** X14: the two routes that set a balance disagree on zero.  On a working
    store the single-account route sets the balance of an existing account
    to 0, while the bulk route refuses a [set] operation with amount 0 as
    invalid data and leaves every balance and the ledger as they were. *)
Theorem bulk_cannot_set_zero now uid u d :
  users d !! uid = Some u ->
  let op := Admin.mkOperation (Some uid) (Some Admin.set) (Some 0) in
  outcome_of (Admin.set_balance now uid (Some 0)) [] d =
    Ok (Admin.Adjusted (User.saldo u) 0) /\
  balance_of uid (db_after (Admin.set_balance now uid (Some 0)) [] d) = Some 0 /\
  outcome_of (Admin.bulk_balance now [op]) [] d =
    Ok (Admin.BulkDone (Admin.mkBulkAcc [] [(Some uid, Admin.InvalidData)])) /\
  users (db_after (Admin.bulk_balance now [op]) [] d) = users d /\
  transactions (db_after (Admin.bulk_balance now [op]) [] d) = transactions d.
Proof.
  intros Hu op.
  assert (Hlt : (uid < length (users d))%nat) by (by eapply lookup_lt_Some).
  unfold Admin.set_balance, Admin.bulk_balance, for_of, Admin.bulk_item, op.
  unfold_m. cbn. rewrite Hu. cbn. rewrite Hu. cbn.
  unfold balance_of. cbn. rewrite list_lookup_insert_eq by done. done.
Qed.

Lemma bulk_cannot_set_zero_witness :
  let op := Admin.mkOperation (Some 0%nat) (Some Admin.set) (Some 0) in
  balance_of 0 (db_after (Admin.set_balance 1 0 (Some 0)) [] Sample.account150)
    = Some 0 /\
  users (db_after (Admin.bulk_balance 1 [op]) [] Sample.account150) =
    users Sample.account150.
Proof.
  destruct (bulk_cannot_set_zero 1 0%nat (User.mk 150 None) Sample.account150
              eq_refl) as (_ & H1 & _ & H2 & _).
  split; [exact H1 | exact H2].
Defined.

(** ** Daily check-in *)

Lemma own_checkin_counts now now' uid a n :
  CheckIn.today now' = CheckIn.today now ->
  CheckIn.checked_in_today now' uid (DailyCheckin.mk uid now a n) = true.
Proof.
  intros Hday. unfold CheckIn.checked_in_today. rewrite Hday. cbn.
  rewrite Nat.eqb_refl. unfold CheckIn.today.
  assert (0 <= now mod DAY_MS < DAY_MS) by (apply Z.mod_pos_bound; reflexivity).
  apply andb_true_iff. split; [apply Z.leb_le | apply Z.ltb_lt]; lia.
Qed.

(** X15: the daily check-in on a working store, for an account that has not
    checked in today: it adds 10 to the balance, records the check-in and
    writes no ledger row.  A second check-in later the same day is refused
    and changes nothing, whatever store calls fail.  The two writes are not
    one unit: when the balance update fails the check-in is recorded all the
    same, the answer is the server error, the balance is unchanged, and a
    retry on the same day is refused, so the 10 are lost for that day. *)
Theorem checkin_once_a_day now now' uid u d :
  users d !! uid = Some u ->
  List.filter (CheckIn.checked_in_today now uid) (dailyCheckins d) = [] ->
  CheckIn.today now' = CheckIn.today now ->
  let d1 := db_after (CheckIn.checkin now uid) [] d in
  let d2 := db_after (CheckIn.checkin now uid) [false; false; true] d in
  outcome_of (CheckIn.checkin now uid) [] d =
    Ok (CheckIn.CheckedIn (User.saldo u + 10)) /\
  balance_of uid d1 = Some (User.saldo u + 10) /\
  transactions d1 = transactions d /\
  (forall fs, db_after (CheckIn.checkin now' uid) fs d1 = d1) /\
  outcome_of (CheckIn.checkin now' uid) [] d1 = Ok CheckIn.AlreadyCheckedIn /\
  outcome_of (CheckIn.checkin now uid) [false; false; true] d =
    Ok CheckIn.ServerError /\
  users d2 = users d /\
  outcome_of (CheckIn.checkin now' uid) [] d2 = Ok CheckIn.AlreadyCheckedIn.
Proof.
  intros Hu Hnone Hday d1 d2.
  assert (Hlt : (uid < length (users d))%nat) by (by eapply lookup_lt_Some).
  set (c := DailyCheckin.mk uid now 10 (CheckIn.today now + DAY_MS)).
  assert (exists c', head (List.filter (CheckIn.checked_in_today now' uid)
                             (dailyCheckins d ++ [c])) = Some c') as [c' Hhead].
  { rewrite List.filter_app. cbn.
    unfold c. rewrite (own_checkin_counts now now' uid _ _ Hday).
    destruct (List.filter (CheckIn.checked_in_today now' uid) (dailyCheckins d));
      cbn; eauto. }
  assert (d1 = set_users (<[uid := User.credit 10 u]> (users d))
                 (set_dailyCheckins (dailyCheckins d ++ [c]) d)) as Hd1.
  { unfold d1, CheckIn.checkin. unfold_m. cbn. rewrite Hnone. cbn.
    by rewrite Hu. }
  assert (d2 = set_dailyCheckins (dailyCheckins d ++ [c]) d) as Hd2.
  { unfold d2, CheckIn.checkin. unfold_m. cbn. by rewrite Hnone. }
  split; [|split; [|split; [|split; [|split; [|split; [|split]]]]]].
  - unfold CheckIn.checkin. unfold_m. cbn. rewrite Hnone. cbn. by rewrite Hu.
  - rewrite Hd1. unfold balance_of. cbn. by rewrite list_lookup_insert_eq.
  - by rewrite Hd1.
  - intros fs. unfold CheckIn.checkin. unfold_m.
    destruct fs as [|[|] fs]; cbn; try done; rewrite Hd1; cbn; by rewrite Hhead.
  - unfold CheckIn.checkin. unfold_m. cbn. rewrite Hd1. cbn. by rewrite Hhead.
  - unfold CheckIn.checkin. unfold_m. cbn. by rewrite Hnone.
  - by rewrite Hd2.
  - unfold CheckIn.checkin. unfold_m. cbn. rewrite Hd2. cbn. by rewrite Hhead.
Qed.

Lemma checkin_once_a_day_witness :
  let d2 := db_after (CheckIn.checkin 7 0) [false; false; true]
              Sample.account150 in
  balance_of 0 (db_after (CheckIn.checkin 7 0) [] Sample.account150) =
    Some 160 /\
  users d2 = users Sample.account150 /\
  outcome_of (CheckIn.checkin 8 0) [] d2 = Ok CheckIn.AlreadyCheckedIn.
Proof.
  destruct (checkin_once_a_day 7 8 0%nat (User.mk 150 None) Sample.account150
              eq_refl eq_refl eq_refl) as (_ & H1 & _ & _ & _ & _ & H2 & H3).
  repeat split; assumption.
Defined.

(** ** Adding to and deducting from a balance *)

Lemma add_balance_ok now id u a d :
  users d !! id = Some u ->
  0 < a ->
  run (Admin.add_balance now id (Some a)) [] d =
    (Ok (Admin.Adjusted (User.saldo u) (User.saldo u + a)),
     mkWorld (balance_adjusted now id a TxType.admin_addition
                ADMIN_BALANCE_ADD u d) []).
Proof.
  intros Hu Ha. unfold run, Admin.add_balance, Admin.invalid_amount,
    balance_adjusted.
  rewrite or_default_zero. cbn [falsy].
  assert ((a =? 0) = false) as -> by (apply Z.eqb_neq; lia).
  assert ((a <=? 0) = false) as -> by (apply Z.leb_gt; lia).
  cbn [orb]. unfold_m. cbn. rewrite Hu. cbn. rewrite Hu. cbn.
  rewrite list_lookup_insert_eq by (by eapply lookup_lt_Some). reflexivity.
Qed.

Lemma deduct_balance_ok now id u a d :
  users d !! id = Some u ->
  0 < a <= User.saldo u ->
  run (Admin.deduct_balance now id (Some a)) [] d =
    (Ok (Admin.Adjusted (User.saldo u) (User.saldo u + - a)),
     mkWorld (balance_adjusted now id (- a) TxType.admin_deduction
                ADMIN_BALANCE_DEDUCT u d) []).
Proof.
  intros Hu Ha. unfold run, Admin.deduct_balance, Admin.invalid_amount,
    balance_adjusted.
  rewrite or_default_zero. cbn [falsy].
  assert ((a =? 0) = false) as -> by (apply Z.eqb_neq; lia).
  assert ((a <=? 0) = false) as -> by (apply Z.leb_gt; lia).
  cbn [orb]. unfold_m. cbn. rewrite Hu. cbn.
  assert ((User.saldo u <? a) = false) as -> by (apply Z.ltb_ge; lia).
  cbn. rewrite Hu. cbn.
  rewrite list_lookup_insert_eq by (by eapply lookup_lt_Some). reflexivity.
Qed.

(** X16: on a working store, adding an amount to an account whose balance is
    not negative and then deducting the same amount is always accepted and
    gives the balance back: the answers report the balances before and
    after, the ledger gains an [admin_addition] of the amount followed by an
    [admin_deduction] of its negation, and balances and ledger reconcile as
    before. *)
Theorem add_then_deduct_restores now1 now2 id u a d :
  users d !! id = Some u ->
  0 < a ->
  0 <= User.saldo u ->
  let d1 := db_after (Admin.add_balance now1 id (Some a)) [] d in
  let d2 := db_after (Admin.deduct_balance now2 id (Some a)) [] d1 in
  outcome_of (Admin.add_balance now1 id (Some a)) [] d =
    Ok (Admin.Adjusted (User.saldo u) (User.saldo u + a)) /\
  outcome_of (Admin.deduct_balance now2 id (Some a)) [] d1 =
    Ok (Admin.Adjusted (User.saldo u + a) (User.saldo u)) /\
  balance_of id d2 = Some (User.saldo u) /\
  transactions d2 =
    transactions d ++
      [Transaction.mk id TxType.admin_addition a (User.saldo u + a) now1;
       Transaction.mk id TxType.admin_deduction (- a) (User.saldo u) now2] /\
  (forall x, unexplained x d2 = unexplained x d).
Proof.
  intros Hu Ha Hs d1 d2.
  assert (Hlt : (id < length (users d))%nat) by (by eapply lookup_lt_Some).
  set (u1 := User.mk (User.saldo u + a) (User.inviter_id u)).
  assert (d1 = balance_adjusted now1 id a TxType.admin_addition
                 ADMIN_BALANCE_ADD u d) as Hd1.
  { unfold d1, db_after. by rewrite (add_balance_ok now1 id u a d). }
  assert (users d1 !! id = Some u1) as Hu1
    by (rewrite Hd1; cbn; by apply list_lookup_insert_eq).
  assert (0 < a <= User.saldo u1) as Ha1 by (cbn; lia).
  assert (d2 = balance_adjusted now2 id (- a) TxType.admin_deduction
                 ADMIN_BALANCE_DEDUCT u1 d1) as Hd2.
  { unfold d2, db_after. by rewrite (deduct_balance_ok now2 id u1 a d1). }
  assert (User.saldo u + a + - a = User.saldo u) as Heq by lia.
  split; [unfold outcome_of; by rewrite (add_balance_ok now1 id u a d)|].
  split.
  { unfold outcome_of. rewrite (deduct_balance_ok now2 id u1 a d1 Hu1 Ha1).
    cbn. by rewrite Heq. }
  split; [|split].
  - rewrite Hd2. unfold balance_of. cbn.
    rewrite list_lookup_insert_eq by (rewrite Hd1; cbn; by rewrite length_insert).
    cbn. by rewrite Heq.
  - rewrite Hd2, Hd1. cbn. rewrite <- app_assoc. cbn. by rewrite Heq.
  - intros x. rewrite Hd2.
    transitivity (unexplained x d1).
    + eapply (paired_change_reconciles id u1 (- a)); eauto; reflexivity.
    + rewrite Hd1. eapply (paired_change_reconciles id u a); eauto; reflexivity.
Qed.

Lemma add_then_deduct_restores_witness :
  let d1 := db_after (Admin.add_balance 1 0 (Some 25)) [] Sample.account150 in
  let d2 := db_after (Admin.deduct_balance 2 0 (Some 25)) [] d1 in
  balance_of 0 d2 = Some 150.
Proof.
  destruct (add_then_deduct_restores 1 2 0%nat (User.mk 150 None) 25
              Sample.account150 eq_refl) as (_ & _ & H & _);
    [lia | cbn; lia | exact H].
Defined.

(** ** What the Payout Engine pays *)

Lemma total_balance_credit l : forall i u delta,
  l !! i = Some u ->
  foldr (fun u s => User.saldo u + s) 0
        (<[i := User.mk (User.saldo u + delta) (User.inviter_id u)]> l) =
  foldr (fun u s => User.saldo u + s) 0 l + delta.
Proof.
  induction l as [|x l IH]; intros [|i] u delta H; try done.
  - injection H as ->. cbn. lia.
  - change (foldr (fun u s => User.saldo u + s) 0
              (x :: <[i := User.mk (User.saldo u + delta) (User.inviter_id u)]> l) =
            foldr (fun u s => User.saldo u + s) 0 (x :: l) + delta).
    cbn [foldr]. rewrite (IH i u delta H). lia.
Qed.

Lemma auto_payouts_snoc txs t :
  Views.is_auto_payout t = true ->
  foldr (fun t s => Transaction.amount t + s) 0
        (List.filter Views.is_auto_payout (txs ++ [t])) =
  foldr (fun t s => Transaction.amount t + s) 0
        (List.filter Views.is_auto_payout txs) + Transaction.amount t /\
  length (List.filter Views.is_auto_payout (txs ++ [t])) =
  S (length (List.filter Views.is_auto_payout txs)).
Proof.
  intros Ht. rewrite List.filter_app. cbn. rewrite Ht. split.
  - rewrite foldr_app. cbn.
    generalize (List.filter Views.is_auto_payout txs).
    induction l as [|x l IH]; cbn; [lia|]. rewrite IH. lia.
  - rewrite length_app. cbn. lia.
Qed.

Lemma findDue_run now d fs :
  PayoutEngine.findDue now (mkWorld d fs) =
  match fs with
  | true :: fs' => (Throw StoreFailure, mkWorld d fs')
  | false :: fs' => (Ok (PayoutEngine.duePurchases now d), mkWorld d fs')
  | [] => (Ok (PayoutEngine.duePurchases now d), mkWorld d [])
  end.
Proof. by destruct fs as [|[|] fs]. Qed.

Lemma payout_one_cases now id p u0 acc d fs :
  exists acc' w',
    PayoutEngine.payout_one now (id, p, u0) acc (mkWorld d fs) = (Ok acc', w') /\
    (length (PayoutEngine.results acc') + length (PayoutEngine.errors acc') =
     S (length (PayoutEngine.results acc) + length (PayoutEngine.errors acc)))%nat /\
    ((users (db w') = users d /\ transactions (db w') = transactions d /\
      PayoutEngine.processedCount acc' = PayoutEngine.processedCount acc /\
      PayoutEngine.totalAmount acc' = PayoutEngine.totalAmount acc) \/
     (exists u,
        users d !! Purchase.user_id p = Some u /\
        users (db w') =
          <[Purchase.user_id p :=
              User.mk (User.saldo u + PayoutEngine.dailyReturn p)
                      (User.inviter_id u)]> (users d) /\
        transactions (db w') =
          transactions d ++
            [Transaction.mk (Purchase.user_id p) TxType.daily_payout_auto
               (PayoutEngine.dailyReturn p)
               (User.saldo u + PayoutEngine.dailyReturn p) now] /\
        PayoutEngine.processedCount acc' = PayoutEngine.processedCount acc + 1 /\
        PayoutEngine.totalAmount acc' =
          PayoutEngine.totalAmount acc + PayoutEngine.dailyReturn p)).
Proof.
  unfold PayoutEngine.payout_one, PayoutEngine.credit_unit.
  destruct u0 as [u0|];
    [|unfold_m; cbn; eexists _, _; split; [reflexivity|]; cbn;
      rewrite ?length_app; cbn; split; [lia|by left]].
  destruct (PayoutEngine.remainingDays now p <=? 0); unfold_m;
    destruct (users d !! Purchase.user_id p) as [u|] eqn:Hu;
    destruct (purchases d !! id) as [q|] eqn:Hq;
    destruct fs as [|[|] [|[|] [|[|] [|[|] fs]]]]; cbn; rewrite ?Hu, ?Hq; cbn;
    rewrite ?Hu, ?Hq; cbn;
    eexists _, _; (split; [reflexivity|]); cbn; rewrite ?length_app; cbn;
    (split; [lia|]); first [by left | right; exists u; by repeat split].
Qed.

Lemma payout_loop_accounting now rows : forall acc d fs,
  exists acc' w',
    for_of rows (PayoutEngine.payout_one now) acc (mkWorld d fs) = (Ok acc', w') /\
    Views.total_balance (db w') - Views.total_balance d =
      PayoutEngine.totalAmount acc' - PayoutEngine.totalAmount acc /\
    Views.total_amount (db w') - Views.total_amount d =
      PayoutEngine.totalAmount acc' - PayoutEngine.totalAmount acc /\
    Z.of_nat (Views.total_payouts (db w')) - Z.of_nat (Views.total_payouts d) =
      PayoutEngine.processedCount acc' - PayoutEngine.processedCount acc /\
    (forall x, unexplained x (db w') = unexplained x d) /\
    (length (PayoutEngine.results acc') + length (PayoutEngine.errors acc') =
     length rows +
       (length (PayoutEngine.results acc) + length (PayoutEngine.errors acc)))%nat.
Proof.
  induction rows as [|[[id p] u0] rows IH]; intros acc d fs.
  - exists acc, (mkWorld d fs). cbn. repeat split; lia.
  - destruct (payout_one_cases now id p u0 acc d fs)
      as (acc1 & [d1 fs1] & H1 & Hn1 & Hcase).
    destruct (IH acc1 d1 fs1) as (acc2 & w2 & H2 & Hb & Ha & Hc & Hx & Hn2).
    exists acc2, w2. rewrite for_of_cons, H1. split; [exact H2|].
    cbn [db] in Hcase.
    assert (Views.total_balance d1 - Views.total_balance d =
              PayoutEngine.totalAmount acc1 - PayoutEngine.totalAmount acc /\
            Views.total_amount d1 - Views.total_amount d =
              PayoutEngine.totalAmount acc1 - PayoutEngine.totalAmount acc /\
            Z.of_nat (Views.total_payouts d1) - Z.of_nat (Views.total_payouts d) =
              PayoutEngine.processedCount acc1 - PayoutEngine.processedCount acc /\
            (forall x, unexplained x d1 = unexplained x d))
      as (Hb1 & Ha1 & Hc1 & Hx1).
    { unfold Views.total_balance, Views.total_amount, Views.total_payouts.
      destruct Hcase as [(Hus & Htx & Hpc & Hta)|(u & Hu & Hus & Htx & Hpc & Hta)].
      - unfold unexplained, balance_of.
        rewrite Hus, Htx, Hpc, Hta. repeat split; lia.
      - split; [rewrite Hus, (total_balance_credit _ _ _ _ Hu); lia|].
        destruct (auto_payouts_snoc (transactions d)
                    (Transaction.mk (Purchase.user_id p) TxType.daily_payout_auto
                       (PayoutEngine.dailyReturn p)
                       (User.saldo u + PayoutEngine.dailyReturn p) now) eq_refl)
          as [Hsum Hlen].
        rewrite Htx, Hsum, Hlen. cbn [Transaction.amount].
        split; [lia|]. split; [lia|].
        intros x.
        apply (paired_change_reconciles (Purchase.user_id p) u
                 (PayoutEngine.dailyReturn p) _ d d1 Hu Hus Htx eq_refl eq_refl). }
    split; [lia|]. split; [lia|]. split; [lia|].
    split; [intros x; by rewrite Hx, Hx1|]. cbn [length]. lia.
Qed.

(** X17: the books of a run of the Payout Engine balance, whatever the store
    holds and whatever store calls fail.  The sum of all balances grows by
    exactly what the sum of the [daily_payout_auto] ledger amounts grows by,
    and for every account the balance less its ledger amounts is what it was
    before.  When the run answers with its summary, the summary's total
    amount is that growth, its processed count is the number of
    [daily_payout_auto] rows written, and its results and errors together
    have one entry for every purchase that was due. *)
Theorem engine_books_balance now d fs :
  let '(o, w) := PayoutEngine.process_daily_payouts now (mkWorld d fs) in
  Views.total_balance (db w) - Views.total_balance d =
    Views.total_amount (db w) - Views.total_amount d /\
  (forall x, unexplained x (db w) = unexplained x d) /\
  (forall acc,
     o = Ok (PayoutEngine.Processed acc) ->
     PayoutEngine.totalAmount acc =
       Views.total_amount (db w) - Views.total_amount d /\
     PayoutEngine.processedCount acc =
       Z.of_nat (Views.total_payouts (db w)) - Z.of_nat (Views.total_payouts d) /\
     (length (PayoutEngine.results acc) + length (PayoutEngine.errors acc) =
      Views.pending_today now d)%nat).
Proof.
  assert (length (PayoutEngine.duePurchases now d) = Views.pending_today now d)
    as Hpend by (unfold PayoutEngine.duePurchases, Views.pending_today;
                 by rewrite length_map).
  unfold PayoutEngine.process_daily_payouts.
  unfold try_catch at 1, bind at 1. rewrite findDue_run.
  assert (forall fs0,
    let '(o, w) :=
      (let (o, w') :=
         (if (length (PayoutEngine.duePurchases now d) =? 0)%nat
          then ret PayoutEngine.NothingToProcess
          else
            let* acc := for_of (PayoutEngine.duePurchases now d)
                          (PayoutEngine.payout_one now)
                          (PayoutEngine.mkAcc 0 0 [] []) in
            let* _ := create_row systemLogs set_systemLogs
                        (SystemLog.mk AUTO_PAYOUTS_COMPLETED None now) in
            ret (PayoutEngine.Processed acc)) (mkWorld d fs0) in
       match o with
       | Ok a => (Ok a, w')
       | Throw e =>
           (let* _ := create_row systemLogs set_systemLogs
                        (SystemLog.mk AUTO_PAYOUTS_ERROR None now) in
            ret (PayoutEngine.Failed e)) w'
       end) in
    Views.total_balance (db w) - Views.total_balance d =
      Views.total_amount (db w) - Views.total_amount d /\
    (forall x, unexplained x (db w) = unexplained x d) /\
    (forall acc,
       o = Ok (PayoutEngine.Processed acc) ->
       PayoutEngine.totalAmount acc =
         Views.total_amount (db w) - Views.total_amount d /\
       PayoutEngine.processedCount acc =
         Z.of_nat (Views.total_payouts (db w)) -
         Z.of_nat (Views.total_payouts d) /\
       (length (PayoutEngine.results acc) + length (PayoutEngine.errors acc) =
        Views.pending_today now d)%nat)) as Hgo.
  { intros fs0.
    destruct (length (PayoutEngine.duePurchases now d) =? 0)%nat eqn:Hz.
    - unfold_m. cbn.
      (split; [lia|]); (split; [done|]); intros acc0 Hacc; discriminate Hacc.
    - destruct (payout_loop_accounting now (PayoutEngine.duePurchases now d)
                  (PayoutEngine.mkAcc 0 0 [] []) d fs0)
        as (acc & [d1 fs1] & Hloop & Hb & Ha & Hc & Hx & Hn).
      unfold bind at 1. rewrite Hloop.
      cbn [db PayoutEngine.totalAmount PayoutEngine.processedCount
           PayoutEngine.results PayoutEngine.errors length] in Hb, Ha, Hc, Hx, Hn.
      rewrite Hpend in Hn.
      unfold Views.total_balance, Views.total_amount, Views.total_payouts in *.
      unfold_m. destruct fs1 as [|[|] [|[|] fs1]]; cbn;
        (split; [exact (eq_trans Hb (eq_sym Ha))|]); (split; [exact Hx|]);
        intros acc0 Hacc; try discriminate Hacc;
        injection Hacc as <-; repeat split; lia. }
  destruct fs as [|[|] fs]; [apply Hgo| |apply Hgo].
  clear Hgo. unfold Views.total_balance, Views.total_amount, Views.total_payouts.
  unfold_m. destruct fs as [|[|] fs]; cbn;
    (split; [lia|]); (split; [done|]); intros acc0 Hacc; discriminate Hacc.
Qed.

(** ** The life of a purchase under the Payout Engine *)

Lemma or_default_idem x dflt :
  dflt <> 0 -> or_default (Some (or_default x dflt)) dflt = or_default x dflt.
Proof.
  intros Hd. unfold or_default. destruct x as [v|].
  - destruct (v =? 0) eqn:E.
    + by destruct (dflt =? 0).
    + by rewrite E.
  - by destruct (dflt =? 0).
Qed.

Lemma new_purchase_unpaid now0 uid a req :
  PurchaseWorkflow.new_purchase now0 uid a req = paid_times now0 uid a req 0 None.
Proof.
  unfold PurchaseWorkflow.new_purchase, paid_times. f_equal; lia.
Qed.

Lemma settled_paid_times now now0 uid a req k last :
  PayoutEngine.due now (paid_times now0 uid a req k last) = true ->
  settled now (paid_times now0 uid a req k last) =
    paid_times now0 uid a req (k + 1) (Some now) /\
  k + 2 <= or_default (PurchaseWorkflow.cycle_days req) 30.
Proof.
  unfold PayoutEngine.due, settled, PayoutEngine.remainingDays,
    PayoutEngine.daysPassed, PayoutEngine.dailyReturn, PayoutEngine.advance,
    paid_times.
  cbn [Purchase.status Purchase.next_payout Purchase.expiry_date
       Purchase.cycle_days Purchase.purchase_date Purchase.daily_return
       Purchase.user_id Purchase.amount Purchase.quantity Purchase.total_earned
       Purchase.payout_count Purchase.last_payout Purchase.completed_at].
  rewrite !or_default_idem by done.
  set (C := or_default (PurchaseWorkflow.cycle_days req) 30).
  set (r := or_default (PurchaseWorkflow.daily_return req) 13).
  intros Hdue. apply andb_true_iff in Hdue as [Hnext Hexp].
  apply Z.leb_le in Hnext. apply Z.ltb_lt in Hexp.
  assert (0 < DAY_MS) as Hday by reflexivity.
  assert ((now - now0) / DAY_MS < C) as Hdiv
    by (apply Z.div_lt_upper_bound; lia).
  assert ((C - (now - now0) / DAY_MS <=? 0) = false) as ->
    by (apply Z.leb_gt; lia).
  split; [f_equal; lia|nia].
Qed.

Lemma paid_times_through_runs now0 uid a req id runs : forall d k last,
  purchases d !! id = Some (paid_times now0 uid a req k last) ->
  0 <= k <= Z.max 0 (or_default (PurchaseWorkflow.cycle_days req) 30 - 1) ->
  exists k' last',
    purchases (after_runs d runs) !! id =
      Some (paid_times now0 uid a req k' last') /\
    k <= k' <= Z.max 0 (or_default (PurchaseWorkflow.cycle_days req) 30 - 1) /\
    k' <= k + Z.of_nat (length runs).
Proof.
  induction runs as [|[now fs] runs IH]; intros d k last Hrow Hk.
  - exists k, last. cbn. split; [done|lia].
  - cbn [after_runs fold_left fst snd].
    destruct (run_settles_once now d fs id _ Hrow) as [Hsame|[Hdue Hset]].
    + destruct (IH _ k last Hsame Hk) as (k' & last' & H & Hb & Hl).
      exists k', last'. split; [exact H|]. cbn [length]. lia.
    + destruct (settled_paid_times now now0 uid a req k last Hdue) as [Heq HC].
      rewrite Heq in Hset.
      destruct (IH _ (k + 1) (Some now) Hset ltac:(lia))
        as (k' & last' & H & Hb & Hl).
      exists k', last'. split; [exact H|]. cbn [length]. lia.
Qed.

(** X18: a purchase created by the purchase route, or by the admin's
    add-product route, is never completed by the Payout Engine and never
    gets its last payout.  Through any number of engine runs, at any clock
    readings and under any store failures, its row stays active; it has been
    credited [k] times for some [k] that is at most the number of runs and
    at most its cycle days less one; its total earned is [k] daily returns
    and its next payout is [k + 1] days after the purchase. *)
Theorem created_purchase_never_completes now0 uid a req id d runs :
  purchases d !! id = Some (PurchaseWorkflow.new_purchase now0 uid a req) ->
  exists k last,
    purchases (after_runs d runs) !! id =
      Some (paid_times now0 uid a req k last) /\
    0 <= k <= Z.max 0 (or_default (PurchaseWorkflow.cycle_days req) 30 - 1) /\
    k <= Z.of_nat (length runs).
Proof.
  intros Hrow. rewrite new_purchase_unpaid in Hrow.
  destruct (paid_times_through_runs now0 uid a req id runs d 0 None Hrow
              ltac:(lia)) as (k & last & H & Hb & Hl).
  exists k, last. split; [exact H|]. lia.
Qed.

Lemma created_purchase_never_completes_witness :
  let d := Sample.db_with
             (PurchaseWorkflow.new_purchase 0 0 500 Sample.bare_request) in
  exists k last,
    purchases (after_runs d [(DAY_MS, []); (2 * DAY_MS, []); (31 * DAY_MS, [])])
      !! 0%nat = Some (paid_times 0 0 500 Sample.bare_request k last) /\
    0 <= k <= Z.max 0 (or_default
                         (PurchaseWorkflow.cycle_days Sample.bare_request) 30 - 1) /\
    k <= Z.of_nat 3.
Proof.
  exact (created_purchase_never_completes 0 0%nat 500 Sample.bare_request 0%nat
           (Sample.db_with
              (PurchaseWorkflow.new_purchase 0 0 500 Sample.bare_request))
           [(DAY_MS, []); (2 * DAY_MS, []); (31 * DAY_MS, [])] eq_refl).
Defined.

(** ** The older payout route *)

Lemma legacy_payout_one_cases now id p u0 acc d fs :
  exists acc' w',
    LegacyPayouts.payout_one now (id, p, u0) acc (mkWorld d fs) = (Ok acc', w') /\
    length (LegacyPayouts.results acc') =
      S (length (LegacyPayouts.results acc)) /\
    ((users (db w') = users d /\ transactions (db w') = transactions d /\
      LegacyPayouts.totalAmount acc' = LegacyPayouts.totalAmount acc) \/
     (exists u,
        users d !! Purchase.user_id p = Some u /\
        users (db w') =
          <[Purchase.user_id p :=
              User.mk (User.saldo u + PayoutEngine.dailyReturn p)
                      (User.inviter_id u)]> (users d) /\
        transactions (db w') =
          transactions d ++
            [Transaction.mk (Purchase.user_id p) TxType.payout
               (PayoutEngine.dailyReturn p)
               (User.saldo u + PayoutEngine.dailyReturn p) now] /\
        LegacyPayouts.totalAmount acc' =
          LegacyPayouts.totalAmount acc + PayoutEngine.dailyReturn p)).
Proof.
  unfold LegacyPayouts.payout_one, LegacyPayouts.credit_unit.
  destruct (PayoutEngine.remainingDays now p <=? 0).
  - unfold_m. destruct (purchases d !! id) as [q|] eqn:Hq;
      destruct fs as [|[|] fs]; cbn; rewrite ?Hq; cbn;
      eexists _, _; (split; [reflexivity|]); cbn; rewrite ?length_app; cbn;
      (split; [lia|]); by left.
  - destruct u0 as [u0|];
      [|unfold_m; cbn; eexists _, _; split; [reflexivity|]; cbn;
        rewrite ?length_app; cbn; split; [lia|by left]].
    unfold_m.
    destruct (users d !! Purchase.user_id p) as [u|] eqn:Hu;
      destruct (purchases d !! id) as [q|] eqn:Hq;
      destruct fs as [|[|] [|[|] [|[|] [|[|] [|[|] fs]]]]]; cbn;
      rewrite ?Hu, ?Hq; cbn; rewrite ?Hu, ?Hq; cbn; rewrite ?Hu, ?Hq; cbn;
      eexists _, _; (split; [reflexivity|]); cbn; rewrite ?length_app; cbn;
      (split; [lia|]); first [by left | right; exists u; by repeat split].
Qed.

Lemma other_rows_not_counted txs t :
  Views.is_auto_payout t = false ->
  List.filter Views.is_auto_payout (txs ++ [t]) =
  List.filter Views.is_auto_payout txs.
Proof.
  intros Ht. rewrite List.filter_app. cbn. rewrite Ht. apply app_nil_r.
Qed.

Lemma legacy_loop_accounting now rows : forall acc d fs,
  exists acc' w',
    for_of rows (LegacyPayouts.payout_one now) acc (mkWorld d fs) = (Ok acc', w') /\
    Views.total_balance (db w') - Views.total_balance d =
      LegacyPayouts.totalAmount acc' - LegacyPayouts.totalAmount acc /\
    List.filter Views.is_auto_payout (transactions (db w')) =
      List.filter Views.is_auto_payout (transactions d) /\
    (forall x, unexplained x (db w') = unexplained x d) /\
    (length (LegacyPayouts.results acc') =
     length rows + length (LegacyPayouts.results acc))%nat.
Proof.
  induction rows as [|[[id p] u0] rows IH]; intros acc d fs.
  - exists acc, (mkWorld d fs). cbn. repeat split; lia.
  - destruct (legacy_payout_one_cases now id p u0 acc d fs)
      as (acc1 & [d1 fs1] & H1 & Hn1 & Hcase).
    destruct (IH acc1 d1 fs1) as (acc2 & w2 & H2 & Hb & Ha & Hx & Hn2).
    exists acc2, w2. rewrite for_of_cons, H1. split; [exact H2|].
    cbn [db] in Hcase.
    assert (Views.total_balance d1 - Views.total_balance d =
              LegacyPayouts.totalAmount acc1 - LegacyPayouts.totalAmount acc /\
            List.filter Views.is_auto_payout (transactions d1) =
              List.filter Views.is_auto_payout (transactions d) /\
            (forall x, unexplained x d1 = unexplained x d))
      as (Hb1 & Ha1 & Hx1).
    { unfold Views.total_balance.
      destruct Hcase as [(Hus & Htx & Hta)|(u & Hu & Hus & Htx & Hta)].
      - unfold unexplained, balance_of.
        rewrite Hus, Htx, Hta. repeat split; lia.
      - split; [rewrite Hus, (total_balance_credit _ _ _ _ Hu); lia|].
        split; [rewrite Htx; by apply other_rows_not_counted|].
        intros x.
        apply (paired_change_reconciles (Purchase.user_id p) u
                 (PayoutEngine.dailyReturn p) _ d d1 Hu Hus Htx eq_refl eq_refl). }
    split; [lia|]. split; [congruence|].
    split; [intros x; by rewrite Hx, Hx1|]. cbn [length]. lia.
Qed.

(** X19: the books of a run of the older payout route, whatever the store
    holds and whatever store calls fail.  For every account the balance less
    its ledger amounts is what it was before, so every credit has its ledger
    row; but the rows are typed [payout], so the payout totals that the
    status route reports, which count [daily_payout_auto] rows only, do not
    move, however much the run paid.  When the run answers with its summary,
    the sum of all balances has grown by the summary's total amount and the
    results have one entry for every purchase that was due. *)
Theorem legacy_books_balance now d fs :
  let '(o, w) := LegacyPayouts.process_payouts now (mkWorld d fs) in
  (forall x, unexplained x (db w) = unexplained x d) /\
  Views.total_amount (db w) = Views.total_amount d /\
  Views.total_payouts (db w) = Views.total_payouts d /\
  (forall acc,
     o = Ok (LegacyPayouts.Processed acc) ->
     Views.total_balance (db w) - Views.total_balance d =
       LegacyPayouts.totalAmount acc /\
     length (LegacyPayouts.results acc) = Views.pending_today now d).
Proof.
  assert (length (PayoutEngine.duePurchases now d) = Views.pending_today now d)
    as Hpend by (unfold PayoutEngine.duePurchases, Views.pending_today;
                 by rewrite length_map).
  unfold LegacyPayouts.process_payouts.
  unfold try_catch at 1, bind at 1. rewrite findDue_run.
  assert (forall fs0,
    let '(o, w) :=
      (let (o, w') :=
         (let* acc := for_of (PayoutEngine.duePurchases now d)
                        (LegacyPayouts.payout_one now)
                        (LegacyPayouts.mkAcc 0 0 []) in
          ret (LegacyPayouts.Processed acc)) (mkWorld d fs0) in
       match o with
       | Ok a => (Ok a, w')
       | Throw e => ret LegacyPayouts.Failed w'
       end) in
    (forall x, unexplained x (db w) = unexplained x d) /\
    Views.total_amount (db w) = Views.total_amount d /\
    Views.total_payouts (db w) = Views.total_payouts d /\
    (forall acc,
       o = Ok (LegacyPayouts.Processed acc) ->
       Views.total_balance (db w) - Views.total_balance d =
         LegacyPayouts.totalAmount acc /\
       length (LegacyPayouts.results acc) = Views.pending_today now d)) as Hgo.
  { intros fs0.
    destruct (legacy_loop_accounting now (PayoutEngine.duePurchases now d)
                (LegacyPayouts.mkAcc 0 0 []) d fs0)
      as (acc & [d1 fs1] & Hloop & Hb & Ha & Hx & Hn).
    unfold bind at 1. rewrite Hloop.
    cbn [db LegacyPayouts.totalAmount LegacyPayouts.results length]
      in Hb, Ha, Hx, Hn.
    rewrite Hpend in Hn. unfold ret. cbn [db].
    unfold Views.total_amount, Views.total_payouts. rewrite Ha.
    (split; [exact Hx|]); (split; [done|]); (split; [done|]).
    intros acc0 Hacc. injection Hacc as <-. split; lia. }
  destruct fs as [|[|] fs]; [apply Hgo| |apply Hgo].
  unfold ret. cbn.
  (split; [done|]); (split; [done|]); (split; [done|]).
  intros acc0 Hacc. discriminate Hacc.
Qed.

(** ** What the account pages show *)

Lemma daysRemaining_spec now p :
  0 <= Views.daysRemaining now p /\
  (Views.daysRemaining now p <= 0 <-> Purchase.expiry_date p <= now) /\
  (now < Purchase.expiry_date p ->
   (Views.daysRemaining now p - 1) * DAY_MS < Purchase.expiry_date p - now
     <= Views.daysRemaining now p * DAY_MS).
Proof.
  unfold Views.daysRemaining.
  set (x := Purchase.expiry_date p - now).
  assert (0 < DAY_MS) as Hday by reflexivity.
  pose proof (Z.div_mod (- x) DAY_MS ltac:(lia)) as Hdm.
  pose proof (Z.mod_pos_bound (- x) DAY_MS Hday) as Hmod.
  split; [lia|]. split; [|intros Hlt]; nia.
Qed.

(** X20: the purchases page and the Payout Engine agree on what is pending.
    A purchase is shown as active with a pending payout exactly when the
    engine would select it at that time, and an active purchase is shown as
    expired exactly when its expiry date has been reached.  The days
    remaining are never negative and, before expiry, are the time to expiry
    rounded up to whole days. *)
Theorem display_agrees_with_engine now p :
  (Views.display now p = (Views.as_stored active, Views.payout_pending) <->
   PayoutEngine.due now p = true) /\
  (fst (Views.display now p) = Views.expired <->
   Purchase.status p = active /\ Purchase.expiry_date p <= now) /\
  0 <= Views.daysRemaining now p /\
  (now < Purchase.expiry_date p ->
   (Views.daysRemaining now p - 1) * DAY_MS < Purchase.expiry_date p - now
     <= Views.daysRemaining now p * DAY_MS).
Proof.
  destruct (daysRemaining_spec now p) as (Hpos & Hexp & Hceil).
  split; [|split; [|split; assumption]].
  - unfold Views.display, PayoutEngine.due.
    destruct (Purchase.status p); [|split; intros; discriminate..].
    destruct (Views.daysRemaining now p <=? 0) eqn:Hd.
    + apply Z.leb_le, Hexp in Hd.
      assert ((now <? Purchase.expiry_date p) = false) as ->
        by (apply Z.ltb_ge; lia).
      rewrite andb_false_r. split; intros; discriminate.
    + apply Z.leb_gt in Hd.
      assert ((now <? Purchase.expiry_date p) = true) as ->
        by (apply Z.ltb_lt; lia).
      rewrite andb_true_r.
      destruct (Purchase.next_payout p <=? now); split; intros; done.
  - unfold Views.display.
    destruct (Purchase.status p);
      [|split; [intros; discriminate|intros [? _]; discriminate]..].
    destruct (Views.daysRemaining now p <=? 0) eqn:Hd.
    + apply Z.leb_le, Hexp in Hd. by split.
    + apply Z.leb_gt in Hd.
      destruct (Purchase.next_payout p <=? now); cbn;
        (split; [intros; discriminate|intros [_ ?]; lia]).
Qed.

Lemma earliest_fold l : forall x,
  let e := fold_left (fun earliest p =>
                        if Purchase.next_payout p <? Purchase.next_payout earliest
                        then p else earliest) l x in
  (e = x \/ e ∈ l) /\
  Purchase.next_payout e <= Purchase.next_payout x /\
  (forall q, q ∈ l -> Purchase.next_payout e <= Purchase.next_payout q).
Proof.
  induction l as [|y l IH]; intros x; cbn.
  - split; [by left|]. split; [lia|]. intros q Hq. by apply elem_of_nil in Hq.
  - destruct (Purchase.next_payout y <? Purchase.next_payout x) eqn:Hlt.
    + apply Z.ltb_lt in Hlt. destruct (IH y) as (Hin & Hle & Hall).
      split; [right; destruct Hin as [->|Hin]; [left|by right]|].
      split; [lia|].
      intros q Hq. apply elem_of_cons in Hq as [->|Hq]; [done|by apply Hall].
    + apply Z.ltb_ge in Hlt. destruct (IH x) as (Hin & Hle & Hall).
      split; [destruct Hin as [->|Hin]; [by left|right; by right]|].
      split; [done|].
      intros q Hq. apply elem_of_cons in Hq as [->|Hq]; [lia|by apply Hall].
Qed.

Lemma disjoint_filters {A} (f g : A -> bool) l :
  (forall x, f x = true -> g x = false) ->
  (length (List.filter f l) + length (List.filter g l) <= length l)%nat.
Proof.
  intros Hfg. induction l as [|x l IH]; [done|].
  cbn [List.filter]. pose proof (Hfg x) as Hx.
  destruct (f x), (g x); cbn [length]; first [lia | by specialize (Hx eq_refl)].
Qed.

(** X21: the statistics page and the Payout Engine.  The packages counted
    as active and as completed are different packages of the account, so
    together they are at most the total.  The next automatic payout shown is
    missing exactly when no package is active, and otherwise is an active
    package of the account with the earliest next payout among them.  So
    when it lies in the future, the engine selects no purchase of this
    account now. *)
Theorem stats_next_payout now uid d :
  let s := Views.packages_stats now uid d in
  (Views.active_packages s + Views.completed_packages s <=
   Views.total_packages s)%nat /\
  (Views.next_auto_payout s = None <-> Views.active_packages s = 0%nat) /\
  (forall e,
     Views.next_auto_payout s = Some e ->
     e ∈ purchases d /\ Purchase.user_id e = uid /\
     Views.activeNow now e = true /\
     (forall q, q ∈ purchases d -> Purchase.user_id q = uid ->
        Views.activeNow now q = true ->
        Purchase.next_payout e <= Purchase.next_payout q) /\
     (now < Purchase.next_payout e ->
      forall q, q ∈ purchases d -> Purchase.user_id q = uid ->
        PayoutEngine.due now q = false)).
Proof.
  unfold Views.packages_stats. cbn zeta.
  set (mine := List.filter (fun p => Nat.eqb (Purchase.user_id p) uid)
                 (purchases d)).
  set (act := List.filter (Views.activeNow now) mine).
  cbn [Views.active_packages Views.completed_packages Views.total_packages
       Views.next_auto_payout].
  assert (forall q, q ∈ act <->
            q ∈ purchases d /\ Purchase.user_id q = uid /\
            Views.activeNow now q = true) as Hact.
  { intros q. unfold act, mine.
    rewrite !list_elem_of_In, !List.filter_In, <- !list_elem_of_In.
    rewrite Nat.eqb_eq. tauto. }
  split; [|split].
  - unfold act. apply disjoint_filters. intros x.
    unfold Views.activeNow, Views.is_completed.
    by destruct (Purchase.status x).
  - destruct act; cbn; split; intros; done.
  - intros e He.
    destruct act as [|x l] eqn:Eact; [discriminate He|].
    cbn in He. injection He as He.
    destruct (earliest_fold l x) as (Hin & Hle & Hall). cbv zeta in *.
    rewrite He in *.
    assert (e ∈ x :: l) as Hmem
      by (destruct Hin as [->|Hin]; [left|by right]).
    assert (forall q, q ∈ x :: l ->
              Purchase.next_payout e <= Purchase.next_payout q) as Hmin.
    { intros q Hq. apply elem_of_cons in Hq as [->|Hq]; [done|by apply Hall]. }
    apply Hact in Hmem as (Hd & Hu & Ha).
    split; [done|]. split; [done|]. split; [done|]. split.
    + intros q Hq Huq Haq. apply Hmin, Hact. done.
    + intros Hfut q Hq Huq.
      destruct (PayoutEngine.due now q) eqn:Hdue; [|done].
      unfold PayoutEngine.due in Hdue.
      destruct (Purchase.status q) eqn:Hs; try discriminate Hdue.
      apply andb_true_iff in Hdue as [Hn Hx]. apply Z.leb_le in Hn.
      assert (Views.activeNow now q = true) as Haq
        by (unfold Views.activeNow; rewrite Hs; exact Hx).
      pose proof (Hmin q (proj2 (Hact q) (conj Hq (conj Huq Haq)))). lia.
Qed.

(** ** The books of the referral bonuses *)

Lemma record_bonus_totals level sponsor b pct pct' r :
  Referrals.bonusPercentages level = Some pct' ->
  let r' := Referrals.record_bonus level sponsor b pct r in
  Referrals.total r' = Referrals.total r + b /\
  Referrals.level1 r' + Referrals.level2 r' + Referrals.level3 r' =
    Referrals.level1 r + Referrals.level2 r + Referrals.level3 r + b.
Proof.
  unfold Referrals.bonusPercentages, Referrals.record_bonus. cbn.
  destruct (level =? 1) eqn:E1; [apply Z.eqb_eq in E1; subst; cbn; split; lia|].
  destruct (level =? 2) eqn:E2; [apply Z.eqb_eq in E2; subst; cbn; split; lia|].
  destruct (level =? 3) eqn:E3; [apply Z.eqb_eq in E3; subst; cbn; split; lia|].
  discriminate.
Qed.

Lemma bonus_level_books now n amount row su r d fs :
  exists r' w',
    Referrals.bonus_level now n amount (row, su) r (mkWorld d fs) = (Ok r', w') /\
    0 <= Referrals.total r' - Referrals.total r
      <= Views.total_balance (db w') - Views.total_balance d /\
    Referrals.level1 r' + Referrals.level2 r' + Referrals.level3 r'
      - Referrals.total r' =
    Referrals.level1 r + Referrals.level2 r + Referrals.level3 r
      - Referrals.total r /\
    purchases (db w') = purchases d /\
    (fs = [] ->
     faults w' = [] /\
     Referrals.total r' - Referrals.total r =
       Views.total_balance (db w') - Views.total_balance d /\
     forall x, unexplained x (db w') = unexplained x d).
Proof.
  unfold Referrals.bonus_level. cbn [fst snd].
  set (level := ReferralLevel.level row).
  set (sponsor := ReferralLevel.referrer_id row).
  assert (exists r' w',
            ret r (mkWorld d fs) = (Ok r', w') /\
            0 <= Referrals.total r' - Referrals.total r
              <= Views.total_balance (db w') - Views.total_balance d /\
            Referrals.level1 r' + Referrals.level2 r' + Referrals.level3 r'
              - Referrals.total r' =
            Referrals.level1 r + Referrals.level2 r + Referrals.level3 r
              - Referrals.total r /\
            purchases (db w') = purchases d /\
            (fs = [] ->
             faults w' = [] /\
             Referrals.total r' - Referrals.total r =
               Views.total_balance (db w') - Views.total_balance d /\
             forall x, unexplained x (db w') = unexplained x d)) as Hskip.
  { exists r, (mkWorld d fs). cbn. repeat split; (lia || done). }
  destruct (Referrals.bonusPercentages level) as [pct|] eqn:Hpct; [|exact Hskip].
  destruct su as [su|]; [|exact Hskip].
  destruct (0 <? Referrals.bonusAmount amount pct) eqn:Hb; [|exact Hskip].
  clear Hskip. apply Z.ltb_lt in Hb.
  set (b := Referrals.bonusAmount amount pct) in *.
  destruct (record_bonus_totals level sponsor b pct pct r Hpct) as [Htot Hlev].
  set (r1 := Referrals.record_bonus level sponsor b pct r) in *.
  unfold Referrals.credit_sponsor. unfold_m.
  destruct (users d !! sponsor) as [u|] eqn:Hu.
  - pose proof (total_balance_credit (users d) sponsor u b Hu) as Hbal.
    assert (forall x,
              unexplained x
                (bonus_paid now n amount level sponsor b pct u d) =
              unexplained x d) as Hrec.
    { intros x. eapply (paired_change_reconciles sponsor u b); eauto;
        reflexivity. }
    unfold bonus_paid in Hrec.
    destruct fs as [|[|] [|[|] [|[|] [|[|] fs]]]]; cbn; rewrite ?Hu; cbn;
      rewrite ?Hu; cbn;
      eexists _, _; (split; [reflexivity|]);
      unfold Views.total_balance; cbn [db users set_users set_transactions
        set_referralBonuses purchases faults];
      unfold User.credit; rewrite ?Hbal;
      (split; [lia|]); (split; [lia|]); (split; [done|]);
      intros Hfs; try discriminate Hfs;
      (split; [done|]); (split; [lia|]); exact Hrec.
  - destruct fs as [|[|] [|[|] fs]]; cbn; rewrite ?Hu; cbn;
      eexists _, _; (split; [reflexivity|]); cbn;
      (split; [lia|]); (split; [lia|]); (split; [done|]);
      intros Hfs; try discriminate Hfs; (split; [done|]); (split; [lia|]); done.
Qed.

Lemma bonus_loop_books now n amount rows : forall r d fs,
  exists r' w',
    for_of rows (Referrals.bonus_level now n amount) r (mkWorld d fs) =
      (Ok r', w') /\
    0 <= Referrals.total r' - Referrals.total r
      <= Views.total_balance (db w') - Views.total_balance d /\
    Referrals.level1 r' + Referrals.level2 r' + Referrals.level3 r'
      - Referrals.total r' =
    Referrals.level1 r + Referrals.level2 r + Referrals.level3 r
      - Referrals.total r /\
    purchases (db w') = purchases d /\
    (fs = [] ->
     faults w' = [] /\
     Referrals.total r' - Referrals.total r =
       Views.total_balance (db w') - Views.total_balance d /\
     forall x, unexplained x (db w') = unexplained x d).
Proof.
  induction rows as [|[row su] rows IH]; intros r d fs.
  - exists r, (mkWorld d fs). cbn. repeat split; (lia || done).
  - destruct (bonus_level_books now n amount row su r d fs)
      as (r1 & [d1 fs1] & H1 & Hb1 & Hl1 & Hp1 & Hfree1).
    destruct (IH r1 d1 fs1) as (r2 & w2 & H2 & Hb2 & Hl2 & Hp2 & Hfree2).
    exists r2, w2. rewrite for_of_cons, H1. cbn [db faults] in *.
    split; [exact H2|]. split; [lia|]. split; [lia|]. split; [congruence|].
    intros ->. destruct (Hfree1 eq_refl) as (Hf1 & He1 & Hx1).
    destruct (Hfree2 Hf1) as (Hf2 & He2 & Hx2).
    split; [done|]. split; [lia|]. intros x. by rewrite Hx2, Hx1.
Qed.

(** X22: the books of the referral bonuses of one purchase, whatever the
    store holds and whatever store calls fail.  The distribution always
    returns; the total it reports is the sum of its three level totals, is
    never negative, and is never more than what the balances grew by, since
    a sponsor whose ledger write fails keeps the credit but is not reported.
    On a working store the reported total is exactly what the balances grew
    by, and every credit has its ledger row.  No purchase is changed. *)
Theorem referral_bonus_books now n amount d fs :
  exists res w,
    Referrals.distributeReferralBonuses now n amount (mkWorld d fs) =
      (Ok res, w) /\
    Referrals.total res =
      Referrals.level1 res + Referrals.level2 res + Referrals.level3 res /\
    0 <= Referrals.total res
      <= Views.total_balance (db w) - Views.total_balance d /\
    purchases (db w) = purchases d /\
    (fs = [] ->
     Referrals.total res =
       Views.total_balance (db w) - Views.total_balance d /\
     forall x, unexplained x (db w) = unexplained x d).
Proof.
  unfold Referrals.distributeReferralBonuses.
  assert (forall fs0,
    exists res w,
      (let (o, w') :=
         (if (length (Referrals.purchaserReferrers n d) =? 0)%nat
          then ret Referrals.no_bonus
          else for_of (Referrals.purchaserReferrers n d)
                 (Referrals.bonus_level now n amount) Referrals.no_bonus)
           (mkWorld d fs0) in
       match o with
       | Ok a => (Ok a, w')
       | Throw e => ret Referrals.no_bonus w'
       end) = (Ok res, w) /\
      Referrals.total res =
        Referrals.level1 res + Referrals.level2 res + Referrals.level3 res /\
      0 <= Referrals.total res
        <= Views.total_balance (db w) - Views.total_balance d /\
      purchases (db w) = purchases d /\
      (fs0 = [] ->
       Referrals.total res =
         Views.total_balance (db w) - Views.total_balance d /\
       forall x, unexplained x (db w) = unexplained x d)) as Hgo.
  { intros fs0.
    destruct (length (Referrals.purchaserReferrers n d) =? 0)%nat.
    - exists Referrals.no_bonus, (mkWorld d fs0). cbn.
      repeat split; (lia || done).
    - destruct (bonus_loop_books now n amount (Referrals.purchaserReferrers n d)
                  Referrals.no_bonus d fs0)
        as (res & w & Hloop & Hb & Hl & Hp & Hfree).
      exists res, w. rewrite Hloop. cbn [Referrals.no_bonus Referrals.total
        Referrals.level1 Referrals.level2 Referrals.level3] in *.
      split; [done|]. split; [lia|]. split; [lia|]. split; [done|].
      intros Hfs. destruct (Hfree Hfs) as (_ & He & Hx). split; [lia|done]. }
  unfold try_catch, bind, query, store_call. cbn [faults db].
  destruct fs as [|[|] fs]; [apply (Hgo [])| |destruct (Hgo fs)
    as (res & w & H & Ht & Hb & Hp & _); exists res, w;
    split; [exact H|]; split; [done|]; split; [done|]; split; [done|];
    intros Hfs; discriminate Hfs].
  exists Referrals.no_bonus, (mkWorld d fs). cbn.
  split; [done|]. split; [lia|]. split; [lia|]. split; [done|].
  intros Hfs; discriminate Hfs.
Qed.

Lemma distribute_books_ok now n amount d :
  exists res d',
    Referrals.distributeReferralBonuses now n amount (mkWorld d []) =
      (Ok res, mkWorld d' []) /\
    0 <= Referrals.total res /\
    Referrals.total res = Views.total_balance d' - Views.total_balance d /\
    (forall x, unexplained x d' = unexplained x d) /\
    purchases d' = purchases d /\
    systemLogs d' = systemLogs d /\
    length (users d') = length (users d).
Proof.
  destruct (distribute_frame now n amount
              (ReferralLevel.referrer_id <$> referralLevels d) d [])
    as (res & [d' fs'] & Hdist & Htouch & Hfs).
  { intros r Hr _. apply list_elem_of_fmap. eauto. }
  cbn [db faults] in Htouch, Hfs. specialize (Hfs eq_refl). subst fs'.
  destruct Htouch as (_ & Hlen & _ & _ & _ & Hpur & Hlog).
  exists res, d'. split; [exact Hdist|].
  revert Hdist. unfold Referrals.distributeReferralBonuses.
  unfold try_catch, bind at 1, query, store_call. cbn [faults db].
  unfold bind at 1, ret at 1. cbn [faults db].
  destruct (length (Referrals.purchaserReferrers n d) =? 0)%nat.
  - unfold ret. intros Heq. inversion Heq; subst. cbn.
    repeat split; (lia || done).
  - destruct (bonus_loop_books now n amount (Referrals.purchaserReferrers n d)
                Referrals.no_bonus d [])
      as (res1 & w1 & Hloop & Hb & _ & _ & Hfree).
    rewrite Hloop. intros Heq. inversion Heq; subst.
    destruct (Hfree eq_refl) as (_ & He & Hx).
    cbn [Referrals.no_bonus Referrals.total db] in *.
    repeat split; (lia || done).
Qed.

Lemma purchase_on_working_store now uid u req a d :
  PurchaseWorkflow.falsy_str (PurchaseWorkflow.product_id req) = false ->
  PurchaseWorkflow.falsy_str (PurchaseWorkflow.product_name req) = false ->
  PurchaseWorkflow.amount req = Some a ->
  a <> 0 ->
  users d !! uid = Some u ->
  a <= User.saldo u ->
  exists final bonuses d',
    run (PurchaseWorkflow.purchase now uid req) [] d =
      (Ok (PurchaseWorkflow.Done (length (purchases d)) (User.saldo u - a)
             (User.saldo final) bonuses), mkWorld d' []) /\
    users d' !! uid = Some final /\
    0 <= Referrals.total bonuses /\
    Views.total_balance d' =
      Views.total_balance d - a + Referrals.total bonuses /\
    (forall x, unexplained x d' = unexplained x d) /\
    purchases d' =
      purchases d ++ [PurchaseWorkflow.new_purchase now uid a req].
Proof.
  intros Hid Hname Hamt Hnz Hu Hle.
  set (d1 := bought now uid a req u d).
  destruct (distribute_books_ok now uid a d1)
    as (bonuses & d2 & Hdist & Hpos & Htot & Hx & Hpur & Hlog & Hlen).
  assert (is_Some (users d2 !! uid)) as [final Hfinal].
  { apply lookup_lt_is_Some. rewrite Hlen. unfold d1. cbn.
    rewrite length_insert. by eapply lookup_lt_Some. }
  exists final, bonuses. eexists.
  split; [|split; [|split; [|split; [|split]]]].
  - unfold run, PurchaseWorkflow.purchase.
    rewrite Hid, Hname, Hamt. cbn [orb falsy].
    apply Z.eqb_neq in Hnz as Hz. rewrite Hz, (or_default_some _ Hnz).
    apply try_catch_ok.
    erewrite bind_ok; [|apply find_row_ok]. rewrite Hu.
    assert ((User.saldo u <? a) = false) as -> by (apply Z.ltb_ge; lia).
    erewrite bind_ok; [|by apply purchase_unit_ok].
    erewrite bind_ok; [|apply try_catch_ok; exact Hdist].
    erewrite bind_ok; [|apply create_row_ok].
    erewrite bind_ok; [|apply find_row_ok]. cbn [users set_systemLogs].
    rewrite Hfinal. cbn [fst snd].
    replace (User.saldo u + - a) with (User.saldo u - a) by lia. reflexivity.
  - exact Hfinal.
  - exact Hpos.
  - unfold Views.total_balance in *. cbn [users set_systemLogs].
    assert (foldr (fun u s => User.saldo u + s) 0 (users d1) =
            foldr (fun u s => User.saldo u + s) 0 (users d) + - a) as Hd1
      by (unfold d1; cbn [users bought]; by apply total_balance_credit).
    lia.
  - intros x. transitivity (unexplained x d2); [done|]. rewrite Hx.
    unfold d1. eapply (paired_change_reconciles uid u (- a)); eauto; reflexivity.
  - cbn [purchases set_systemLogs]. by rewrite Hpur.
Qed.

(** X23: the books of a purchase on a working store.  For a complete
    request of an existing buyer whose balance covers the amount, the route
    answers with the new purchase and the buyer's balance after the debit;
    the sum of all balances falls by the amount and rises by the bonuses the
    answer reports; every balance change has its ledger row; and the one new
    purchase row is the last.  Nothing requires the amount to be positive: a
    negative amount passes the balance check and is added to the balance. *)
Theorem purchase_books now uid u req a d :
  PurchaseWorkflow.falsy_str (PurchaseWorkflow.product_id req) = false ->
  PurchaseWorkflow.falsy_str (PurchaseWorkflow.product_name req) = false ->
  PurchaseWorkflow.amount req = Some a ->
  a <> 0 ->
  users d !! uid = Some u ->
  a <= User.saldo u ->
  exists confirmed bonuses d',
    run (PurchaseWorkflow.purchase now uid req) [] d =
      (Ok (PurchaseWorkflow.Done (length (purchases d)) (User.saldo u - a)
             confirmed bonuses), mkWorld d' []) /\
    balance_of uid d' = Some confirmed /\
    0 <= Referrals.total bonuses /\
    Views.total_balance d' =
      Views.total_balance d - a + Referrals.total bonuses /\
    (forall x, unexplained x d' = unexplained x d) /\
    purchases d' =
      purchases d ++ [PurchaseWorkflow.new_purchase now uid a req].
Proof.
  intros Hid Hname Hamt Hnz Hu Hle.
  destruct (purchase_on_working_store now uid u req a d Hid Hname Hamt Hnz Hu Hle)
    as (final & bonuses & d' & Hrun & Hfinal & Hpos & Htot & Hx & Hpur).
  exists (User.saldo final), bonuses, d'.
  split; [exact Hrun|]. split; [unfold balance_of; by rewrite Hfinal|]. done.
Qed.

Lemma purchase_books_witness :
  let d := Sample.db_with Sample.regular in
  exists confirmed bonuses d',
    run (PurchaseWorkflow.purchase 0 0 Sample.bare_request) [] d
      = (Ok (PurchaseWorkflow.Done (length (purchases d)) (1000 - 500)
               confirmed bonuses),
         mkWorld d' []) /\
    balance_of 0 d' = Some confirmed /\
    0 <= Referrals.total bonuses /\
    Views.total_balance d' =
      Views.total_balance d - 500 + Referrals.total bonuses /\
    (forall x, unexplained x d' = unexplained x d) /\
    purchases d' =
      purchases d ++ [PurchaseWorkflow.new_purchase 0 0 500 Sample.bare_request].
Proof.
  apply (purchase_books 0 0%nat (User.mk 1000 None) Sample.bare_request 500
           (Sample.db_with Sample.regular));
    [reflexivity | reflexivity | reflexivity | lia | reflexivity | cbn; lia].
Defined.

(** X24: a purchase that the admin cancels, on a working store.  The buyer
    gets the whole amount back, so the buyer's balance is again what the
    purchase route confirmed plus the amount; but the bonuses paid to the
    sponsors stay where they are, so the sum of all balances ends above where
    it started by exactly the bonuses paid.  Every balance change has its
    ledger row, and the purchase ends cancelled. *)
Theorem purchase_then_cancel now1 now2 uid u req a d :
  PurchaseWorkflow.falsy_str (PurchaseWorkflow.product_id req) = false ->
  PurchaseWorkflow.falsy_str (PurchaseWorkflow.product_name req) = false ->
  PurchaseWorkflow.amount req = Some a ->
  a <> 0 ->
  users d !! uid = Some u ->
  a <= User.saldo u ->
  let id := length (purchases d) in
  let d1 := db_after (PurchaseWorkflow.purchase now1 uid req) [] d in
  let d2 := db_after (AdminPurchases.cancel_purchase now2 id) [] d1 in
  exists confirmed bonuses,
    outcome_of (PurchaseWorkflow.purchase now1 uid req) [] d =
      Ok (PurchaseWorkflow.Done id (User.saldo u - a) confirmed bonuses) /\
    outcome_of (AdminPurchases.cancel_purchase now2 id) [] d1 =
      Ok AdminPurchases.Cancelled /\
    balance_of uid d2 = Some (confirmed + a) /\
    Views.total_balance d2 = Views.total_balance d + Referrals.total bonuses /\
    (forall x, unexplained x d2 = unexplained x d) /\
    Purchase.status <$> purchases d2 !! id = Some cancelled.
Proof.
  intros Hid Hname Hamt Hnz Hu Hle id d1 d2.
  destruct (purchase_on_working_store now1 uid u req a d Hid Hname Hamt Hnz Hu Hle)
    as (final & bonuses & d' & Hrun & Hfinal & Hpos & Htot & Hx & Hpur).
  assert (d1 = d') as Hd1 by (unfold d1, db_after; by rewrite Hrun).
  set (q := PurchaseWorkflow.new_purchase now1 uid a req).
  assert (purchases d1 !! id = Some q) as Hq
    by (rewrite Hd1, Hpur; by apply list_lookup_middle).
  assert (users d1 !! Purchase.user_id q = Some final) as Hu1
    by (rewrite Hd1; exact Hfinal).
  assert (d2 = purchase_cancelled now2 id q final d1) as Hd2.
  { unfold d2, db_after. by rewrite (cancel_purchase_ok now2 id q final d1). }
  exists (User.saldo final), bonuses.
  split; [unfold outcome_of; by rewrite Hrun|].
  split; [unfold outcome_of; by rewrite (cancel_purchase_ok now2 id q final d1)|].
  assert (Hlt : (uid < length (users d1))%nat) by (by eapply lookup_lt_Some).
  assert (Hlt' : (id < length (purchases d1))%nat) by (by eapply lookup_lt_Some).
  rewrite Hd2. unfold purchase_cancelled. cbn [q PurchaseWorkflow.new_purchase
    Purchase.status AdminPurchases.is_active Purchase.user_id Purchase.amount].
  split; [|split; [|split]].
  - unfold balance_of. cbn. by rewrite list_lookup_insert_eq.
  - unfold Views.total_balance in *. cbn [users].
    rewrite (total_balance_credit _ _ _ _ Hu1). rewrite Hd1. lia.
  - intros x. rewrite <- Hx, <- Hd1.
    eapply (paired_change_reconciles uid final a); eauto; reflexivity.
  - cbn. by rewrite list_lookup_insert_eq.
Qed.

Lemma purchase_then_cancel_witness :
  let d := Sample.db_with Sample.regular in
  let d1 := db_after (PurchaseWorkflow.purchase 0 0 Sample.bare_request) [] d in
  let d2 := db_after (AdminPurchases.cancel_purchase 1 1) [] d1 in
  exists confirmed bonuses,
    outcome_of (PurchaseWorkflow.purchase 0 0 Sample.bare_request) [] d =
      Ok (PurchaseWorkflow.Done 1 (1000 - 500) confirmed bonuses) /\
    outcome_of (AdminPurchases.cancel_purchase 1 1) [] d1 =
      Ok AdminPurchases.Cancelled /\
    balance_of 0 d2 = Some (confirmed + 500) /\
    Views.total_balance d2 = Views.total_balance d + Referrals.total bonuses /\
    (forall x, unexplained x d2 = unexplained x d) /\
    Purchase.status <$> purchases d2 !! 1%nat = Some cancelled.
Proof.
  apply (purchase_then_cancel 0 1 0%nat (User.mk 1000 None) Sample.bare_request
           500 (Sample.db_with Sample.regular));
    [reflexivity | reflexivity | reflexivity | lia | reflexivity | cbn; lia].
Defined.

(** ** Registration of the referral network *)

(** X25: building the referral network of a new user never fails and never
    touches a balance, the ledger or the bonus rows, whatever store calls
    fail.  The rows it adds are always an initial part of the rows of a
    complete run: level 1 for the inviter, then level 2 and level 3 for the
    inviter's upline, in that order.  A store failure stops it without a
    trace in the answer, and the levels above the failing one are missing;
    on a working store all rows are written. *)
Theorem referral_network_prefix inviterId n d fs :
  exists w new,
    Referrals.createReferralNetwork inviterId n (mkWorld d fs) = (Ok tt, w) /\
    referralLevels (db w) = referralLevels d ++ new /\
    new `prefix_of` network_rows d inviterId n /\
    users (db w) = users d /\
    transactions (db w) = transactions d /\
    referralBonuses (db w) = referralBonuses d /\
    (fs = [] -> new = network_rows d inviterId n) /\
    (fs = [true] -> new = []).
Proof.
  unfold Referrals.createReferralNetwork, network_rows, upline. unfold_m.
  destruct (users d !! inviterId ≫= User.inviter_id) as [a2|] eqn:H2;
    [destruct (users d !! a2 ≫= User.inviter_id) as [a3|] eqn:H3|].
  all: destruct fs as [|[|] [|[|] [|[|] [|[|] [|[|] fs]]]]]; cbn; rewrite ?H2; cbn;
         rewrite ?H3; cbn.
  all: eexists _, _; (split; [reflexivity|]); cbn;
         (split; [first [rewrite <- ?app_assoc; reflexivity
                        | symmetry; apply app_nil_r]|]).
  all: (split; [eexists; cbn; reflexivity|]).
  all: repeat split; cbn; try done.
Qed.

(** ** The older payout route run twice *)

Lemma legacy_payout_one_ok now id p u0 q u acc d :
  purchases d !! id = Some q ->
  users d !! Purchase.user_id p = Some u ->
  exists acc' d' q',
    LegacyPayouts.payout_one now (id, p, Some u0) acc (mkWorld d []) =
      (Ok acc', mkWorld d' []) /\
    length (users d') = length (users d) /\
    purchases d' = <[id := q']> (purchases d) /\
    PayoutEngine.due now q' = false.
Proof.
  intros Hq Hu. unfold LegacyPayouts.payout_one, LegacyPayouts.credit_unit.
  destruct (PayoutEngine.remainingDays now p <=? 0); unfold_m; cbn;
    rewrite ?Hu, ?Hq; cbn; rewrite ?Hu, ?Hq; cbn; rewrite ?Hu, ?Hq; cbn;
    eexists _, _, _; (split; [reflexivity|]); cbn;
    rewrite ?length_insert; (split; [done|]); (split; [reflexivity|]).
  - reflexivity.
  - unfold PayoutEngine.due. cbn. destruct (Purchase.status q); [|done..].
    assert ((now + DAY_MS <=? now) = false) as ->
      by (apply Z.leb_gt; unfold DAY_MS; lia).
    done.
Qed.

Lemma legacy_loop_ok now rows : forall acc d,
  (forall id p u0, (id, p, u0) ∈ rows ->
     is_Some (purchases d !! id) /\ is_Some u0 /\
     is_Some (users d !! Purchase.user_id p)) ->
  exists acc' d',
    for_of rows (LegacyPayouts.payout_one now) acc (mkWorld d []) =
      (Ok acc', mkWorld d' []) /\
    forall k,
      (k ∈ row_id <$> rows ->
         exists q, purchases d' !! k = Some q /\ PayoutEngine.due now q = false) /\
      (k ∉ row_id <$> rows -> purchases d' !! k = purchases d !! k).
Proof.
  induction rows as [|[[id p] u0] rows IH]; intros acc d Hrows.
  - exists acc, d. cbn. split; [done|].
    intros k. split; [|done]. intros Hk. by apply elem_of_nil in Hk.
  - destruct (Hrows id p u0) as ([q Hq] & [u0' ->] & [u Hu]);
      [apply list_elem_of_here|].
    destruct (legacy_payout_one_ok now id p u0' q u acc d Hq Hu)
      as (acc1 & d1 & q1 & Hone & Hlen1 & Hpur1 & Hdue1).
    destruct (IH acc1 d1) as (acc' & d' & Hrun & Hk).
    { intros id' p' u' Hin.
      destruct (Hrows id' p' u') as (Hp' & Hu0 & Hu');
        [by apply list_elem_of_further|].
      split; [|split; [done|]].
      - apply lookup_lt_is_Some. rewrite Hpur1, length_insert.
        by apply lookup_lt_is_Some.
      - apply lookup_lt_is_Some. rewrite Hlen1. by apply lookup_lt_is_Some. }
    exists acc', d'. split.
    { rewrite for_of_cons, Hone. exact Hrun. }
    intros k. cbn. split.
    + intros Hin.
      destruct (decide (k ∈ row_id <$> rows)) as [Hin'|Hout];
        [by apply Hk|].
      apply elem_of_cons in Hin as [->|Hin]; [|done].
      destruct (Hk id) as [_ Hsame]. rewrite (Hsame Hout), Hpur1.
      rewrite list_lookup_insert_eq by (by eapply lookup_lt_Some).
      eexists. split; [reflexivity|done].
    + intros Hout. apply not_elem_of_cons in Hout as [Hne Hout].
      destruct (Hk k) as [_ Hsame]. rewrite (Hsame Hout), Hpur1.
      by rewrite list_lookup_insert_ne.
Qed.

(** X26: the older payout route never pays twice at one clock reading.  On
    a working store where every purchase has its owner, a run leaves no
    purchase due at the time of the run, whatever the state of the
    purchases, because it schedules the next payout one day after the run
    and not one day after the payout it caught up on; so a second run at the
    same time pays nothing and changes nothing. *)
Theorem legacy_rerun_pays_nothing now d :
  (forall id p, purchases d !! id = Some p ->
                is_Some (users d !! Purchase.user_id p)) ->
  let d1 := db_after (LegacyPayouts.process_payouts now) [] d in
  PayoutEngine.duePurchases now d1 = [] /\
  run (LegacyPayouts.process_payouts now) [] d1 =
    (Ok (LegacyPayouts.Processed (LegacyPayouts.mkAcc 0 0 [])), mkWorld d1 []).
Proof.
  intros Howners d1.
  assert (PayoutEngine.duePurchases now d1 = []) as Hnone.
  { destruct (legacy_loop_ok now (PayoutEngine.duePurchases now d)
                (LegacyPayouts.mkAcc 0 0 []) d) as (acc' & d' & Hrun & Hk).
    { intros id p u0 Hin. apply elem_of_due_rows in Hin as (Hp & Hd & ->).
      split; [by rewrite Hp|]. split; by eapply Howners. }
    assert (d1 = d') as ->.
    { unfold d1, db_after, run, LegacyPayouts.process_payouts.
      unfold try_catch, bind at 1. rewrite findDue_run.
      unfold bind at 1. by rewrite Hrun. }
    apply no_due_rows. intros k q Hq.
    destruct (decide (k ∈ row_id <$> PayoutEngine.duePurchases now d))
      as [Hin|Hout].
    - destruct (Hk k) as [Hin' _]. destruct (Hin' Hin) as (q' & Hq' & Hnd).
      congruence.
    - destruct (Hk k) as [_ Hsame]. rewrite (Hsame Hout) in Hq.
      destruct (PayoutEngine.due now q) eqn:Hd; [|done].
      exfalso. apply Hout.
      apply list_elem_of_fmap. exists (k, q, users d !! Purchase.user_id q).
      split; [done|]. by apply elem_of_due_rows. }
  split; [exact Hnone|].
  unfold run, LegacyPayouts.process_payouts.
  unfold try_catch, bind at 1. rewrite findDue_run, Hnone. reflexivity.
Qed.

Lemma legacy_rerun_pays_nothing_witness :
  let d := Sample.db_with Sample.regular in
  let d1 := db_after (LegacyPayouts.process_payouts Sample.late_now) [] d in
  PayoutEngine.duePurchases Sample.late_now d1 = [] /\
  run (LegacyPayouts.process_payouts Sample.late_now) [] d1 =
    (Ok (LegacyPayouts.Processed (LegacyPayouts.mkAcc 0 0 [])), mkWorld d1 []).
Proof.
  apply (legacy_rerun_pays_nothing Sample.late_now
           (Sample.db_with Sample.regular)).
  intros [|[|id]] p Hp; [|discriminate Hp..].
  injection Hp as <-. by eexists.
Defined.

(** ** The bulk route against the single-account routes *)

(** X27: on a working store a bulk request with one operation on an
    existing account changes balances and ledger exactly as the
    single-account route of the same action does, for adding, for deducting,
    covered by the balance or not, and for setting a positive balance.  The
    two differ in the log rows they write only. *)
Theorem bulk_agrees_with_single now uid u a d :
  users d !! uid = Some u ->
  0 < a ->
  let bulk act :=
    db_after (Admin.bulk_balance now
                [Admin.mkOperation (Some uid) (Some act) (Some a)]) [] d in
  let added := db_after (Admin.add_balance now uid (Some a)) [] d in
  let deducted := db_after (Admin.deduct_balance now uid (Some a)) [] d in
  let set := db_after (Admin.set_balance now uid (Some a)) [] d in
  (users (bulk Admin.add) = users added /\
   transactions (bulk Admin.add) = transactions added) /\
  (users (bulk Admin.deduct) = users deducted /\
   transactions (bulk Admin.deduct) = transactions deducted) /\
  (users (bulk Admin.set) = users set /\
   transactions (bulk Admin.set) = transactions set).
Proof.
  intros Hu Ha. cbv zeta.
  assert (Hlt : (uid < length (users d))%nat) by (by eapply lookup_lt_Some).
  unfold Admin.bulk_balance, for_of, Admin.bulk_item, Admin.add_balance,
    Admin.deduct_balance, Admin.set_balance, Admin.invalid_amount.
  cbn [Admin.user_id Admin.action Admin.amount length Nat.eqb].
  rewrite or_default_zero. cbn [falsy].
  assert ((a =? 0) = false) as -> by (apply Z.eqb_neq; lia).
  assert ((a <=? 0) = false) as -> by (apply Z.leb_gt; lia).
  assert ((a <? 0) = false) as -> by (apply Z.ltb_ge; lia).
  cbn [orb]. unfold_m. cbn. rewrite Hu. cbn. rewrite Hu. cbn.
  rewrite list_lookup_insert_eq by done. cbn.
  destruct (User.saldo u <? a); cbn; rewrite ?Hu; cbn;
    rewrite ?list_lookup_insert_eq by done; cbn; done.
Qed.

Lemma bulk_agrees_with_single_witness :
  users (db_after (Admin.bulk_balance 1
                     [Admin.mkOperation (Some 0%nat) (Some Admin.deduct)
                        (Some 200)]) [] Sample.account150) =
  users (db_after (Admin.deduct_balance 1 0 (Some 200)) [] Sample.account150).
Proof.
  destruct (bulk_agrees_with_single 1 0%nat (User.mk 150 None) 200
              Sample.account150 eq_refl) as (_ & [H _] & _); [lia|exact H].
Defined.
